(** * TekaStory: project archive codec and PDF renderer

    A shallow embedding of the packaging and rendering core of the TekaStory
    storyboard editor:

    - [src/lib/asset-service.ts]: the in-memory asset map;
    - [src/lib/pdf-service.ts]: the PDF export ([exportToPdf],
      [drawPanelPage], the images of the title and the end page) and the
      project service, save and load of [.tekastory] archives
      ([saveProject], [loadProject], [processProjectFile], [hydrateState]);
    - [src/lib/panel-template.ts] ([drawPanelTemplate]: the contain fit of a
      panel image and the rich-text layout of its script);
    - [src/lib/pdf-helpers.ts] ([drawLogo], [hexToRgb]);
    - [src/store/project-store.ts]: the initial project and the actions of
      the store.

    A JS number is the rational ([Q]) it denotes.  The script box of a panel
    and the text cursor in it are computed with the arithmetic of IEEE
    doubles ([Float64]); the geometry of pages, cells and images is computed
    exactly.  A JS string is the [string] of the bytes of its UTF-8
    encoding. *)

From Stdlib Require Import Ascii String QArith Qround Qpower Lqa.
From stdpp Require Import gmap strings list.
From Equations Require Import Equations.

Local Open Scope string_scope.

(** ** JavaScript string primitives *)

Module Js.

(** [s.startsWith(p)] *)
Definition startsWith (p s : string) : bool := String.prefix p s.

(** [s.endsWith(p)] for a one-character [p]. *)
Fixpoint endsWithChar (c : ascii) (s : string) : bool :=
  match s with
  | EmptyString => false
  | String a EmptyString => Ascii.eqb a c
  | String _ s' => endsWithChar c s'
  end.

(** [!s] on a string: only the empty string is falsy. *)
Definition falsy (s : string) : bool :=
  match s with EmptyString => true | String _ _ => false end.

(** [a || b] on strings. *)
Definition or_else (a b : string) : string := if falsy a then b else a.

(** [s.split(sep)] for a one-character separator; the result is never
    empty: [''.split(sep)] is [['']]. *)
Fixpoint split (sep : ascii) (s : string) : list string :=
  match s with
  | EmptyString => [EmptyString]
  | String c s' =>
      if Ascii.eqb c sep then EmptyString :: split sep s'
      else match split sep s' with
           | [] => [String c EmptyString]
           | w :: ws => String c w :: ws
           end
  end.

(** [l.join(sep)] *)
Definition join (sep : string) (l : list string) : string :=
  String.concat sep l.

(** [l.pop()] read as "last element, or undefined". *)
Definition pop (l : list string) : option string := last l.

(** [s.lastIndexOf(c)]; [None] stands for [-1]. *)
Fixpoint lastIndexOf (c : ascii) (s : string) : option nat :=
  match s with
  | EmptyString => None
  | String a s' =>
      match lastIndexOf c s' with
      | Some i => Some (S i)
      | None => if Ascii.eqb a c then Some 0 else None
      end
  end.

(** [s.substring(n)] *)
Definition substring (n : nat) (s : string) : string :=
  String.substring n (String.length s - n) s.

(** [s.slice(1, -1)] *)
Fixpoint dropLast (s : string) : string :=
  match s with
  | EmptyString => EmptyString
  | String _ EmptyString => EmptyString
  | String a s' => String a (dropLast s')
  end.

Definition slice_1_m1 (s : string) : string :=
  match s with
  | EmptyString => EmptyString
  | String _ s' => dropLast s'
  end.

(** [s.includes(c)] for a character [c]. *)
Fixpoint includes (c : ascii) (s : string) : bool :=
  match s with
  | EmptyString => false
  | String a s' => Ascii.eqb a c || includes c s'
  end.

End Js.

(** ** JavaScript numbers

    The sum, difference, product or quotient of two doubles is the double
    nearest to the exact result, ties going to the even significand.
    Numbers are finite here: the overflow to [Infinity] beyond [2^1024] is
    not part of the model. *)

Module Float64.

(** [2^e] *)
Definition pow2 (e : Z) : Q := Qpower 2 e.

(** The binary exponent of a positive number: the [e] with
    [2^e <= x < 2^(e+1)]. *)
Definition exponent (x : Q) : Z :=
  let e := (Z.log2 (Qnum x) - Z.log2 (Zpos (Qden x)))%Z in
  if Qle_bool (pow2 e) x then e else (e - 1)%Z.

(** The integer nearest to [q], the even one of two that are equally
    near. *)
Definition nearestEven (q : Q) : Z :=
  let f := Qfloor q in
  let r := (q - inject_Z f)%Q in
  if Qle_bool r (1 # 2)
  then if Qle_bool (1 # 2) r
       then if Z.even f then f else (f + 1)%Z
       else f
  else (f + 1)%Z.

(** The exponent of the smallest normal double. *)
Definition emin : Z := -1022.

(** The double nearest to a positive number: 53 significant bits, the last
    one worth [2^(e-52)], and [2^(-1074)] below [2^emin]. *)
Definition roundPos (x : Q) : Q :=
  let e := Z.max (exponent x) emin in
  let ulp := pow2 (e - 52) in
  (inject_Z (nearestEven (x / ulp)) * ulp)%Q.

Definition round (x : Q) : Q :=
  match Qnum x with
  | Z0 => 0%Q
  | Zpos _ => roundPos x
  | Zneg _ => (- roundPos (- x))%Q
  end.

(** [a + b], [a - b], [a * b] and [a / b] on numbers. *)
Definition add (a b : Q) : Q := round (a + b).
Definition sub (a b : Q) : Q := round (a - b).
Definition mul (a b : Q) : Q := round (a * b).
Definition div (a b : Q) : Q := round (a / b).

End Float64.

(** ** Data model ([src/types/index.ts], [src/constants/index.ts]) *)

Inductive LogoPosition :=
| top_left | top_center | top_right
| center_left | center | center_right
| bottom_left | bottom_center | bottom_right.

Inductive LogoSize := size_S | size_M | size_L | size_XL.

(** The records take the type [D] of the display-only string fields ([src],
    [image], [backgroundImage]) as a parameter: [string] in the live state,
    [unit] in a document from which the JSON replacer of [saveProject] has
    removed them. *)

Module Logo.
Record t (D : Type) := mk
  { src : D;
    assetKey : string;
    position : LogoPosition;
    size : LogoSize }.
Arguments mk {D}.
Arguments src {D}.
Arguments assetKey {D}.
Arguments position {D}.
Arguments size {D}.
End Logo.

Module TitlePage.
Record t (D : Type) := mk
  { header : string;
    subHeader : string;
    backgroundImage : D;
    backgroundImageAssetKey : string;
    logo : option (Logo.t D) }.
Arguments mk {D}.
Arguments header {D}.
Arguments subHeader {D}.
Arguments backgroundImage {D}.
Arguments backgroundImageAssetKey {D}.
Arguments logo {D}.
End TitlePage.

Module Panel.
Record t (D : Type) := mk
  { id : string;
    image : D;
    imageAssetKey : string;
    script : string }.
Arguments mk {D}.
Arguments id {D}.
Arguments image {D}.
Arguments imageAssetKey {D}.
Arguments script {D}.
End Panel.

Module EndPage.
Record t (D : Type) := mk
  { backgroundImage : D;
    backgroundImageAssetKey : string;
    logo : option (Logo.t D);
    text : string;
    showText : bool;
    mirrorTitlePage : bool }.
Arguments mk {D}.
Arguments backgroundImage {D}.
Arguments backgroundImageAssetKey {D}.
Arguments logo {D}.
Arguments text {D}.
Arguments showText {D}.
Arguments mirrorTitlePage {D}.
End EndPage.

(** [L] is the type of the transient [isLoading] flag: [bool] in the live
    state, [unit] where the key is absent. *)
Module Project.
Record t (D L : Type) := mk
  { projectTitle : string;
    titlePage : TitlePage.t D;
    panels : list (Panel.t D);
    endPage : EndPage.t D;
    logoSizesLinked : bool;
    isLoading : L }.
Arguments mk {D L}.
Arguments projectTitle {D L}.
Arguments titlePage {D L}.
Arguments panels {D L}.
Arguments endPage {D L}.
Arguments logoSizesLinked {D L}.
Arguments isLoading {D L}.
End Project.

(** The live state of the store. *)
Abbreviation ProjectState := (Project.t string bool).
(** The document held by [project.json]. *)
Abbreviation ProjectJson := (Project.t unit unit).

(** ** Asset service ([src/lib/asset-service.ts]) *)

Record File := mkFile
  { fileName : string;
    fileType : string;
    fileBytes : list Byte.byte }.

Record Blob := mkBlob
  { blobType : string;
    blobBytes : list Byte.byte }.

(** [new File([blob], name, { type })] *)
Definition newFile (b : Blob) (name type : string) : File :=
  mkFile name type (blobBytes b).

Abbreviation AssetMap := (gmap string File).

Definition getFileExtension (filename : string) : string :=
  match Js.lastIndexOf "."%char filename with
  | None => ""
  | Some lastDot =>
      if (lastDot <? 1)%nat || (lastDot =? String.length filename - 1)%nat
      then ""
      else Js.substring lastDot filename
  end.

(** [addAsset]: [uuid] is the identifier [uuidv4()] returns at this call. *)
Definition addAsset (uuid : string) (file : File) (assetMap : AssetMap)
  : string * AssetMap :=
  let extension := getFileExtension (fileName file) in
  let assetKey := uuid +:+ extension in
  (assetKey, <[assetKey := file]> assetMap).

Definition getAssetFile (assetKey : string) (assetMap : AssetMap)
  : option File := assetMap !! assetKey.

Definition clearAssets (assetMap : AssetMap) : AssetMap := ∅.

Definition setAsset (key : string) (file : File) (assetMap : AssetMap)
  : AssetMap := <[key := file]> assetMap.

(** ** Host capabilities

    What the browser, Tauri, [uuid] and [jszip] supply to the code. *)

Record Host := mkHost
  { (** the identifier returned by the [n]-th call of [uuidv4()] *)
    uuidv4 : nat → string;
    (** the outcome of the [n]-th [fetch(url)] followed by [.blob()];
        [None] when the promise rejects *)
    fetch : nat → string → option Blob;
    (** the URL returned by the [n]-th call of [URL.createObjectURL(file)] *)
    createObjectURL : nat → File → string;
    (** [window.__TAURI__] is set *)
    tauri : bool;
    (** [window.location.protocol] *)
    protocol : string;
    (** [convertFileSrc] of the Tauri API *)
    convertFileSrc : string → string;
    (** the MIME type of a blob that [jszip] extracts from an entry *)
    zipBlobType : string }.

(** [src/lib/tauri-helpers.ts] *)
Definition getFetchableUrl (h : Host) (path : string) : string :=
  if Js.falsy path || Js.startsWith "blob:" path || Js.startsWith "http" path
  then path
  else if tauri h && Js.startsWith "/" path
          && Js.startsWith "tauri" (protocol h)
  then convertFileSrc h (Js.substring 1 path)
  else path.

(** [src/config/content.ts] *)
Module content.
Definition defaultLogoPath : string := "/images/default_logo.png".
Definition defaultBackgroundPath : string := "/images/default_BG.png".
Definition loadError : string :=
  "Error: Invalid project file. project.json not found.".
End content.

(** ** Archive codec ([src/lib/pdf-service.ts], second part) *)

(** A [.tekastory] package as [jszip] presents it: the project state that
    the [project.json] entry holds, if there is such an entry, and the file
    entries of the [assets] folder by their path relative to the folder.  A
    package whose [project.json] holds no project state is an [Unreadable]
    package of the project service below. *)
Record Zip := mkZip
  { projectJson : option ProjectJson;
    assetsFolder : gmap string (list Byte.byte) }.

(** The part of the running application a save reads and writes. *)
Record Runtime := mkRuntime
  { assetMap : AssetMap;
    (** number of [uuidv4()] calls made so far *)
    uuids : nat;
    (** the URLs passed to [fetch] so far, oldest first *)
    fetched : list string }.

(** *** Loading *)

Definition hydrateAsset (h : Host) (assets : AssetMap) (assetKey : string)
    (urls : nat) : string * nat :=
  if Js.falsy assetKey || Js.startsWith "/images/" assetKey
  then (Js.or_else assetKey "", urls)
  else match getAssetFile assetKey assets with
       | Some file => (createObjectURL h urls file, S urls)
       | None => ("", urls)
       end.

Definition hydrateLogo {D} (h : Host) (assets : AssetMap)
    (logo : option (Logo.t D)) (urls : nat) : option (Logo.t string) * nat :=
  match logo with
  | Some l =>
      let '(src, urls) := hydrateAsset h assets (Logo.assetKey l) urls in
      (Some (Logo.mk src (Logo.assetKey l) (Logo.position l) (Logo.size l)),
       urls)
  | None => (None, urls)
  end.

Fixpoint hydratePanels {D} (h : Host) (assets : AssetMap)
    (panels : list (Panel.t D)) (urls : nat) : list (Panel.t string) * nat :=
  match panels with
  | [] => ([], urls)
  | panel :: rest =>
      let '(image, urls) :=
        hydrateAsset h assets (Panel.imageAssetKey panel) urls in
      let '(rest', urls) := hydratePanels h assets rest urls in
      (Panel.mk (Panel.id panel) image (Panel.imageAssetKey panel)
         (Panel.script panel) :: rest', urls)
  end.

(** [urls] counts the object URLs created so far. *)
Definition hydrateState {D L} (h : Host) (assets : AssetMap)
    (state : Project.t D L) (urls : nat) : Project.t string L * nat :=
  let tp := Project.titlePage state in
  let ep := Project.endPage state in
  let '(tbg, urls) :=
    hydrateAsset h assets (TitlePage.backgroundImageAssetKey tp) urls in
  let '(tlogo, urls) := hydrateLogo h assets (TitlePage.logo tp) urls in
  let '(ebg, urls) :=
    hydrateAsset h assets (EndPage.backgroundImageAssetKey ep) urls in
  let '(elogo, urls) := hydrateLogo h assets (EndPage.logo ep) urls in
  let '(panels, urls) := hydratePanels h assets (Project.panels state) urls in
  (Project.mk (Project.projectTitle state)
     (TitlePage.mk (TitlePage.header tp) (TitlePage.subHeader tp) tbg
        (TitlePage.backgroundImageAssetKey tp) tlogo)
     panels
     (EndPage.mk ebg (EndPage.backgroundImageAssetKey ep) elogo
        (EndPage.text ep) (EndPage.showText ep) (EndPage.mirrorTitlePage ep))
     (Project.logoSizesLinked state)
     (Project.isLoading state),
   urls).

(** [loadProject] of the store ([src/store/project-store.ts]); the object it
    receives from [processProjectFile] has no [isLoading] key, so [set]
    keeps the flag of the current state.  [cleanupBlobUrls] revokes object
    URLs of the current state and changes none of the data kept here. *)
Definition loadProject (current : ProjectState)
    (project : Project.t string unit) : ProjectState :=
  let projectTitle :=
    if Js.falsy (Project.projectTitle project)
    then Js.or_else (TitlePage.header (Project.titlePage project))
           "Untitled Project"
    else Project.projectTitle project in
  Project.mk projectTitle (Project.titlePage project) (Project.panels project)
    (Project.endPage project) (Project.logoSizesLinked project)
    (Project.isLoading current).

(** The part of the running application a load reads and writes. *)
Record App := mkApp
  { appAssets : AssetMap;
    appStore : ProjectState;
    (** number of [URL.createObjectURL] calls made so far *)
    appUrls : nat;
    (** the messages shown with [alert], oldest first *)
    appAlerts : list string }.

(** The asset loop of [processProjectFile]: one [setAsset] per file entry. *)
Definition loadAssets (h : Host) (folder : gmap string (list Byte.byte))
    (assets : AssetMap) : AssetMap :=
  map_fold
    (λ relativePath bytes acc,
       let assetKey := relativePath in
       setAsset assetKey (mkFile assetKey (zipBlobType h) bytes) acc)
    assets folder.

(** [processProjectFile] on an opened package; the undo history that it
    clears at the end is not part of [App]. *)
Definition processProjectFile (h : Host) (zip : Zip) (app : App) : App :=
  let assets := clearAssets (appAssets app) in
  match projectJson zip with
  | None =>
      mkApp assets (appStore app) (appUrls app)
        (appAlerts app ++ [content.loadError])%list
  | Some loadedState =>
      let assets := loadAssets h (assetsFolder zip) assets in
      let '(stateToLoad, urls) :=
        hydrateState h assets loadedState (appUrls app) in
      mkApp assets (loadProject (appStore app) stateToLoad) urls
        (appAlerts app)
  end.

(** *** Saving *)

(** [processAndMapAsset]; [cache] is the [defaultAssetMap] of the enclosing
    [saveProject] call. *)
Definition processAndMapAsset (h : Host) (assetKey defaultPath : string)
    (st : gmap string string * Runtime)
  : string * (gmap string string * Runtime) :=
  let '(cache, rt) := st in
  if Js.startsWith "default-" assetKey then
    match cache !! assetKey with
    | Some newAssetKey => (newAssetKey, st)
    | None =>
        let fetchablePath := getFetchableUrl h defaultPath in
        let log := (fetched rt ++ [fetchablePath])%list in
        match fetch h (length (fetched rt)) fetchablePath with
        | Some blob =>
            let filename :=
              Js.or_else (default "" (Js.pop (Js.split "/" defaultPath)))
                assetKey in
            let file := newFile blob filename (blobType blob) in
            let '(newAssetKey, assets) :=
              addAsset (uuidv4 h (uuids rt)) file (assetMap rt) in
            (newAssetKey,
             (<[assetKey := newAssetKey]> cache,
              mkRuntime assets (S (uuids rt)) log))
        | None => ("", (cache, mkRuntime (assetMap rt) (uuids rt) log))
        end
    end
  else (assetKey, st).

Definition mapLogo (h : Host) (logo : option (Logo.t string))
    (st : gmap string string * Runtime)
  : option (Logo.t string) * (gmap string string * Runtime) :=
  match logo with
  | Some l =>
      let '(k, st) :=
        processAndMapAsset h (Logo.assetKey l) content.defaultLogoPath st in
      (Some (Logo.mk (Logo.src l) k (Logo.position l) (Logo.size l)), st)
  | None => (None, st)
  end.

(** The four assignments that rewrite [savableState]. *)
Definition rewriteState (h : Host) (state : ProjectState)
    (st : gmap string string * Runtime)
  : ProjectState * (gmap string string * Runtime) :=
  let tp := Project.titlePage state in
  let ep := Project.endPage state in
  let '(tbg, st) :=
    processAndMapAsset h (TitlePage.backgroundImageAssetKey tp)
      content.defaultBackgroundPath st in
  let '(tlogo, st) := mapLogo h (TitlePage.logo tp) st in
  let '(ebg, st) :=
    processAndMapAsset h (EndPage.backgroundImageAssetKey ep)
      content.defaultBackgroundPath st in
  let '(elogo, st) := mapLogo h (EndPage.logo ep) st in
  (Project.mk (Project.projectTitle state)
     (TitlePage.mk (TitlePage.header tp) (TitlePage.subHeader tp)
        (TitlePage.backgroundImage tp) tbg tlogo)
     (Project.panels state)
     (EndPage.mk (EndPage.backgroundImage ep) ebg elogo (EndPage.text ep)
        (EndPage.showText ep) (EndPage.mirrorTitlePage ep))
     (Project.logoSizesLinked state)
     (Project.isLoading state),
   st).

(** The replacer handed to [JSON.stringify]: the keys [src], [image],
    [backgroundImage] and [isLoading] are left out of the document. *)
Definition stripLogo {D} (l : Logo.t D) : Logo.t unit :=
  Logo.mk tt (Logo.assetKey l) (Logo.position l) (Logo.size l).

Definition stripPanel {D} (p : Panel.t D) : Panel.t unit :=
  Panel.mk (Panel.id p) tt (Panel.imageAssetKey p) (Panel.script p).

Definition toProjectJson {D L} (s : Project.t D L) : ProjectJson :=
  let tp := Project.titlePage s in
  let ep := Project.endPage s in
  Project.mk (Project.projectTitle s)
    (TitlePage.mk (TitlePage.header tp) (TitlePage.subHeader tp) tt
       (TitlePage.backgroundImageAssetKey tp)
       (stripLogo <$> TitlePage.logo tp))
    (stripPanel <$> Project.panels s)
    (EndPage.mk tt (EndPage.backgroundImageAssetKey ep)
       (stripLogo <$> EndPage.logo ep) (EndPage.text ep)
       (EndPage.showText ep) (EndPage.mirrorTitlePage ep))
    (Project.logoSizesLinked s)
    tt.

(** The fields of a logo and of a panel that are not display-only. *)
Definition logoData {D} (l : Logo.t D) : string * LogoPosition * LogoSize :=
  (Logo.assetKey l, Logo.position l, Logo.size l).

Definition panelData {D} (p : Panel.t D) : string * string * string :=
  (Panel.id p, Panel.imageAssetKey p, Panel.script p).

(** [collectAsset]; [None] is the [undefined] of [logo?.assetKey]. *)
Definition collectAsset (assetKey : option string)
    (referencedAssets : gset string) : gset string :=
  match assetKey with
  | Some k =>
      if negb (Js.falsy k) && negb (Js.startsWith "default-" k)
      then referencedAssets ∪ {[k]}
      else referencedAssets
  | None => referencedAssets
  end.

Definition referencedAssets (savableState : ProjectState) : gset string :=
  let tp := Project.titlePage savableState in
  let ep := Project.endPage savableState in
  let s := collectAsset (Logo.assetKey <$> TitlePage.logo tp) ∅ in
  let s := collectAsset (Some (TitlePage.backgroundImageAssetKey tp)) s in
  let s := collectAsset (Logo.assetKey <$> EndPage.logo ep) s in
  let s := collectAsset (Some (EndPage.backgroundImageAssetKey ep)) s in
  foldl (λ s panel, collectAsset (Some (Panel.imageAssetKey panel)) s) s
    (Project.panels savableState).

(** The loop that fills the [assets] folder of the zip. *)
Definition addReferenced (assets : AssetMap) (refs : gset string)
  : gmap string (list Byte.byte) :=
  set_fold
    (λ assetKey folder,
       if Js.falsy assetKey then folder
       else match getAssetFile assetKey assets with
            | Some file => <[assetKey := fileBytes file]> folder
            | None => folder
            end)
    ∅ refs.

(** [saveProject], up to the generation of the zip; [state] is the state of
    the store. *)
Definition saveProject (h : Host) (state : ProjectState) (rt : Runtime)
  : Zip * Runtime :=
  let savableState := state in
  let defaultAssetMap : gmap string string := ∅ in
  let '(savableState, (_, rt)) :=
    rewriteState h savableState (defaultAssetMap, rt) in
  let projectJsonString := toProjectJson savableState in
  let folder := addReferenced (assetMap rt) (referencedAssets savableState) in
  (mkZip (Some projectJsonString) folder, rt).

(** ** PDF export ([src/lib/pdf-service.ts], first part) *)

(** [a > b] *)
Definition Qgtb (a b : Q) : bool := negb (Qle_bool a b).

Definition Qnat (n : nat) : Q := inject_Z (Z.of_nat n).

Definition PDF_WIDTH : Q := 1024.
Definition PDF_HEIGHT : Q := 768.
Definition PAGE_MARGIN : Q := 40.

(** The rectangle handed to [pdf.addImage]. *)
Record Placement := mkPlacement
  { drawX : Q; drawY : Q; drawWidth : Q; drawHeight : Q }.

(** The background fit of [drawTitlePage] and [drawEndPage], which use it
    with the page as the box ([pageBackgroundFit] below). *)
Definition coverFit (boxWidth boxHeight imgRatio : Q) : Placement :=
  let pageRatio := (boxWidth / boxHeight)%Q in
  if Qgtb imgRatio pageRatio then
    let drawHeight := boxHeight in
    let drawWidth := (drawHeight * imgRatio)%Q in
    mkPlacement ((boxWidth - drawWidth) / 2)%Q 0%Q drawWidth drawHeight
  else
    let drawWidth := boxWidth in
    let drawHeight := (drawWidth / imgRatio)%Q in
    mkPlacement 0%Q ((boxHeight - drawHeight) / 2)%Q drawWidth drawHeight.

Definition pageBackgroundFit (naturalWidth naturalHeight : Q) : Placement :=
  coverFit PDF_WIDTH PDF_HEIGHT (naturalWidth / naturalHeight)%Q.

(** The image fit of [drawPanelTemplate] into the container at
    [(boxX, boxY)]. *)
Definition containFit (boxX boxY boxWidth boxHeight imgRatio : Q)
  : Placement :=
  let containerRatio := (boxWidth / boxHeight)%Q in
  if Qgtb imgRatio containerRatio then
    let drawWidth := boxWidth in
    let drawHeight := (drawWidth / imgRatio)%Q in
    mkPlacement boxX (boxY + (boxHeight - drawHeight) / 2)%Q
      drawWidth drawHeight
  else
    let drawHeight := boxHeight in
    let drawWidth := (drawHeight * imgRatio)%Q in
    mkPlacement (boxX + (boxWidth - drawWidth) / 2)%Q boxY
      drawWidth drawHeight.

(** *** Script layout ([src/lib/panel-template.ts]) *)

(** A call [pdf.text(text, x, y)]; [opBold] is the style set by the last
    [pdf.setFont('Open Sans', ...)]. *)
Record TextOp := mkTextOp
  { opBold : bool; opText : string; opX : Q; opY : Q }.

Record Cursor := mkCursor
  { cursorX : Q; cursorY : Q; drawn : list TextOp }.

(** The script box as [drawPanelTemplate] derives it from the panel frame:
    [lineStart] is [CONTENT_X + SCRIPT_BOX_PADDING_X], [lineEnd] is
    [CONTENT_X + SCRIPT_TEXT_MAX_WIDTH + SCRIPT_BOX_PADDING_X], [yMax] is
    [SCRIPT_BOX_Y + SCRIPT_BOX_HEIGHT - SCRIPT_BOX_PADDING_Y] and [firstY] the
    first baseline. *)
Record ScriptBox := mkScriptBox
  { lineStart : Q; lineEnd : Q; firstY : Q; yMax : Q }.

Definition LINE_HEIGHT : Q := 14.
Definition fontSize_script : Q := 13.

(** [scriptText.split(/(\[[\s\S]*?\])/g).filter(Boolean)]: the text is cut
    at every span that runs from a [[] to the first []] after it; the span
    is kept, brackets included, as a part of its own and empty parts are
    dropped.  [plain] is the text read since the last span and [span] the
    text read since an opening bracket that is still unmatched. *)
Fixpoint scanParts (s : string) (plain : string) (span : option string)
  : list string :=
  match s, span with
  | EmptyString, None => [plain]
  | EmptyString, Some b => [plain +:+ b]
  | String c s', None =>
      if Ascii.eqb c "["%char then scanParts s' plain (Some "[")
      else scanParts s' (plain +:+ String c "") None
  | String c s', Some b =>
      if Ascii.eqb c "]"%char
      then plain :: (b +:+ "]") :: scanParts s' "" None
      else scanParts s' plain (Some (b +:+ String c ""))
  end.

Definition splitParts (scriptText : string) : list string :=
  filter (λ part, negb (Js.falsy part) = true) (scanParts scriptText "" None).

(** [panel.script.split('\n').slice(0, 6).join('\n')] *)
Definition truncateScript (script : string) : string :=
  Js.join (String "010"%char "") (take 6 (Js.split "010"%char script)).

Section Layout.

(** [pdf.getTextWidth] at the script font size, in the normal ([false]) or
    bold ([true]) face. *)
Variable getTextWidth : bool → string → Q.
Variable box : ScriptBox.

Definition checkYBounds (c : Cursor) : bool := Qle_bool (cursorY c) (yMax box).

(** [cursorY += LINE_HEIGHT; cursorX = CONTENT_X + SCRIPT_BOX_PADDING_X] *)
Definition newLine (c : Cursor) : Cursor :=
  mkCursor (lineStart box) (Float64.add (cursorY c) LINE_HEIGHT) (drawn c).

(** [pdf.text(t, cursorX, cursorY); cursorX += w] *)
Definition putText (bold : bool) (t : string) (w : Q) (c : Cursor) : Cursor :=
  mkCursor (Float64.add (cursorX c) w) (cursorY c)
    (drawn c ++ [mkTextOp bold t (cursorX c) (cursorY c)]).

(** The loop over the words of one line. *)
Fixpoint drawWords (isAction : bool) (words : list string) (c : Cursor)
  : Cursor :=
  match words with
  | [] => c
  | word :: rest =>
      if negb (checkYBounds c) then c
      else
        let wordWithSpace :=
          if Qeq_bool (cursorX c) (lineStart box) then word
          else " " +:+ word in
        let wordWidth := getTextWidth isAction wordWithSpace in
        if Qgtb (cursorX c) (lineStart box)
           && Qgtb (Float64.add (cursorX c) wordWidth) (lineEnd box)
        then
          let c := newLine c in
          if negb (checkYBounds c) then c
          else drawWords isAction rest
                 (putText isAction word (getTextWidth isAction word) c)
        else drawWords isAction rest
               (putText isAction wordWithSpace wordWidth c)
  end.

(** The loop over the lines of one part. *)
Fixpoint drawLines (isAction : bool) (lines : list string) (c : Cursor)
  : Cursor :=
  match lines with
  | [] => c
  | line :: rest =>
      if negb (checkYBounds c) then c
      else
        let c := drawWords isAction (Js.split " "%char line) c in
        let c := match rest with [] => c | _ :: _ => newLine c end in
        drawLines isAction rest c
  end.

Definition isAction (part : string) : bool :=
  Js.startsWith "[" part && Js.endsWithChar "]"%char part.

Definition textToProcess (part : string) : string :=
  if isAction part then Js.slice_1_m1 part else part.

(** The loop over the parts. *)
Fixpoint drawParts (parts : list string) (c : Cursor) : Cursor :=
  match parts with
  | [] => c
  | part :: rest =>
      if negb (checkYBounds c) then c
      else drawParts rest
             (drawLines (isAction part)
                (Js.split "010"%char (textToProcess part)) c)
  end.

(** The rich-text section of [drawPanelTemplate]: the [pdf.text] calls it
    makes for a script, in order. *)
Definition drawScript (script : string) : list TextOp :=
  let scriptText := truncateScript script in
  let parts := splitParts scriptText in
  drawn (drawParts parts (mkCursor (lineStart box) (firstY box) [])).

End Layout.

(** *** Panels and pages *)

(** What [pdf.getTextWidth] and [loadImage] answer during an export. *)
Record Pdf := mkPdf
  { getTextWidth : bool → string → Q;
    (** natural width and height of the image at a display source, [None]
        when it does not load *)
    loadImage : string → option (Q * Q) }.

(** What [drawPanelTemplate] draws for one panel: the frame of the cell, the
    zero-based number of the panel in the storyboard, the panel image and the
    script text. *)
Record PanelDrawing := mkPanelDrawing
  { cellX : Q; cellY : Q; cellWidth : Q; cellHeight : Q;
    panelIndex : nat;
    panelImage : option Placement;
    scriptOps : list TextOp }.

(** The script box of a panel frame, computed as the code computes it, in
    doubles. *)
Definition scriptBoxOf (x y width height : Q) : ScriptBox :=
  let PADDING := 10%Q in
  let CONTENT_X := Float64.add x PADDING in
  let CONTENT_Y := Float64.add y PADDING in
  let CONTENT_WIDTH := Float64.sub width (Float64.mul 2 PADDING) in
  let IMG_CONTAINER_Y := Float64.add CONTENT_Y 25 in
  let IMG_CONTAINER_WIDTH := CONTENT_WIDTH in
  let IMG_CONTAINER_HEIGHT :=
    Float64.mul IMG_CONTAINER_WIDTH (Float64.div 9 16) in
  let SCRIPT_AREA_Y :=
    Float64.add (Float64.add IMG_CONTAINER_Y IMG_CONTAINER_HEIGHT) 12 in
  let SCRIPT_BOX_Y := Float64.add SCRIPT_AREA_Y 4 in
  let SCRIPT_BOX_HEIGHT :=
    Float64.sub (Float64.sub (Float64.add y height) PADDING) SCRIPT_BOX_Y in
  let SCRIPT_BOX_PADDING_X := 10%Q in
  let SCRIPT_BOX_PADDING_Y := 10%Q in
  let SCRIPT_TEXT_MAX_WIDTH :=
    Float64.sub CONTENT_WIDTH (Float64.mul 2 SCRIPT_BOX_PADDING_X) in
  mkScriptBox
    (Float64.add CONTENT_X SCRIPT_BOX_PADDING_X)
    (Float64.add (Float64.add CONTENT_X SCRIPT_TEXT_MAX_WIDTH)
       SCRIPT_BOX_PADDING_X)
    (Float64.sub
       (Float64.add (Float64.add SCRIPT_BOX_Y SCRIPT_BOX_PADDING_Y)
          fontSize_script) 4)
    (Float64.sub (Float64.add SCRIPT_BOX_Y SCRIPT_BOX_HEIGHT)
       SCRIPT_BOX_PADDING_Y).

Definition drawPanelTemplate (pdf : Pdf) (panel : Panel.t string)
    (index : nat) (x y width height : Q) : PanelDrawing :=
  let PADDING := 10%Q in
  let CONTENT_X := (x + PADDING)%Q in
  let CONTENT_Y := (y + PADDING)%Q in
  let CONTENT_WIDTH := (width - 2 * PADDING)%Q in
  let IMG_CONTAINER_Y := (CONTENT_Y + 25)%Q in
  let IMG_CONTAINER_WIDTH := CONTENT_WIDTH in
  let IMG_CONTAINER_HEIGHT := (IMG_CONTAINER_WIDTH * (9 / 16))%Q in
  let image :=
    if Js.falsy (Panel.image panel) then None
    else match loadImage pdf (Panel.image panel) with
         | Some (naturalWidth, naturalHeight) =>
             Some (containFit CONTENT_X IMG_CONTAINER_Y IMG_CONTAINER_WIDTH
                     IMG_CONTAINER_HEIGHT (naturalWidth / naturalHeight)%Q)
         | None => None
         end in
  mkPanelDrawing x y width height index image
    (drawScript (getTextWidth pdf) (scriptBoxOf x y width height)
       (Panel.script panel)).

(** The grid of [drawPanelPage]. *)
Definition cols : nat := 3.
Definition rows : nat := 2.
Definition colGap : Q := 20.
Definition rowGap : Q := 20.
Definition contentWidth : Q := PDF_WIDTH - PAGE_MARGIN * 2.
Definition contentHeight : Q := PDF_HEIGHT - PAGE_MARGIN * 2.
Definition panelWidth : Q :=
  (contentWidth - (Qnat cols - 1) * colGap) / Qnat cols.
Definition panelHeight : Q :=
  (contentHeight - (Qnat rows - 1) * rowGap) / Qnat rows.

(** The cell that the loop of [drawPanelPage] gives to the [i]-th panel of
    the chunk [chunkIndex]. *)
Definition drawCell (pdf : Pdf) (chunkIndex i : nat) (panel : Panel.t string)
  : PanelDrawing :=
  let col := (i mod cols)%nat in
  let row := (i / cols)%nat in
  let x := (PAGE_MARGIN + Qnat col * (panelWidth + colGap))%Q in
  let y := (PAGE_MARGIN + Qnat row * (panelHeight + rowGap))%Q in
  drawPanelTemplate pdf panel (chunkIndex * 6 + i)%nat x y
    panelWidth panelHeight.

(** [drawPanelPage]: the drawings of the panels of one chunk, in the order
    of the loop. *)
Definition drawPanelPage (pdf : Pdf) (panels : list (Panel.t string))
    (chunkIndex : nat) : list PanelDrawing :=
  imap (drawCell pdf chunkIndex) panels.

(** [panels.slice(i, j)] *)
Definition slice {A} (i j : nat) (l : list A) : list A :=
  take (j - i) (drop i l).

(** The loop [for (let i = 0; i < state.panels.length; i += 6)] of
    [exportToPdf], from the index [i] on. *)
Equations? panelChunksFrom {A} (panels : list A) (i : nat) : list (list A)
  by wf (length panels - i) lt :=
  panelChunksFrom panels i with decide (i < length panels) => {
    | left _ => slice i (i + 6) panels :: panelChunksFrom panels (i + 6);
    | right _ => [] }.
Proof. lia. Qed.

Definition panelChunks {A} (panels : list A) : list (list A) :=
  panelChunksFrom panels 0.

(** [state.endPage.logo?.position || 'bottom-center'] *)
Definition endLogoPosition (logo : option (Logo.t string)) : LogoPosition :=
  match logo with
  | Some l => Logo.position l
  | None => bottom_center
  end.

Definition endPageConfig (state : ProjectState) : EndPage.t string :=
  let endPage := Project.endPage state in
  let titlePage := Project.titlePage state in
  if EndPage.mirrorTitlePage endPage then
    EndPage.mk (TitlePage.backgroundImage titlePage)
      (EndPage.backgroundImageAssetKey endPage)
      (match TitlePage.logo titlePage with
       | Some l =>
           Some (Logo.mk (Logo.src l) (Logo.assetKey l)
                   (endLogoPosition (EndPage.logo endPage)) (Logo.size l))
       | None => None
       end)
      (EndPage.text endPage) (EndPage.showText endPage)
      (EndPage.mirrorTitlePage endPage)
  else endPage.

(** The pages of the exported document, in the order [exportToPdf] draws
    them: the title page, one page per chunk of panels, the end page. *)
Inductive Page :=
| TitlePg (page : TitlePage.t string)
| PanelPg (cells : list PanelDrawing)
| EndPg (page : EndPage.t string).

Definition exportToPdf (pdf : Pdf) (state : ProjectState) : list Page :=
  [TitlePg (Project.titlePage state)]
  ++ imap (λ i chunk, PanelPg (drawPanelPage pdf chunk i))
       (panelChunks (Project.panels state))
  ++ [EndPg (endPageConfig state)].

(** ** Vocabulary of the archive properties *)

(** The asset keys reachable from a state, as the specification lists them:
    the title background, the title logo, the end background, the end logo
    and every panel image. *)
Definition reachableKey (s : ProjectState) (k : string) : Prop :=
  k = TitlePage.backgroundImageAssetKey (Project.titlePage s)
  ∨ (∃ l, TitlePage.logo (Project.titlePage s) = Some l ∧ k = Logo.assetKey l)
  ∨ k = EndPage.backgroundImageAssetKey (Project.endPage s)
  ∨ (∃ l, EndPage.logo (Project.endPage s) = Some l ∧ k = Logo.assetKey l)
  ∨ (∃ p, p ∈ Project.panels s ∧ k = Panel.imageAssetKey p).

(** A key that is neither empty nor a default placeholder. *)
Definition realKey (k : string) : Prop :=
  k ≠ "" ∧ Js.startsWith "default-" k = false.

(** The test of [processAndMapAsset] and [collectAsset] for a default
    placeholder. *)
Definition isPlaceholder (k : string) : bool := Js.startsWith "default-" k.

(** The placeholder a reference holds, if it holds one. *)
Definition placeholderOf (k : option string) : gset string :=
  match k with
  | Some k => if isPlaceholder k then {[k]} else ∅
  | None => ∅
  end.

(** The four references that [saveProject] rewrites. *)
Definition titleLogoKey (s : ProjectState) : option string :=
  Logo.assetKey <$> TitlePage.logo (Project.titlePage s).
Definition endLogoKey (s : ProjectState) : option string :=
  Logo.assetKey <$> EndPage.logo (Project.endPage s).
Definition titleBgKey (s : ProjectState) : string :=
  TitlePage.backgroundImageAssetKey (Project.titlePage s).
Definition endBgKey (s : ProjectState) : string :=
  EndPage.backgroundImageAssetKey (Project.endPage s).

(** The distinct placeholders among them. *)
Definition placeholders (s : ProjectState) : gset string :=
  placeholderOf (Some (titleBgKey s)) ∪ placeholderOf (titleLogoKey s)
  ∪ placeholderOf (Some (endBgKey s)) ∪ placeholderOf (endLogoKey s).

(** A reference [k] has been rewritten to [k'] under the cache. *)
Definition rewritten (cache : gmap string string) (k k' : string) : Prop :=
  if isPlaceholder k then k' = "" ∨ cache !! k = Some k' else k' = k.

Definition rewrittenOpt (cache : gmap string string) (o o' : option string)
  : Prop :=
  match o, o' with
  | Some k, Some k' => rewritten cache k k'
  | None, None => True
  | _, _ => False
  end.

(** The number of placeholder references that the save left empty. *)
Definition emptied (k : option string) (k' : option string) : nat :=
  match k, k' with
  | Some k, Some k' => if isPlaceholder k && Js.falsy k' then 1 else 0
  | _, _ => 0
  end.

(** Every [fetch] of the host resolves. *)
Definition allFetchesSucceed (h : Host) : Prop :=
  ∀ n url, is_Some (fetch h n url).

(** The two paths [saveProject] fetches defaults from. *)
Definition defaultPath (p : string) : Prop :=
  p = content.defaultBackgroundPath ∨ p = content.defaultLogoPath.

(** The file that [processAndMapAsset] builds from the blob fetched for the
    default at [path]. *)
Definition defaultFile (path : string) (blob : Blob) : File :=
  newFile blob (default "" (Js.pop (Js.split "/" path))) (blobType blob).

(** The key [k'] was generated between the runtimes [rt0] and [rt] for a
    default whose fetch resolved: it is an identifier drawn in between
    followed by [.png], and, identifiers being distinct, the asset map holds
    the fetched file under it. *)
Definition materialized (h : Host) (rt0 rt : Runtime) (k' : string) : Prop :=
  ∃ n i path blob,
    (uuids rt0 ≤ n < uuids rt)%nat
    ∧ k' = uuidv4 h n +:+ ".png"
    ∧ defaultPath path
    ∧ (length (fetched rt0) ≤ i < length (fetched rt))%nat
    ∧ fetch h i (getFetchableUrl h path) = Some blob
    ∧ (Inj (=) (=) (uuidv4 h) →
       assetMap rt !! k' = Some (defaultFile path blob)).

(** What holds of the cache and the runtime all along one [saveProject]
    that started from [rt0]: [P] are the placeholders met so far and [f] the
    references left empty so far. *)
Record SaveInv (h : Host) (rt0 : Runtime) (P : gset string) (f : nat)
    (st : gmap string string * Runtime) : Prop := mkSaveInv
  { inv_dom : dom st.1 ⊆ P;
    inv_uuids : uuids st.2 = (uuids rt0 + size st.1)%nat;
    inv_fetched :
      length (fetched st.2) = (length (fetched rt0) + size st.1 + f)%nat;
    inv_keys : ∀ k k', st.1 !! k = Some k' →
                 is_Some (assetMap st.2 !! k') ∧ k' ≠ ""
                 ∧ materialized h rt0 st.2 k';
    inv_assets : dom (assetMap rt0) ⊆ dom (assetMap st.2);
    inv_success : allFetchesSucceed h → P ⊆ dom st.1 ∧ f = 0%nat;
    inv_offline : (∀ n url, fetch h n url = None) → st.1 = ∅ }.

(** The default path that [rewriteState] hands to [processAndMapAsset] with
    a reference holding the key [k]: the background path for the two
    background references, the logo path for the two logo references. *)
Definition refPath (s : ProjectState) (k path : string) : Prop :=
  (k = titleBgKey s ∧ path = content.defaultBackgroundPath)
  ∨ (titleLogoKey s = Some k ∧ path = content.defaultLogoPath)
  ∨ (k = endBgKey s ∧ path = content.defaultBackgroundPath)
  ∨ (endLogoKey s = Some k ∧ path = content.defaultLogoPath).

(** The key [k'] was generated between the runtimes [rt0] and [rt] for the
    default at [path]: it is an identifier drawn in between followed by
    [.png], one of the fetches made in between asked for the URL of [path]
    and resolved, and, identifiers being distinct, the asset map holds under
    [k'] the file built from the blob of that fetch. *)
Definition materializedFrom (h : Host) (rt0 rt : Runtime) (path k' : string)
  : Prop :=
  ∃ n i blob,
    (uuids rt0 ≤ n < uuids rt)%nat
    ∧ k' = uuidv4 h n +:+ ".png"
    ∧ (length (fetched rt0) ≤ i)%nat
    ∧ fetched rt !! i = Some (getFetchableUrl h path)
    ∧ fetch h i (getFetchableUrl h path) = Some blob
    ∧ (Inj (=) (=) (uuidv4 h) →
       assetMap rt !! k' = Some (defaultFile path blob)).

(** Every key of the cache was generated for the default path of a
    reference, among those related by [R], that holds the placeholder. *)
Definition PathInv (h : Host) (rt0 : Runtime) (R : string → string → Prop)
    (st : gmap string string * Runtime) : Prop :=
  ∀ k k', st.1 !! k = Some k' →
    ∃ path, R k path ∧ defaultPath path ∧ materializedFrom h rt0 st.2 path k'.

(** A state with its four page references blanked: what [saveProject] does
    not rewrite. *)
Definition blankLogoKey (l : Logo.t string) : Logo.t string :=
  Logo.mk (Logo.src l) "" (Logo.position l) (Logo.size l).

Definition blankPageKeys (s : ProjectState) : ProjectState :=
  let tp := Project.titlePage s in
  let ep := Project.endPage s in
  Project.mk (Project.projectTitle s)
    (TitlePage.mk (TitlePage.header tp) (TitlePage.subHeader tp)
       (TitlePage.backgroundImage tp) "" (blankLogoKey <$> TitlePage.logo tp))
    (Project.panels s)
    (EndPage.mk (EndPage.backgroundImage ep) "" (blankLogoKey <$> EndPage.logo ep)
       (EndPage.text ep) (EndPage.showText ep) (EndPage.mirrorTitlePage ep))
    (Project.logoSizesLinked s)
    (Project.isLoading s).

(** The number of page references that a save left empty. *)
Definition failedRefs (s s' : ProjectState) : nat :=
  (emptied (Some (titleBgKey s)) (Some (titleBgKey s'))
   + emptied (titleLogoKey s) (titleLogoKey s')
   + emptied (Some (endBgKey s)) (Some (endBgKey s'))
   + emptied (endLogoKey s) (endLogoKey s'))%nat.

(** ** Vocabulary of the layout properties *)

(** An emphasis span: a body between brackets. *)
Definition spanOf (body : string) : string := "[" +:+ body +:+ "]".

(** A part that passes the [isAction] test is a span whose body has no
    closing bracket. *)
Definition partOK (p : string) : Prop :=
  isAction p = true →
  ∃ body, p = spanOf body ∧ Js.includes "]"%char body = false.

(** A text drawn in the emphasis style has no closing bracket. *)
Definition opOK (op : TextOp) : Prop :=
  opBold op = true → Js.includes "]"%char (opText op) = false.

(** ** The initial project ([src/store/project-store.ts]) *)

Definition defaultLogo : Logo.t string :=
  Logo.mk content.defaultLogoPath "default-logo" bottom_right size_M.

Definition defaultEndPageLogo : Logo.t string :=
  Logo.mk (Logo.src defaultLogo) (Logo.assetKey defaultLogo) bottom_center
    size_M.

Definition defaultBgImage : string := content.defaultBackgroundPath.
Definition defaultBgAssetKey : string := "default-background".

(** [createInitialPanels(count)], the ids being the identifiers that
    [uuidv4()] returns from its [n]-th call on. *)
Definition createInitialPanels (h : Host) (n count : nat)
  : list (Panel.t string) :=
  (λ i, Panel.mk (uuidv4 h i) "" "" "") <$> seq n count.

Definition initialState (h : Host) : ProjectState :=
  Project.mk "My Story Project"
    (TitlePage.mk "Client Name"
       ("Project Title" +:+ String "010"%char "Storyboard")
       defaultBgImage defaultBgAssetKey (Some defaultLogo))
    (createInitialPanels h 0 6)
    (EndPage.mk defaultBgImage defaultBgAssetKey (Some defaultEndPageLogo)
       "The End" true true)
    true
    false.

(** ** Store actions ([src/store/project-store.ts]) *)

Definition withLogoSize (size : LogoSize) (l : Logo.t string) : Logo.t string :=
  Logo.mk (Logo.src l) (Logo.assetKey l) (Logo.position l) size.

Definition withTitleLogo (logo : option (Logo.t string))
    (tp : TitlePage.t string) : TitlePage.t string :=
  TitlePage.mk (TitlePage.header tp) (TitlePage.subHeader tp)
    (TitlePage.backgroundImage tp) (TitlePage.backgroundImageAssetKey tp) logo.

Definition withEndLogo (logo : option (Logo.t string))
    (ep : EndPage.t string) : EndPage.t string :=
  EndPage.mk (EndPage.backgroundImage ep) (EndPage.backgroundImageAssetKey ep)
    logo (EndPage.text ep) (EndPage.showText ep) (EndPage.mirrorTitlePage ep).

Definition withPages (tp : TitlePage.t string) (ep : EndPage.t string)
    (state : ProjectState) : ProjectState :=
  Project.mk (Project.projectTitle state) tp (Project.panels state) ep
    (Project.logoSizesLinked state) (Project.isLoading state).

Definition withPanels (panels : list (Panel.t string)) (state : ProjectState)
  : ProjectState :=
  Project.mk (Project.projectTitle state) (Project.titlePage state) panels
    (Project.endPage state) (Project.logoSizesLinked state)
    (Project.isLoading state).

Definition setProjectTitle (title : string) (state : ProjectState)
  : ProjectState :=
  Project.mk title (Project.titlePage state) (Project.panels state)
    (Project.endPage state) (Project.logoSizesLinked state)
    (Project.isLoading state).

Definition setSharedBackgroundImage (src assetKey : string)
    (state : ProjectState) : ProjectState :=
  let tp := Project.titlePage state in
  let ep := Project.endPage state in
  withPages
    (TitlePage.mk (TitlePage.header tp) (TitlePage.subHeader tp) src assetKey
       (TitlePage.logo tp))
    (EndPage.mk src assetKey (EndPage.logo ep) (EndPage.text ep)
       (EndPage.showText ep) (EndPage.mirrorTitlePage ep))
    state.

Definition removeSharedBackgroundImage (state : ProjectState) : ProjectState :=
  setSharedBackgroundImage defaultBgImage defaultBgAssetKey state.

(** [setSharedLogo]; [logoFile] is the pair of [src] and [assetKey]. *)
Definition setSharedLogo (logoFile : option (string * string))
    (state : ProjectState) : ProjectState :=
  let tp := Project.titlePage state in
  let ep := Project.endPage state in
  match logoFile with
  | Some (src, assetKey) =>
      let titleSize :=
        match TitlePage.logo tp with
        | Some l => Logo.size l
        | None => size_M
        end in
      let newTitleLogo :=
        Logo.mk src assetKey
          (match TitlePage.logo tp with
           | Some l => Logo.position l
           | None => bottom_right
           end)
          titleSize in
      let newEndLogo :=
        Logo.mk src assetKey (endLogoPosition (EndPage.logo ep)) titleSize in
      withPages (withTitleLogo (Some newTitleLogo) tp)
        (withEndLogo (Some newEndLogo) ep) state
  | None => withPages (withTitleLogo None tp) (withEndLogo None ep) state
  end.

Definition removeSharedLogo (state : ProjectState) : ProjectState :=
  withPages (withTitleLogo (Some defaultLogo) (Project.titlePage state))
    (withEndLogo (Some defaultEndPageLogo) (Project.endPage state)) state.

Definition updateTitlePageLogo (logo : option (Logo.t string))
    (state : ProjectState) : ProjectState :=
  let ep := Project.endPage state in
  let ep :=
    match logo, EndPage.logo ep with
    | Some l, Some el =>
        if Project.logoSizesLinked state
        then withEndLogo (Some (withLogoSize (Logo.size l) el)) ep
        else ep
    | _, _ => ep
    end in
  withPages (withTitleLogo logo (Project.titlePage state)) ep state.

Definition updateEndPageLogo (logo : option (Logo.t string))
    (state : ProjectState) : ProjectState :=
  let tp := Project.titlePage state in
  let tp :=
    match logo, TitlePage.logo tp with
    | Some l, Some tl =>
        if Project.logoSizesLinked state
        then withTitleLogo (Some (withLogoSize (Logo.size l) tl)) tp
        else tp
    | _, _ => tp
    end in
  withPages tp (withEndLogo logo (Project.endPage state)) state.

Definition setEndPageBackgroundImage (src assetKey : string)
    (state : ProjectState) : ProjectState :=
  let ep := Project.endPage state in
  withPages (Project.titlePage state)
    (EndPage.mk src assetKey (EndPage.logo ep) (EndPage.text ep)
       (EndPage.showText ep) (EndPage.mirrorTitlePage ep))
    state.

Definition setEndPageMirror (mirror : bool) (state : ProjectState)
  : ProjectState :=
  let tp := Project.titlePage state in
  let ep := Project.endPage state in
  let ep :=
    if mirror then
      EndPage.mk (TitlePage.backgroundImage tp)
        (TitlePage.backgroundImageAssetKey tp)
        (match TitlePage.logo tp with
         | Some tl =>
             match EndPage.logo ep with
             | Some el =>
                 Some (Logo.mk (Logo.src tl) (Logo.assetKey tl)
                         (Logo.position el) (Logo.size el))
             | None =>
                 Some (Logo.mk (Logo.src tl) (Logo.assetKey tl) bottom_center
                         (Logo.size tl))
             end
         | None => None
         end)
        (EndPage.text ep) (EndPage.showText ep) mirror
    else
      EndPage.mk (EndPage.backgroundImage ep)
        (EndPage.backgroundImageAssetKey ep) (EndPage.logo ep)
        (EndPage.text ep) (EndPage.showText ep) mirror in
  withPages tp ep state.

Definition toggleLogoSizesLinked (linked : bool) (state : ProjectState)
  : ProjectState :=
  let tp := Project.titlePage state in
  let ep := Project.endPage state in
  let ep :=
    match TitlePage.logo tp, EndPage.logo ep with
    | Some tl, Some el =>
        if linked then withEndLogo (Some (withLogoSize (Logo.size tl) el)) ep
        else ep
    | _, _ => ep
    end in
  Project.mk (Project.projectTitle state) tp (Project.panels state) ep linked
    (Project.isLoading state).

(** [addPanel]; [id] is the identifier that [uuidv4()] returns. *)
Definition addPanel (id : string) (state : ProjectState) : ProjectState :=
  withPanels (Project.panels state ++ [Panel.mk id "" "" ""]) state.

Definition removePanel (id : string) (state : ProjectState) : ProjectState :=
  withPanels
    (filter (λ p, Panel.id p ≠ id) (Project.panels state)) state.

(** A [Partial<Omit<Panel, 'id'>>]: the keys that are present. *)
Record PanelPatch := mkPanelPatch
  { patchImage : option string;
    patchImageAssetKey : option string;
    patchScript : option string }.

(** [Object.assign(panel, newContent)] *)
Definition assignPanel (newContent : PanelPatch) (panel : Panel.t string)
  : Panel.t string :=
  Panel.mk (Panel.id panel)
    (default (Panel.image panel) (patchImage newContent))
    (default (Panel.imageAssetKey panel) (patchImageAssetKey newContent))
    (default (Panel.script panel) (patchScript newContent)).

(** The update of the panel that [panels.find((p) => p.id === id)] returns,
    if there is one. *)
Fixpoint updateFound (id : string) (f : Panel.t string → Panel.t string)
    (panels : list (Panel.t string)) : list (Panel.t string) :=
  match panels with
  | [] => []
  | p :: rest =>
      if String.eqb (Panel.id p) id then f p :: rest
      else p :: updateFound id f rest
  end.

Definition updatePanel (id : string) (newContent : PanelPatch)
    (state : ProjectState) : ProjectState :=
  withPanels (updateFound id (assignPanel newContent) (Project.panels state))
    state.

Definition reorderPanels (panels : list (Panel.t string))
    (state : ProjectState) : ProjectState :=
  withPanels panels state.

Definition setPanelImage (id src assetKey : string) (state : ProjectState)
  : ProjectState :=
  withPanels
    (updateFound id
       (λ panel, Panel.mk (Panel.id panel) src assetKey (Panel.script panel))
       (Project.panels state))
    state.

Definition setLoading (isLoading : bool) (state : ProjectState) : ProjectState :=
  Project.mk (Project.projectTitle state) (Project.titlePage state)
    (Project.panels state) (Project.endPage state)
    (Project.logoSizesLinked state) isLoading.

(** [resetProject]; [confirmed] is the answer of [window.confirm] and
    [initial] the [initialState] of the module. *)
Definition resetProject (confirmed : bool) (initial state : ProjectState)
  : ProjectState :=
  if confirmed then
    Project.mk (Project.projectTitle initial) (Project.titlePage initial)
      (Project.panels initial) (Project.endPage initial)
      (Project.logoSizesLinked initial) (Project.isLoading state)
  else state.

(** A field of the title page together with the value written to it: the
    two arguments of [setTitlePageField]. *)
Inductive TitlePageField :=
| TitleHeader (value : string)
| TitleSubHeader (value : string)
| TitleBackgroundImage (value : string)
| TitleBackgroundImageAssetKey (value : string)
| TitleLogo (value : option (Logo.t string)).

(** [state.titlePage[field] = value] *)
Definition setTitlePageField (field : TitlePageField) (state : ProjectState)
  : ProjectState :=
  let tp := Project.titlePage state in
  let tp :=
    match field with
    | TitleHeader value =>
        TitlePage.mk value (TitlePage.subHeader tp)
          (TitlePage.backgroundImage tp) (TitlePage.backgroundImageAssetKey tp)
          (TitlePage.logo tp)
    | TitleSubHeader value =>
        TitlePage.mk (TitlePage.header tp) value
          (TitlePage.backgroundImage tp) (TitlePage.backgroundImageAssetKey tp)
          (TitlePage.logo tp)
    | TitleBackgroundImage value =>
        TitlePage.mk (TitlePage.header tp) (TitlePage.subHeader tp) value
          (TitlePage.backgroundImageAssetKey tp) (TitlePage.logo tp)
    | TitleBackgroundImageAssetKey value =>
        TitlePage.mk (TitlePage.header tp) (TitlePage.subHeader tp)
          (TitlePage.backgroundImage tp) value (TitlePage.logo tp)
    | TitleLogo value => withTitleLogo value tp
    end in
  withPages tp (Project.endPage state) state.

(** The two arguments of [setEndPageField]. *)
Inductive EndPageField :=
| EndBackgroundImage (value : string)
| EndBackgroundImageAssetKey (value : string)
| EndLogo (value : option (Logo.t string))
| EndText (value : string)
| EndShowText (value : bool)
| EndMirrorTitlePage (value : bool).

(** [state.endPage[field] = value] *)
Definition setEndPageField (field : EndPageField) (state : ProjectState)
  : ProjectState :=
  let ep := Project.endPage state in
  let ep :=
    match field with
    | EndBackgroundImage value =>
        EndPage.mk value (EndPage.backgroundImageAssetKey ep) (EndPage.logo ep)
          (EndPage.text ep) (EndPage.showText ep) (EndPage.mirrorTitlePage ep)
    | EndBackgroundImageAssetKey value =>
        EndPage.mk (EndPage.backgroundImage ep) value (EndPage.logo ep)
          (EndPage.text ep) (EndPage.showText ep) (EndPage.mirrorTitlePage ep)
    | EndLogo value => withEndLogo value ep
    | EndText value =>
        EndPage.mk (EndPage.backgroundImage ep)
          (EndPage.backgroundImageAssetKey ep) (EndPage.logo ep) value
          (EndPage.showText ep) (EndPage.mirrorTitlePage ep)
    | EndShowText value =>
        EndPage.mk (EndPage.backgroundImage ep)
          (EndPage.backgroundImageAssetKey ep) (EndPage.logo ep)
          (EndPage.text ep) value (EndPage.mirrorTitlePage ep)
    | EndMirrorTitlePage value =>
        EndPage.mk (EndPage.backgroundImage ep)
          (EndPage.backgroundImageAssetKey ep) (EndPage.logo ep)
          (EndPage.text ep) (EndPage.showText ep) value
    end in
  withPages (Project.titlePage state) ep state.

(** The actions of the store (its [Actions] interface), as the editor and
    the project service dispatch them; the action [loadProject] is
    [loadProject] above. *)
Inductive Action :=
| SetProjectTitle (title : string)
| LoadProject (project : Project.t string unit)
| SetTitlePageField (field : TitlePageField)
| SetEndPageField (field : EndPageField)
| SetSharedBackgroundImage (src assetKey : string)
| RemoveSharedBackgroundImage
| SetSharedLogo (logoFile : option (string * string))
| RemoveSharedLogo
| UpdateTitlePageLogo (logo : option (Logo.t string))
| UpdateEndPageLogo (logo : option (Logo.t string))
| SetEndPageBackgroundImage (src assetKey : string)
| SetEndPageMirror (mirror : bool)
| ToggleLogoSizesLinked (linked : bool)
| AddPanel (id : string)
| RemovePanel (id : string)
| UpdatePanel (id : string) (newContent : PanelPatch)
| ReorderPanels (panels : list (Panel.t string))
| SetPanelImage (id src assetKey : string)
| SetLoading (isLoading : bool)
| ResetProject (confirmed : bool).

Definition dispatch (h : Host) (a : Action) (state : ProjectState)
  : ProjectState :=
  match a with
  | SetProjectTitle title => setProjectTitle title state
  | LoadProject project => loadProject state project
  | SetTitlePageField field => setTitlePageField field state
  | SetEndPageField field => setEndPageField field state
  | SetSharedBackgroundImage src assetKey =>
      setSharedBackgroundImage src assetKey state
  | RemoveSharedBackgroundImage => removeSharedBackgroundImage state
  | SetSharedLogo logoFile => setSharedLogo logoFile state
  | RemoveSharedLogo => removeSharedLogo state
  | UpdateTitlePageLogo logo => updateTitlePageLogo logo state
  | UpdateEndPageLogo logo => updateEndPageLogo logo state
  | SetEndPageBackgroundImage src assetKey =>
      setEndPageBackgroundImage src assetKey state
  | SetEndPageMirror mirror => setEndPageMirror mirror state
  | ToggleLogoSizesLinked linked => toggleLogoSizesLinked linked state
  | AddPanel id => addPanel id state
  | RemovePanel id => removePanel id state
  | UpdatePanel id newContent => updatePanel id newContent state
  | ReorderPanels panels => reorderPanels panels state
  | SetPanelImage id src assetKey => setPanelImage id src assetKey state
  | SetLoading isLoading => setLoading isLoading state
  | ResetProject confirmed => resetProject confirmed (initialState h) state
  end.

(** ** Loading a file ([src/lib/pdf-service.ts]) *)

(** The file that the user picks for a load.  Reading it can fail; what is
    read can be something that [JSZip.loadAsync] rejects; in an archive,
    [project.json] is absent or holds a project state ([Archive]), or it is
    there and [JSON.parse] throws on its text or [hydrateState] on its value
    ([Unreadable], with the file entries of the [assets] folder and the
    number of object URLs that [hydrateState] made before it threw).  A
    [project.json] that [hydrateState] accepts is taken to hold a project
    state, as the type annotation of the code has it. *)
Inductive Package :=
| FileError
| NotAnArchive
| Archive (zip : Zip)
| Unreadable (assetsFolder : gmap string (list Byte.byte)) (urlsMade : nat).

(** [setLoading] on the store of the application. *)
Definition appSetLoading (isLoading : bool) (app : App) : App :=
  mkApp (appAssets app) (setLoading isLoading (appStore app)) (appUrls app)
    (appAlerts app).

(** [alert(message)] *)
Definition appAlert (message : string) (app : App) : App :=
  mkApp (appAssets app) (appStore app) (appUrls app)
    (appAlerts app ++ [message]).

Module projectService.

(** The message of the [catch] clause. *)
Definition loadFailed : string := "Failed to load project file.".

(** [loadProject] of the project service, from the choice of a file on:
    [setLoading(true)], then the file is read and handed to
    [processProjectFile], whose exception, if it throws, is caught and
    answered with an alert, and in the end [setLoading(false)].  What
    [processProjectFile] did before it threw stays done: [clearAssets] once
    it has been entered, the asset loop once the archive has been opened and
    [project.json] found. *)
Definition loadProject (h : Host) (file : Package) (app : App) : App :=
  let app := appSetLoading true app in
  let app :=
    match file with
    | FileError => appAlert loadFailed app
    | NotAnArchive =>
        appAlert loadFailed
          (mkApp (clearAssets (appAssets app)) (appStore app) (appUrls app)
             (appAlerts app))
    | Archive zip => processProjectFile h zip app
    | Unreadable folder urlsMade =>
        appAlert loadFailed
          (mkApp (loadAssets h folder (clearAssets (appAssets app)))
             (appStore app) (appUrls app + urlsMade) (appAlerts app))
    end in
  appSetLoading false app.

End projectService.

(** ** Editor handlers *)

(** The [onChange] of the script text area
    ([src/components/canvas/Panel.tsx]). *)
Definition onScriptChange (id value : string) (state : ProjectState)
  : ProjectState :=
  let lines := Js.split "010"%char value in
  if (length lines <=? 6)%nat
  then updatePanel id (mkPanelPatch None None (Some value)) state
  else state.

(** [handleFileChange] of [ImageUpload] with the [onUpload] of a panel
    ([src/components/ui/ImageUpload.tsx], [src/components/canvas/Panel.tsx]):
    the chosen file is registered, an object URL is made for it and both go
    to [setPanelImage]. *)
Definition uploadPanelImage (h : Host) (id : string) (file : File)
    (rt : Runtime) (urls : nat) (state : ProjectState)
  : Runtime * nat * ProjectState :=
  let '(assetKey, assets) :=
    addAsset (uuidv4 h (uuids rt)) file (assetMap rt) in
  let src := createObjectURL h urls file in
  (mkRuntime assets (S (uuids rt)) (fetched rt), S urls,
   setPanelImage id src assetKey state).

(** Successive [addAsset] calls, one per file, the first drawing the [n]-th
    identifier: the keys returned, in order, and the resulting map. *)
Fixpoint addAssets (h : Host) (n : nat) (files : list File)
    (assetMap : AssetMap) : list string * AssetMap :=
  match files with
  | [] => ([], assetMap)
  | file :: rest =>
      let '(key, assetMap) := addAsset (uuidv4 h n) file assetMap in
      let '(keys, assetMap) := addAssets h (S n) rest assetMap in
      (key :: keys, assetMap)
  end.

(** ** Logos on a page ([src/lib/pdf-helpers.ts]) *)

(** [getPDFLogoSize]: [maxWidth] and [maxHeight]. *)
Definition getPDFLogoSize (size : LogoSize) : Q * Q :=
  match size with
  | size_S => (85, 115)%Q
  | size_M => (171, 230)%Q
  | size_L => (256, 346)%Q
  | size_XL => (341, 461)%Q
  end.

Definition getPDFLogoPosition (position : LogoPosition)
    (w h pageWidth pageHeight padding : Q) : Q * Q :=
  match position with
  | top_left => (padding, padding)
  | top_center => ((pageWidth - w) / 2, padding)%Q
  | top_right => (pageWidth - w - padding, padding)%Q
  | center_left => (padding, (pageHeight - h) / 2)%Q
  | center => ((pageWidth - w) / 2, (pageHeight - h) / 2)%Q
  | center_right => (pageWidth - w - padding, (pageHeight - h) / 2)%Q
  | bottom_left => (padding, pageHeight - h - padding)%Q
  | bottom_center => ((pageWidth - w) / 2, pageHeight - h - padding)%Q
  | bottom_right => (pageWidth - w - padding, pageHeight - h - padding)%Q
  end.

(** The rectangle [drawLogo] computes for an image of the given natural
    size. *)
Definition logoPlacement (size : LogoSize) (position : LogoPosition)
    (naturalWidth naturalHeight pageWidth pageHeight margin : Q) : Placement :=
  let '(maxWidth, maxHeight) := getPDFLogoSize size in
  let ratio := (naturalWidth / naturalHeight)%Q in
  let w := maxWidth in
  let h := (w / ratio)%Q in
  let '(w, h) :=
    if Qgtb h maxHeight then ((maxHeight * ratio)%Q, maxHeight) else (w, h) in
  let '(x, y) :=
    getPDFLogoPosition position w h pageWidth pageHeight (margin / 2)%Q in
  mkPlacement x y w h.

(** [drawLogo]: the rectangle of the [pdf.addImage] it makes, [None] when
    the image does not load and nothing is drawn. *)
Definition drawLogo (pdf : Pdf) (logo : Logo.t string)
    (pageWidth pageHeight margin : Q) : option Placement :=
  match loadImage pdf (Logo.src logo) with
  | None => None
  | Some (naturalWidth, naturalHeight) =>
      Some (logoPlacement (Logo.size logo) (Logo.position logo)
              naturalWidth naturalHeight pageWidth pageHeight margin)
  end.

(** The logo that [drawTitlePage] and [drawEndPage] draw. *)
Definition drawPageLogo (pdf : Pdf) (logo : option (Logo.t string))
  : option Placement :=
  match logo with
  | Some l => drawLogo pdf l PDF_WIDTH PDF_HEIGHT PAGE_MARGIN
  | None => None
  end.

(** ** File names ([src/lib/pdf-service.ts]) *)

Definition isDigit (c : ascii) : bool :=
  let n := nat_of_ascii c in (48 <=? n)%nat && (n <=? 57)%nat.

Definition isLower (c : ascii) : bool :=
  let n := nat_of_ascii c in (97 <=? n)%nat && (n <=? 122)%nat.

Definition isUpper (c : ascii) : bool :=
  let n := nat_of_ascii c in (65 <=? n)%nat && (n <=? 90)%nat.

(** A character of a JS string that starts with the byte [c] in UTF-8: the
    number of UTF-16 code units it has in the JS string (two beyond the basic
    plane, where the encoding has four bytes) and the number of bytes that
    continue its encoding. *)
Definition utf8Units (c : ascii) : nat * nat :=
  let n := nat_of_ascii c in
  if (n <? 192)%nat then (1, 0)%nat
  else if (n <? 224)%nat then (1, 1)%nat
  else if (n <? 240)%nat then (1, 2)%nat
  else (2, 3)%nat.

Fixpoint underscores (n : nat) (s : string) : string :=
  match n with
  | O => s
  | S n => String "_" (underscores n s)
  end.

(** The replacement from a byte on; [skip] bytes continue a character that
    has been replaced. *)
Fixpoint replaceFrom (skip : nat) (s : string) : string :=
  match s with
  | EmptyString => EmptyString
  | String c s' =>
      match skip with
      | S skip => replaceFrom skip s'
      | O =>
          if isDigit c || isLower c || isUpper c
          then String c (replaceFrom 0 s')
          else let '(units, continuation) := utf8Units c in
               underscores units (replaceFrom continuation s')
      end
  end.

(** [s.replace(/[^a-z0-9]/gi, '_')]: the pattern has no [u] flag, so it is
    matched against every UTF-16 code unit of the string, and each code unit
    other than an ASCII letter or digit becomes an underscore. *)
Definition replaceNonAlnum (s : string) : string := replaceFrom 0 s.

(** [s.toLowerCase()] on the letters [A]..[Z]; the strings it is applied to
    here hold ASCII letters, digits and underscores only. *)
Fixpoint toLowerCase (s : string) : string :=
  match s with
  | EmptyString => EmptyString
  | String c s' =>
      String (if isUpper c then ascii_of_nat (nat_of_ascii c + 32) else c)
        (toLowerCase s')
  end.

(** The default name of an exported PDF; [date] is the text of
    [format(new Date(), 'yyMMdd')]. *)
Definition pdfFilename (projectTitle date : string) : string :=
  Js.or_else (toLowerCase (replaceNonAlnum projectTitle)) "storyboard"
  +:+ "-" +:+ date +:+ ".pdf".

(** The default name of a saved project; [date] is the text of
    [format(new Date(), 'yyMMdd-HHmm')]. *)
Definition projectFilename (projectTitle date : string) : string :=
  let projectTitleForFile := toLowerCase (replaceNonAlnum projectTitle) in
  Js.or_else projectTitleForFile "story" +:+ "-" +:+ date +:+ ".tekastory".

(** ** Vocabulary of the editor properties *)

(** The title page logo and the end page logo, where both exist, have the
    same size. *)
Definition logoSizesAgree {L} (s : Project.t string L) : Prop :=
  ∀ tl el,
    TitlePage.logo (Project.titlePage s) = Some tl →
    EndPage.logo (Project.endPage s) = Some el →
    Logo.size tl = Logo.size el.

Definition linkedInv {L} (s : Project.t string L) : Prop :=
  Project.logoSizesLinked s = true → logoSizesAgree s.

(** An action that keeps the logo sizes in step.  The two generic field
    setters write a logo without looking at [logoSizesLinked] (the editors
    call them for texts and flags only), and [loadProject] installs whatever
    the project it is given holds: the first are left out, the second is
    asked for a project whose sizes are in step. *)
Definition keepsLinked (a : Action) : Prop :=
  match a with
  | SetTitlePageField (TitleLogo _) | SetEndPageField (EndLogo _) => False
  | LoadProject project => linkedInv project
  | _ => True
  end.

(** A sequence of actions, dispatched in order. *)
Definition run (h : Host) (actions : list Action) (state : ProjectState)
  : ProjectState :=
  foldl (λ s a, dispatch h a s) state actions.

Definition panelIds (s : ProjectState) : list string :=
  Panel.id <$> Project.panels s.

(** An action that keeps the panel identifiers distinct: [addPanel] draws an
    identifier that no panel has, [reorderPanels] receives the panels it was
    shown, in another order, and [loadProject] a project whose panels have
    distinct identifiers. *)
Definition keepsIds (s : ProjectState) (a : Action) : Prop :=
  match a with
  | LoadProject project => NoDup (Panel.id <$> Project.panels project)
  | AddPanel id => id ∉ panelIds s
  | ReorderPanels panels => panels ≡ₚ Project.panels s
  | _ => True
  end.

(** A script of at most six lines, the ones the script editor accepts. *)
Definition sixLines (script : string) : Prop :=
  (length (Js.split "010"%char script) ≤ 6)%nat.

(** ** Vocabulary of the layout bounds *)

(** The baselines of a script box: the first one is [firstY] and each next
    one [LINE_HEIGHT] below the last, the sum being that of doubles. *)
Fixpoint baseline (box : ScriptBox) (k : nat) : Q :=
  match k with
  | O => firstY box
  | S k => Float64.add (baseline box k) LINE_HEIGHT
  end.

(** A [pdf.text] call on a baseline of the box that is not below [yMax]. *)
Definition opOnLine (box : ScriptBox) (op : TextOp) : Prop :=
  (∃ k : nat, opY op == baseline box k)%Q ∧ (opY op <= yMax box)%Q.

Definition cursorOnLine (box : ScriptBox) (c : Cursor) : Prop :=
  (∃ k : nat, cursorY c == baseline box k)%Q
  ∧ Forall (opOnLine box) (drawn c).

(** A box with the first baseline and the lower bound of the script box
    of a cell whose top is at [y]. *)
Definition rowBox (y : Q) : ScriptBox :=
  mkScriptBox 0 0 (y + 913 / 4) (y + 314).

(** The script box of the [i]-th cell of a panel page. *)
Definition cellScriptBox (i : nat) : ScriptBox :=
  scriptBoxOf (PAGE_MARGIN + Qnat (i mod cols) * (panelWidth + colGap))
    (PAGE_MARGIN + Qnat (i / cols) * (panelHeight + rowGap))
    panelWidth panelHeight.

(** Two boxes with the same edges. *)
Definition boxEq (a b : ScriptBox) : bool :=
  Qeq_bool (lineStart a) (lineStart b) && Qeq_bool (lineEnd a) (lineEnd b)
  && Qeq_bool (firstY a) (firstY b) && Qeq_bool (yMax a) (yMax b).

(** A [pdf.text] call that starts at or right of [lineStart] and that starts
    a line or ends within [lineEnd], its end being the sum, as doubles, of
    its start and its width. *)
Definition opInBox (getTextWidth : bool → string → Q) (box : ScriptBox)
    (op : TextOp) : Prop :=
  (lineStart box <= opX op)%Q
  ∧ ((opX op == lineStart box)%Q
     ∨ (Float64.add (opX op) (getTextWidth (opBold op) (opText op))
        <= lineEnd box)%Q).

Definition cursorInBox (getTextWidth : bool → string → Q) (box : ScriptBox)
    (c : Cursor) : Prop :=
  (lineStart box <= cursorX c)%Q
  ∧ Forall (opInBox getTextWidth box) (drawn c).

(** ** Vocabulary of the file names *)

(** A character of [[a-z0-9_]]. *)
Definition safeChar (c : ascii) : bool :=
  isDigit c || isLower c || Ascii.eqb c "_"%char.

Fixpoint allChars (P : ascii → bool) (s : string) : bool :=
  match s with
  | EmptyString => true
  | String c s' => P c && allChars P s'
  end.

(** [s.length]: the number of UTF-16 code units of the string. *)
Fixpoint utf16LengthFrom (skip : nat) (s : string) : nat :=
  match s with
  | EmptyString => 0
  | String c s' =>
      match skip with
      | S skip => utf16LengthFrom skip s'
      | O => let '(units, continuation) := utf8Units c in
             (units + utf16LengthFrom continuation s')%nat
      end
  end.

Definition utf16Length (s : string) : nat := utf16LengthFrom 0 s.

Definition isAscii (c : ascii) : bool := (nat_of_ascii c <? 128)%nat.

(** The stem both file names are built from. *)
Definition sanitizeTitle (projectTitle : string) : string :=
  toLowerCase (replaceNonAlnum projectTitle).

(** ** Vocabulary of loading and of the asset store *)

(** The display source that a load gives to a reference with the key
    [assetKey]: the key itself when it is empty or a bundled image path, an
    object URL made between the counts [lo] and [hi] for the stored file
    when the store has one, and the empty string otherwise. *)
Definition shows (h : Host) (assets : AssetMap) (lo hi : nat)
    (assetKey src : string) : Prop :=
  if Js.falsy assetKey || Js.startsWith "/images/" assetKey
  then src = assetKey
  else match getAssetFile assetKey assets with
       | Some file =>
           ∃ n, (lo ≤ n < hi)%nat ∧ src = createObjectURL h n file
       | None => src = ""
       end.

Definition showsLogo {D} (h : Host) (assets : AssetMap) (lo hi : nat)
    (logo : option (Logo.t D)) (logo' : option (Logo.t string)) : Prop :=
  match logo, logo' with
  | Some l, Some l' =>
      logoData l' = logoData l
      ∧ shows h assets lo hi (Logo.assetKey l) (Logo.src l')
  | None, None => True
  | _, _ => False
  end.

Definition showsPanel {D} (h : Host) (assets : AssetMap) (lo hi : nat)
    (p : Panel.t D) (p' : Panel.t string) : Prop :=
  panelData p' = panelData p
  ∧ shows h assets lo hi (Panel.imageAssetKey p) (Panel.image p').

(** What a save may do to the asset store between the runtimes [rt] and
    [rt']: it draws identifiers, registers a file under each of them
    followed by [.png], and leaves every other key as it was. *)
Record StoreFrame (h : Host) (rt rt' : Runtime) : Prop := mkStoreFrame
  { frame_uuids : (uuids rt ≤ uuids rt')%nat;
    frame_keep : ∀ key,
      (∀ n, (uuids rt ≤ n < uuids rt')%nat → key ≠ uuidv4 h n +:+ ".png") →
      assetMap rt' !! key = assetMap rt !! key;
    frame_new : ∀ n, (uuids rt ≤ n < uuids rt')%nat →
      is_Some (assetMap rt' !! (uuidv4 h n +:+ ".png"));
    frame_dom : dom (assetMap rt) ⊆ dom (assetMap rt') }.

(** The four page references of a state or of a document. *)
Definition pageRefs {D L} (s : Project.t D L) : list (option string) :=
  [Some (TitlePage.backgroundImageAssetKey (Project.titlePage s));
   Logo.assetKey <$> TitlePage.logo (Project.titlePage s);
   Some (EndPage.backgroundImageAssetKey (Project.endPage s));
   Logo.assetKey <$> EndPage.logo (Project.endPage s)].

(** ** Colours ([src/config/theme.ts], [src/lib/pdf-helpers.ts]) *)

(** The colours of the theme that the PDF code reads. *)
Module theme.
Definition text : string := "#1E293B".
End theme.

(** The value of a character of [[a-f\d]] under the [i] flag. *)
Definition hexDigit (c : ascii) : option nat :=
  let n := nat_of_ascii c in
  if isDigit c then Some (n - 48)%nat
  else if (97 <=? n)%nat && (n <=? 102)%nat then Some (n - 87)%nat
  else if (65 <=? n)%nat && (n <=? 70)%nat then Some (n - 55)%nat
  else None.

(** [parseInt(s, 16)] on a group of two such characters. *)
Definition hexPair (a b : ascii) : option nat :=
  match hexDigit a, hexDigit b with
  | Some x, Some y => Some (16 * x + y)%nat
  | _, _ => None
  end.

(** [hexToRgb]: the match of [/^#?([a-f\d]{2})([a-f\d]{2})([a-f\d]{2})$/i]
    and the three components [r], [g], [b]; [None] is [null]. *)
Definition hexToRgb (hex : string) : option (nat * nat * nat) :=
  let digits :=
    match hex with
    | String c s => if Ascii.eqb c "#"%char then s else hex
    | EmptyString => hex
    end in
  match digits with
  | String a (String b (String c (String d (String e (String f EmptyString))))) =>
      match hexPair a b, hexPair c d, hexPair e f with
      | Some r, Some g, Some b => Some (r, g, b)
      | _, _, _ => None
      end
  | _ => None
  end.


(** ** Further editor handlers *)

(** [panels.findIndex((p) => p.id === id)]; [None] stands for [-1]. *)
Definition findIndex (id : string) (panels : list (Panel.t string))
  : option nat :=
  fst <$> list_find (λ p, Panel.id p = id) panels.

(** The index at which [splice(start, ...)] operates on an array of length
    [len]: a [start] beyond the end is the end, and [-1] is the last
    index. *)
Definition spliceStart (start : option nat) (len : nat) : nat :=
  match start with
  | Some i => i `min` len
  | None => len - 1
  end.

(** [handleDragEnd] of the canvas
    ([src/components/canvas/StoryboardCanvas.tsx]): [activeId] is
    [event.active.id] and [over] is [event.over?.id].  The result is [None]
    when the moved panel is [undefined], which needs an empty list of
    panels. *)
Definition handleDragEnd (activeId : string) (over : option string)
    (state : ProjectState) : option ProjectState :=
  match over with
  | Some overId =>
      if bool_decide (activeId ≠ overId) then
        let panels := Project.panels state in
        let oldIndex := findIndex activeId panels in
        let newIndex := findIndex overId panels in
        let newPanels := panels in
        let start := spliceStart oldIndex (length newPanels) in
        match newPanels !! start with
        | Some movedPanel =>
            let newPanels := delete start newPanels in
            let start := spliceStart newIndex (length newPanels) in
            Some (reorderPanels
                    (take start newPanels ++ movedPanel :: drop start newPanels)
                    state)
        | None => None
        end
      else Some state
  | None => Some state
  end.

(** [handleBgFileChange] and [handleLogoFileChange] of the title and end
    page editor, for a chosen file. *)
Definition handleBgFileChange (h : Host) (file : File) (rt : Runtime)
    (urls : nat) (state : ProjectState) : Runtime * nat * ProjectState :=
  let '(assetKey, assets) :=
    addAsset (uuidv4 h (uuids rt)) file (assetMap rt) in
  let src := createObjectURL h urls file in
  (mkRuntime assets (S (uuids rt)) (fetched rt), S urls,
   setSharedBackgroundImage src assetKey state).

Definition handleLogoFileChange (h : Host) (file : File) (rt : Runtime)
    (urls : nat) (state : ProjectState) : Runtime * nat * ProjectState :=
  let '(assetKey, assets) :=
    addAsset (uuidv4 h (uuids rt)) file (assetMap rt) in
  let src := createObjectURL h urls file in
  (mkRuntime assets (S (uuids rt)) (fetched rt), S urls,
   setSharedLogo (Some (src, assetKey)) state).

(** ** Title and end page ([src/lib/pdf-service.ts]) *)

(** The format named to [pdf.addImage]. *)
Inductive ImageFormat := PNG | JPEG.

(** A call [pdf.addImage(data, format, x, y, w, h, undefined, 'FAST')]:
    the display source whose data [convertFileToBase64] reads, the format
    and the rectangle.  The data of an image that loads is taken to be
    readable. *)
Record ImageDraw := mkImageDraw
  { imgSrc : string; imgFormat : ImageFormat; imgPlace : Placement }.

(** [getAssetFile(assetKey)?.type === 'image/png'] *)
Definition isPng (assets : AssetMap) (assetKey : string) : bool :=
  match getAssetFile assetKey assets with
  | Some file => String.eqb (fileType file) "image/png"
  | None => false
  end.

(** The format of a background: that of the asset under the page's own
    [backgroundImageAssetKey]. *)
Definition backgroundFormat (assets : AssetMap) (backgroundImageAssetKey : string)
  : ImageFormat :=
  if isPng assets backgroundImageAssetKey then PNG else JPEG.

(** The format of a logo in [drawLogo]. *)
Definition logoFormat (assets : AssetMap) (logo : Logo.t string)
  : ImageFormat :=
  if isPng assets (Logo.assetKey logo)
     || String.eqb (Logo.assetKey logo) "default-logo"
  then PNG else JPEG.

(** The background image of [drawTitlePage] and [drawEndPage]: the
    [pdf.addImage] they make, [None] when the page has no background or the
    image does not load. *)
Definition drawBackground (pdf : Pdf) (assets : AssetMap)
    (backgroundImage backgroundImageAssetKey : string) : option ImageDraw :=
  if Js.falsy backgroundImage then None
  else match loadImage pdf backgroundImage with
       | Some (naturalWidth, naturalHeight) =>
           Some (mkImageDraw backgroundImage
                   (backgroundFormat assets backgroundImageAssetKey)
                   (pageBackgroundFit naturalWidth naturalHeight))
       | None => None
       end.

(** The [pdf.addImage] of [drawLogo] on a page. *)
Definition drawLogoImage (pdf : Pdf) (assets : AssetMap)
    (logo : option (Logo.t string)) : option ImageDraw :=
  match logo with
  | Some l =>
      mkImageDraw (Logo.src l) (logoFormat assets l)
        <$> drawLogo pdf l PDF_WIDTH PDF_HEIGHT PAGE_MARGIN
  | None => None
  end.

(** The images of a page: background and logo. *)
Record PageImages := mkPageImages
  { pageBackground : option ImageDraw;
    pageLogo : option ImageDraw }.

(** The images of [drawEndPage], which draws the overlay between them. *)
Definition drawEndPage (pdf : Pdf) (assets : AssetMap)
    (page : EndPage.t string) : PageImages :=
  mkPageImages
    (drawBackground pdf assets (EndPage.backgroundImage page)
       (EndPage.backgroundImageAssetKey page))
    (drawLogoImage pdf assets (EndPage.logo page)).

(** The images of [drawTitlePage], which draws the overlay, the header and
    the sub-header between them. *)
Definition titlePageImages (pdf : Pdf) (assets : AssetMap)
    (page : TitlePage.t string) : PageImages :=
  mkPageImages
    (drawBackground pdf assets (TitlePage.backgroundImage page)
       (TitlePage.backgroundImageAssetKey page))
    (drawLogoImage pdf assets (TitlePage.logo page)).

(** The same image drawn under another format. *)
Definition withFormat (format : ImageFormat) (img : ImageDraw) : ImageDraw :=
  mkImageDraw (imgSrc img) format (imgPlace img).

(** ** Sample hosts and states *)

Definition sampleUuid (n : nat) : string :=
  String (ascii_of_nat (97 + n)) "0000000-0000-4000-8000-000000000000".

Definition sampleBlob : Blob := mkBlob "image/png" [Byte.x89; Byte.x50].

Definition sampleHost : Host :=
  mkHost sampleUuid (λ _ _, Some sampleBlob)
    (λ n _, "blob:" +:+ sampleUuid n) false "http:" (λ p, "asset://" +:+ p) "".

(** A host on which every [fetch] rejects. *)
Definition offlineHost : Host :=
  mkHost sampleUuid (λ _ _, None)
    (λ n _, "blob:" +:+ sampleUuid n) false "http:" (λ p, "asset://" +:+ p) "".

(** A host whose first [fetch] rejects and whose later ones resolve. *)
Definition flakyHost : Host :=
  mkHost sampleUuid (λ n _, match n with O => None | S _ => Some sampleBlob end)
    (λ n _, "blob:" +:+ sampleUuid n) false "http:" (λ p, "asset://" +:+ p) "".

Definition emptyRuntime : Runtime := mkRuntime ∅ 0 [].

(** A host whose identifiers are pairwise distinct. *)
Fixpoint tallyUuid (n : nat) : string :=
  match n with
  | O => "u"
  | S n => String "i" (tallyUuid n)
  end.

Definition tallyHost : Host :=
  mkHost tallyUuid (λ _ _, Some sampleBlob)
    (λ n _, "blob:" +:+ tallyUuid n) false "http:" (λ p, "asset://" +:+ p) "".

(** The key of the first asset registered on [sampleHost]. *)
Definition sampleKey : string := sampleUuid 0 +:+ ".png".

(** Every glyph, the space included, 40 units wide. *)
Definition sampleWidth (bold : bool) (s : string) : Q :=
  Qnat (String.length s) * 40.

Definition samplePdf : Pdf := mkPdf sampleWidth (λ _, Some (1920, 1080)%Q).

(** A measure with kerning: the run "aaaa bbbb" is wider than its pieces
    taken one after the other. *)
Definition kernedWidth (bold : bool) (s : string) : Q :=
  if String.eqb s "aaaa bbbb" then 300 else 100.

(** A box 250 wide with room for many lines. *)
Definition wideBox : ScriptBox := mkScriptBox 0 250 10 100.

(** A box 300 wide with room for one baseline. *)
Definition lowBox : ScriptBox := mkScriptBox 0 300 10 20.

(** A measure that gives "a" the double nearest to 0.2 and any other text
    the double nearest to 299.8, and a box from 20 to 320. *)
Definition edgeWidth (bold : bool) (s : string) : Q :=
  if String.eqb s "a" then Float64.round (1 # 5) else Float64.round (1499 # 5).

Definition edgeBox : ScriptBox := mkScriptBox 20 320 10 100.

(** The script box of the first cell of a panel page. *)
Definition panelScriptBox : ScriptBox :=
  scriptBoxOf PAGE_MARGIN PAGE_MARGIN panelWidth panelHeight.

(** The initial project without an end page logo. *)
Definition noEndLogoState : ProjectState :=
  let s := initialState sampleHost in
  Project.mk (Project.projectTitle s) (Project.titlePage s) (Project.panels s)
    (EndPage.mk defaultBgImage defaultBgAssetKey None "The End" true true)
    true false.

(** The initial project with thirteen panels. *)
Definition thirteenPanelState : ProjectState :=
  let s := initialState sampleHost in
  Project.mk (Project.projectTitle s) (Project.titlePage s)
    (createInitialPanels sampleHost 0 13) (Project.endPage s) true false.

Definition sampleFile : File := mkFile "shot.png" "image/png" [Byte.x89].

(** An application with one uploaded asset. *)
Definition sampleApp : App :=
  mkApp {[ "shot.png" := sampleFile ]} (initialState sampleHost) 0 [].

(** A package without [project.json]. *)
Definition noManifestZip : Zip := mkZip None {[ "a.png" := [Byte.x00] ]}.

(** A project with an empty title and no placeholder. *)
Definition untitledState : ProjectState :=
  Project.mk ""
    (TitlePage.mk "Client Name" "" "" "" None) []
    (EndPage.mk "" "" None "The End" true false) true false.

(** A project whose only panel refers to an asset that the store lacks. *)
Definition lostAssetState : ProjectState :=
  Project.mk "Lost"
    (TitlePage.mk "Client Name" "" "" "" None)
    [Panel.mk "p1" "" "lost.png" ""]
    (EndPage.mk "" "" None "The End" true false) true false.

(** A package whose manifest is the document of [lostAssetState] and whose
    [assets] folder holds the file the panel refers to. *)
Definition sampleZip : Zip :=
  mkZip (Some (toProjectJson lostAssetState)) {[ "lost.png" := [Byte.x89] ]}.

(** A project as [processProjectFile] hands it to the store: linked sizes,
    two logos of size M, two panels. *)
Definition loadedProject : Project.t string unit :=
  Project.mk "Loaded"
    (TitlePage.mk "Client Name" "" "" "" (Some defaultLogo))
    [Panel.mk "p1" "" "" ""; Panel.mk "p2" "" "" ""]
    (EndPage.mk "" "" (Some defaultEndPageLogo) "The End" true false)
    true tt.

(** A project with linked sizes whose logos have the sizes S and XL, and
    whose two panels have the same identifier. *)
Definition unlinkedProject : Project.t string unit :=
  Project.mk "Loaded"
    (TitlePage.mk "Client Name" "" "" ""
       (Some (Logo.mk "" "a.png" bottom_right size_S)))
    [Panel.mk "p1" "" "" ""; Panel.mk "p1" "" "" ""]
    (EndPage.mk "" ""
       (Some (Logo.mk "" "a.png" bottom_center size_XL)) "The End" true false)
    true tt.

(** The load of a project, an upload of a logo and a change of the title
    logo's size. *)
Definition sampleActions : list Action :=
  [LoadProject loadedProject;
   SetSharedLogo (Some ("blob:logo", "k.png"));
   UpdateTitlePageLogo (Some (Logo.mk "blob:logo" "k.png" top_left size_XL))].

(** The title "Café": its last letter has two bytes in UTF-8 and is one
    UTF-16 code unit. *)
Definition cafeTitle : string :=
  String "C" (String "a" (String "f"
    (String (ascii_of_nat 195) (String (ascii_of_nat 169) "")))).

(** An asset store with a PNG and a JPEG file. *)
Definition twoImages : AssetMap :=
  {[ "t.png" := mkFile "t.png" "image/png" [Byte.x89];
     "e.jpg" := mkFile "e.jpg" "image/jpeg" [Byte.xff] ]}.

(** A project whose end page mirrors the title page and has a background of
    its own: the title background is the PNG file, the end background the
    JPEG file. *)
Definition mirroredState : ProjectState :=
  setEndPageBackgroundImage "blob:e" "e.jpg"
    (setSharedBackgroundImage "blob:t" "t.png" (initialState sampleHost)).

(** A panel with a two-word script. *)
Definition scriptedPanel : Panel.t string := Panel.mk "p1" "" "" "aaaa bbbb".

(** A panel with an image. *)
Definition picturedPanel : Panel.t string := Panel.mk "p1" "blob:shot" "k.png" "".

(** * Properties *)

(** ** Rational arithmetic *)

Lemma Qgtb_true a b : Qgtb a b = true ↔ (b < a)%Q.
Proof.
  unfold Qgtb. rewrite negb_true_iff. split.
  - intros E. apply Qnot_le_lt. intros Hle.
    apply Qle_bool_iff in Hle. congruence.
  - intros Hlt. destruct (Qle_bool a b) eqn:E; [|done].
    apply Qle_bool_iff in E. lra.
Qed.

Lemma Qgtb_false a b : Qgtb a b = false ↔ (a <= b)%Q.
Proof. unfold Qgtb. rewrite negb_false_iff. apply Qle_bool_iff. Qed.

Lemma Qdiv_lt_inv a b c : (0 < b)%Q → (a / b < c)%Q → (a < c * b)%Q.
Proof.
  intros Hb H. assert (E : (a / b * b == a)%Q) by (field; lra).
  apply (Qmult_lt_r _ _ b) in H; [|done]. by rewrite E in H.
Qed.

Lemma Qdiv_le_inv a b c : (0 < b)%Q → (c <= a / b)%Q → (c * b <= a)%Q.
Proof.
  intros Hb H. assert (E : (a / b * b == a)%Q) by (field; lra).
  apply (Qmult_le_r _ _ b) in H; [|done]. by rewrite E in H.
Qed.

(** ** Double rounding *)

Section DoubleRounding.
Import Float64.

Lemma pow2_pos e : (0 < pow2 e)%Q.
Proof. apply Qpower_0_lt. reflexivity. Qed.

Lemma pow2_succ e : (pow2 (e + 1) == 2 * pow2 e)%Q.
Proof.
  unfold pow2. rewrite Qpower_plus by discriminate.
  change (2 ^ 1)%Q with 2%Q. ring.
Qed.

Lemma pow2_le a b : (a <= b)%Z → (pow2 a <= pow2 b)%Q.
Proof. intros H. apply Qpower_le_compat_l; [done|discriminate]. Qed.

Lemma pow2_lt_inv a b : (pow2 a < pow2 b)%Q → (a < b)%Z.
Proof. intros H. eapply Qpower_lt_compat_l_inv; [done|reflexivity]. Qed.

Lemma pow2_nat a : (0 <= a)%Z → (pow2 a == inject_Z (2 ^ a))%Q.
Proof. intros H. unfold pow2. by rewrite Zpower_Qpower. Qed.

Lemma pow2_sub a b : (pow2 (a - b) * pow2 b == pow2 a)%Q.
Proof.
  unfold pow2. rewrite <-Qpower_plus by discriminate.
  by replace (a - b + b)%Z with a by lia.
Qed.

Lemma exponent_spec x :
  (0 < x)%Q → (pow2 (exponent x) <= x)%Q ∧ (x < pow2 (exponent x + 1))%Q.
Proof.
  intros Hx. destruct x as [n d]. unfold exponent. cbn [Qnum Qden].
  assert (0 < n)%Z as Hn by (unfold Qlt in Hx; cbn in Hx; lia).
  set (a := Z.log2 n). set (b := Z.log2 (Z.pos d)).
  assert (0 <= a)%Z by apply Z.log2_nonneg.
  assert (0 <= b)%Z by apply Z.log2_nonneg.
  destruct (Z.log2_spec n Hn) as [Ha1 Ha2]. fold a in Ha1, Ha2.
  destruct (Z.log2_spec (Z.pos d) eq_refl) as [Hb1 Hb2]. fold b in Hb1, Hb2.
  assert (n # d == inject_Z n / inject_Z (Z.pos d))%Q as Hq by apply Qmake_Qdiv.
  assert (0 < inject_Z (Z.pos d))%Q as Hd by (unfold Qlt; cbn; lia).
  assert (inject_Z (2 ^ a) <= inject_Z n)%Q as Ha1' by (by rewrite <-Zle_Qle).
  assert (inject_Z n < inject_Z (2 ^ (a + 1)))%Q as Ha2' by (by rewrite <-Zlt_Qlt).
  assert (inject_Z (2 ^ b) <= inject_Z (Z.pos d))%Q as Hb1' by (by rewrite <-Zle_Qle).
  assert (inject_Z (Z.pos d) < inject_Z (2 ^ (b + 1)))%Q as Hb2' by (by rewrite <-Zlt_Qlt).
  rewrite <-!pow2_nat in * by lia.
  assert ((n # d) * inject_Z (Z.pos d) == inject_Z n)%Q as Hmul.
  { rewrite Hq. field. intros E. rewrite E in Hd. by apply Qlt_irrefl in Hd. }
  pose proof (pow2_pos a). pose proof (pow2_pos b).
  pose proof (pow2_pos (a - b)) as Hab. pose proof (pow2_sub a b) as Hs.
  pose proof (pow2_succ a) as Hsa. pose proof (pow2_succ b) as Hsb.
  pose proof (pow2_succ (a - b)) as Hsab.
  pose proof (pow2_succ (a - b - 1)) as Hsab'.
  replace (a - b - 1 + 1)%Z with (a - b)%Z in * by lia.
  pose proof (pow2_pos (a - b - 1)).
  set (x := n # d) in *. set (D := inject_Z (Z.pos d)) in *.
  set (N := inject_Z n) in *.
  assert (0 < x)%Q as Hx' by done.
  destruct (Qle_bool (pow2 (a - b)) x) eqn:E.
  - apply Qle_bool_iff in E. split; [done|].
    apply Qnot_le_lt. intros Hc.
    assert (pow2 (a - b + 1) * pow2 b <= x * pow2 b)%Q
      by (apply Qmult_le_compat_r; [done|by apply Qlt_le_weak]).
    assert (x * pow2 b <= x * D)%Q
      by (apply Qmult_le_l; done).
    rewrite Hsab in *. clearbody x D N. lra.
  - assert (x < pow2 (a - b))%Q as E'.
    { apply Qnot_le_lt. intros E'%Qle_bool_iff. congruence. }
    replace (a - b - 1 + 1)%Z with (a - b)%Z by lia. split; [|done].
    apply Qnot_lt_le. intros Hc.
    assert (x * pow2 (b + 1) <= pow2 (a - b - 1) * pow2 (b + 1))%Q
      by (apply Qmult_le_compat_r; [by apply Qlt_le_weak|apply Qlt_le_weak, pow2_pos]).
    assert (x * D <= x * pow2 (b + 1))%Q
      by (apply Qmult_le_l; [done|by apply Qlt_le_weak]).
    rewrite Hsb, Hsab' in *. clearbody x D N. nra.
Qed.

Lemma exponent_mono x y :
  (0 < x)%Q → (x <= y)%Q → (exponent x <= exponent y)%Z.
Proof.
  intros Hx Hxy. assert (0 < y)%Q as Hy by lra.
  destruct (exponent_spec x Hx) as [H1 _].
  destruct (exponent_spec y Hy) as [_ H2].
  assert (pow2 (exponent x) < pow2 (exponent y + 1))%Q as H by lra.
  apply pow2_lt_inv in H. lia.
Qed.

Lemma nearestEven_bounds q :
  (Qfloor q <= nearestEven q <= Qfloor q + 1)%Z.
Proof.
  unfold nearestEven.
  destruct (Qle_bool _ _); [destruct (Qle_bool _ _); [destruct (Z.even _)|]|];
    lia.
Qed.

Lemma nearestEven_Z k : nearestEven (inject_Z k) = k.
Proof.
  unfold nearestEven. rewrite Qfloor_Z.
  assert (inject_Z k - inject_Z k == 0)%Q as E by ring.
  assert (Qle_bool (inject_Z k - inject_Z k) (1 # 2) = true) as ->.
  { apply Qle_bool_iff. rewrite E. discriminate. }
  assert (Qle_bool (1 # 2) (inject_Z k - inject_Z k) = false) as ->.
  { destruct (Qle_bool _ _) eqn:F; [|done]. apply Qle_bool_iff in F.
    rewrite E in F. by apply Qle_not_lt in F. }
  done.
Qed.

Lemma nearestEven_mono q q' :
  (q <= q')%Q → (nearestEven q <= nearestEven q')%Z.
Proof.
  intros H. pose proof (Qfloor_resp_le _ _ H) as Hf.
  pose proof (nearestEven_bounds q). pose proof (nearestEven_bounds q').
  destruct (decide (Qfloor q = Qfloor q')) as [E|]; [|lia].
  unfold nearestEven. rewrite <-E.
  destruct (Qle_bool (q - inject_Z (Qfloor q)) (1 # 2)) eqn:A;
    destruct (Qle_bool (1 # 2) (q - inject_Z (Qfloor q))) eqn:B;
    destruct (Qle_bool (q' - inject_Z (Qfloor q)) (1 # 2)) eqn:A';
    destruct (Qle_bool (1 # 2) (q' - inject_Z (Qfloor q))) eqn:B';
    destruct (Z.even (Qfloor q)); try lia;
    repeat match goal with
    | H : Qle_bool _ _ = true |- _ => apply Qle_bool_iff in H
    | H : Qle_bool ?a ?b = false |- _ =>
        assert (b < a)%Q
          by (apply Qnot_le_lt; intros X%Qle_bool_iff; congruence);
        clear H
    end; exfalso; generalize dependent (inject_Z (Qfloor q)); intros; lra.
Qed.

Lemma roundPos_nonneg x : (0 < x)%Q → (0 <= roundPos x)%Q.
Proof.
  intros Hx. unfold roundPos.
  set (ulp := pow2 _). assert (0 < ulp)%Q by apply pow2_pos.
  apply Qmult_le_0_compat; [|by apply Qlt_le_weak].
  change 0%Q with (inject_Z 0). rewrite <-Zle_Qle.
  rewrite <-(nearestEven_Z 0). apply nearestEven_mono.
  apply Qle_shift_div_l; [done|]. change (inject_Z 0) with 0%Q. lra.
Qed.

(** A positive number rounds into its own binade. *)
Lemma roundPos_binade x :
  (0 < x)%Q →
  let e := Z.max (exponent x) emin in
  (roundPos x <= pow2 (e + 1))%Q
  ∧ ((emin <= exponent x)%Z → (pow2 e <= roundPos x)%Q).
Proof.
  intros Hx e. unfold roundPos. fold e.
  destruct (exponent_spec x Hx) as [H1 H2].
  set (ulp := pow2 (e - 52)). assert (0 < ulp)%Q as Hu by apply pow2_pos.
  assert (pow2 53 * ulp == pow2 (e + 1))%Q as E53.
  { unfold ulp, pow2. rewrite <-Qpower_plus by discriminate.
    by replace (53 + (e - 52))%Z with (e + 1)%Z by lia. }
  assert (pow2 52 * ulp == pow2 e)%Q as E52.
  { unfold ulp, pow2. rewrite <-Qpower_plus by discriminate.
    by replace (52 + (e - 52))%Z with e by lia. }
  split.
  - rewrite <-E53. apply Qmult_le_compat_r; [|by apply Qlt_le_weak].
    rewrite (pow2_nat 53) by done. rewrite <-Zle_Qle.
    rewrite <-(nearestEven_Z (2 ^ 53)). apply nearestEven_mono.
    rewrite <-pow2_nat by done.
    apply Qle_shift_div_r; [done|]. rewrite E53.
    assert (pow2 (exponent x + 1) <= pow2 (e + 1))%Q by (apply pow2_le; lia).
    lra.
  - intros He. assert (e = exponent x) as Ee by lia.
    rewrite <-E52. apply Qmult_le_compat_r; [|by apply Qlt_le_weak].
    rewrite (pow2_nat 52) by done. rewrite <-Zle_Qle.
    rewrite <-(nearestEven_Z (2 ^ 52)). apply nearestEven_mono.
    rewrite <-pow2_nat by done.
    apply Qle_shift_div_l; [done|]. rewrite E52, Ee. done.
Qed.

Lemma roundPos_mono x y :
  (0 < x)%Q → (x <= y)%Q → (roundPos x <= roundPos y)%Q.
Proof.
  intros Hx Hxy. assert (0 < y)%Q as Hy by lra.
  pose proof (exponent_mono x y Hx Hxy) as He.
  destruct (decide (Z.max (exponent x) emin = Z.max (exponent y) emin))
    as [E|Hne].
  - unfold roundPos. rewrite <-E. set (ulp := pow2 _).
    assert (0 < ulp)%Q as Hu by apply pow2_pos.
    apply Qmult_le_compat_r; [|by apply Qlt_le_weak].
    rewrite <-Zle_Qle. apply nearestEven_mono.
    apply Qmult_le_compat_r; [done|]. apply Qlt_le_weak, Qinv_lt_0_compat, Hu.
  - destruct (roundPos_binade x Hx) as [Hup _].
    destruct (roundPos_binade y Hy) as [_ Hlow]. cbv zeta in *.
    assert (pow2 (Z.max (exponent x) emin + 1)
            <= pow2 (Z.max (exponent y) emin))%Q by (apply pow2_le; lia).
    assert (emin <= exponent y)%Z by lia.
    specialize (Hlow ltac:(done)). lra.
Qed.

Lemma Qnum_pos x p : Qnum x = Z.pos p → (0 < x)%Q.
Proof. intros E. unfold Qlt. cbn. rewrite E. lia. Qed.

Lemma Qnum_neg x p : Qnum x = Z.neg p → (x < 0)%Q.
Proof. intros E. unfold Qlt. cbn. rewrite E. lia. Qed.

Lemma Qnum_zero x : Qnum x = 0%Z → (x == 0)%Q.
Proof. intros E. unfold Qeq. cbn. rewrite E. lia. Qed.

(** Rounding keeps the order. *)
Lemma round_mono x y : (x <= y)%Q → (round x <= round y)%Q.
Proof.
  intros H. unfold round.
  destruct (Qnum x) as [|p|p] eqn:Ex; destruct (Qnum y) as [|p'|p'] eqn:Ey;
    repeat match goal with
    | H : Qnum _ = Z.pos _ |- _ => apply Qnum_pos in H
    | H : Qnum _ = Z.neg _ |- _ => apply Qnum_neg in H
    | H : Qnum _ = 0%Z |- _ => apply Qnum_zero in H
    end; try lra.
  - by apply roundPos_nonneg.
  - by apply roundPos_mono.
  - assert (0 < - x)%Q as Hx by lra. pose proof (roundPos_nonneg _ Hx). lra.
  - assert (0 < - x)%Q as Hx by lra. pose proof (roundPos_nonneg _ Hx).
    pose proof (roundPos_nonneg _ Ey). lra.
  - assert (0 < - y)%Q as Hy by lra. assert (- y <= - x)%Q as Hyx by lra.
    pose proof (roundPos_mono _ _ Hy Hyx). lra.
Qed.

Lemma round_proper x y : (x == y)%Q → (round x == round y)%Q.
Proof.
  intros E. apply Qle_antisym; apply round_mono; rewrite E; apply Qle_refl.
Qed.

Lemma exponent_unique x a :
  (0 < x)%Q → (pow2 a <= x)%Q → (x < pow2 (a + 1))%Q → exponent x = a.
Proof.
  intros Hx H1 H2. destruct (exponent_spec x Hx) as [E1 E2].
  assert (pow2 a < pow2 (exponent x + 1))%Q as A by lra.
  assert (pow2 (exponent x) < pow2 (a + 1))%Q as B by lra.
  apply pow2_lt_inv in A, B. lia.
Qed.

Lemma round_pos x : (0 < x)%Q → round x = roundPos x.
Proof.
  intros Hx. unfold round. destruct (Qnum x) as [|p|p] eqn:E; [| done |].
  - apply Qnum_zero in E. lra.
  - apply Qnum_neg in E. lra.
Qed.

Lemma round_neg x : (x < 0)%Q → round x = (- roundPos (- x))%Q.
Proof.
  intros Hx. unfold round. destruct (Qnum x) as [|p|p] eqn:E; [| |done].
  - apply Qnum_zero in E. lra.
  - apply Qnum_pos in E. lra.
Qed.

Lemma round_zero x : (x == 0)%Q → (round x == 0)%Q.
Proof. intros E. by rewrite (round_proper _ _ E). Qed.

Lemma roundPos_proper x y :
  (0 < x)%Q → (x == y)%Q → (roundPos x == roundPos y)%Q.
Proof.
  intros Hx E. assert (0 < y)%Q by lra.
  apply Qle_antisym; apply roundPos_mono; lra.
Qed.

Lemma nearestEven_proper q q' : (q == q')%Q → nearestEven q = nearestEven q'.
Proof.
  intros E. apply Z.le_antisymm; apply nearestEven_mono; rewrite E;
    apply Qle_refl.
Qed.

Lemma pow2_split a b : (pow2 (a + b) == pow2 a * pow2 b)%Q.
Proof. unfold pow2. by rewrite Qpower_plus. Qed.

(** A significand of at most 53 bits at an exponent from [emin] on, normal
    or, at [emin], subnormal, is a double. *)
Lemma roundPos_fixed n e :
  (emin <= e)%Z → (0 < n)%Z → (n <= 2 ^ 53)%Z →
  (2 ^ 52 <= n)%Z ∨ e = emin →
  (roundPos (inject_Z n * pow2 (e - 52)) == inject_Z n * pow2 (e - 52))%Q.
Proof.
  intros He Hn0 Hn Hnorm.
  set (ulp := pow2 (e - 52)). set (v := (inject_Z n * ulp)%Q).
  assert (0 < ulp)%Q as Hu by apply pow2_pos.
  assert (0 < inject_Z n)%Q as Hn0'
    by (change 0%Q with (inject_Z 0); by rewrite <-Zlt_Qlt).
  assert (0 < v)%Q as Hv by (by apply Qmult_lt_0_compat).
  assert (pow2 52 * ulp == pow2 e)%Q as E52.
  { unfold ulp. rewrite <-pow2_split. by replace (52 + (e - 52))%Z with e by lia. }
  assert (pow2 53 * ulp == pow2 (e + 1))%Q as E53.
  { unfold ulp. rewrite <-pow2_split.
    by replace (53 + (e - 52))%Z with (e + 1)%Z by lia. }
  assert (inject_Z n <= pow2 53)%Q as Hn'.
  { rewrite pow2_nat by done. by rewrite <-Zle_Qle. }
  destruct (decide (n = 2 ^ 53)%Z) as [->|Hne].
  - assert (v == pow2 (e + 1))%Q as Ev.
    { unfold v. rewrite <-E53. by rewrite pow2_nat. }
    assert (exponent v = (e + 1)%Z) as Ee.
    { apply exponent_unique; [done|rewrite Ev; apply Qle_refl|].
      rewrite Ev. rewrite (pow2_succ (e + 1)). pose proof (pow2_pos (e + 1)). lra. }
    unfold roundPos. rewrite Ee. rewrite Z.max_l by lia.
    assert (pow2 (e + 1 - 52) == 2 * ulp)%Q as Eu.
    { unfold ulp. replace (e + 1 - 52)%Z with (e - 52 + 1)%Z by lia.
      apply pow2_succ. }
    assert (v / pow2 (e + 1 - 52) == inject_Z (2 ^ 52))%Q as Eq.
    { rewrite Eu. unfold v. change (inject_Z (2 ^ 53)) with (2 * inject_Z (2 ^ 52))%Q.
      field. lra. }
    rewrite (nearestEven_proper _ _ Eq), nearestEven_Z, Eu. unfold v.
    change (inject_Z (2 ^ 53)) with (2 * inject_Z (2 ^ 52))%Q. ring.
  - assert (inject_Z n < pow2 53)%Q as Hlt.
    { rewrite pow2_nat by done. rewrite <-Zlt_Qlt. lia. }
    assert (v < pow2 (e + 1))%Q as Hup.
    { rewrite <-E53. unfold v. by apply Qmult_lt_compat_r. }
    assert (Z.max (exponent v) emin = e) as Ee.
    { destruct Hnorm as [Hn52| ->].
      - rewrite Z.max_l.
        + apply exponent_unique; [done| |done].
          rewrite <-E52. unfold v. apply Qmult_le_compat_r; [|lra].
          rewrite pow2_nat by done. by rewrite <-Zle_Qle.
        + destruct (exponent_spec v Hv) as [_ E2].
          assert (pow2 e <= v)%Q as Hlow.
          { rewrite <-E52. unfold v. apply Qmult_le_compat_r; [|lra].
            rewrite pow2_nat by done. by rewrite <-Zle_Qle. }
          assert (pow2 e < pow2 (exponent v + 1))%Q as A by lra.
          apply pow2_lt_inv in A. lia.
      - destruct (exponent_spec v Hv) as [E1 _].
        assert (pow2 (exponent v) < pow2 (emin + 1))%Q as A by lra.
        apply pow2_lt_inv in A. lia. }
    unfold roundPos. rewrite Ee. fold ulp.
    assert (v / ulp == inject_Z n)%Q as Eq by (unfold v; field; lra).
    by rewrite (nearestEven_proper _ _ Eq), nearestEven_Z.
Qed.

Lemma roundPos_idem x : (0 < x)%Q → (round (roundPos x) == roundPos x)%Q.
Proof.
  intros Hx. pose proof (roundPos_nonneg x Hx) as H0.
  destruct (Qlt_le_dec 0 (roundPos x)) as [Hpos|Hz].
  2:{ assert (roundPos x == 0)%Q as E by lra.
      rewrite (round_zero _ E). by rewrite E. }
  rewrite (round_pos _ Hpos).
  destruct (roundPos_binade x Hx) as [Hup Hlow]. cbv zeta in Hup, Hlow.
  unfold roundPos in *.
  set (e := Z.max (exponent x) emin) in *. set (ulp := pow2 (e - 52)) in *.
  set (n := nearestEven (x / ulp)) in *.
  assert (0 < ulp)%Q as Hu by apply pow2_pos.
  assert (pow2 52 * ulp == pow2 e)%Q as E52.
  { unfold ulp. rewrite <-pow2_split. by replace (52 + (e - 52))%Z with e by lia. }
  assert (pow2 53 * ulp == pow2 (e + 1))%Q as E53.
  { unfold ulp. rewrite <-pow2_split.
    by replace (53 + (e - 52))%Z with (e + 1)%Z by lia. }
  apply (roundPos_fixed n e).
  - lia.
  - rewrite Zlt_Qlt. change (inject_Z 0) with 0%Q.
    destruct (Qlt_le_dec 0 (inject_Z n)) as [?|Hn]; [done|].
    exfalso. assert (inject_Z n * ulp <= 0 * ulp)%Q
      by (apply Qmult_le_compat_r; lra). lra.
  - rewrite Zle_Qle. rewrite <-pow2_nat by done.
    apply Qnot_lt_le. intros Hc.
    assert (pow2 53 * ulp < inject_Z n * ulp)%Q
      by (by apply Qmult_lt_compat_r). lra.
  - destruct (decide (emin <= exponent x)%Z) as [He|He]; [left|right; lia].
    specialize (Hlow He).
    rewrite Zle_Qle. rewrite <-pow2_nat by done.
    apply Qnot_lt_le. intros Hc.
    assert (inject_Z n * ulp < pow2 52 * ulp)%Q
      by (by apply Qmult_lt_compat_r). lra.
Qed.

(** What rounding gives is a double: rounding it again changes nothing. *)
Lemma round_idem x : (round (round x) == round x)%Q.
Proof.
  destruct (Q_dec x 0) as [[Hneg|Hpos]|Hz].
  - rewrite (round_neg x Hneg).
    assert (0 < - x)%Q as Hx by lra.
    pose proof (roundPos_nonneg _ Hx) as H0.
    destruct (Qlt_le_dec 0 (roundPos (- x))) as [Hp|Hzero].
    + rewrite round_neg by lra.
      assert (- - roundPos (- x) == roundPos (- x))%Q as E by ring.
      assert (0 < - - roundPos (- x))%Q as Hpp by lra.
      rewrite (roundPos_proper _ _ Hpp E).
      rewrite <-(round_pos _ Hp). by rewrite roundPos_idem.
    + assert (- roundPos (- x) == 0)%Q as E by lra.
      rewrite (round_zero _ E). by rewrite E.
  - rewrite (round_pos x Hpos). by apply roundPos_idem.
  - pose proof (round_zero x Hz) as E.
    rewrite (round_zero _ E). by rewrite E.
Qed.

(** Some values: the doubles nearest to [0.1] and to [904 / 3], a tie that
    goes to the even significand, the smallest subnormal, and the sums
    [20 + 0.2 + 299.8], which give [320]. *)
Lemma round_values :
  (round (1 # 10) == 3602879701896397 # 36028797018963968)%Q
  ∧ (round (904 # 3) == 5301112061384021 # 17592186044416)%Q
  ∧ (round (inject_Z (2 ^ 53 + 1)) == inject_Z (2 ^ 53))%Q
  ∧ (round (inject_Z (2 ^ 53 + 3)) == inject_Z (2 ^ 53 + 4))%Q
  ∧ (round (pow2 (-1074)) == pow2 (-1074))%Q
  ∧ (round (pow2 (-1076)) == 0)%Q
  ∧ (add (add 20 (round (2 # 10))) (round (2998 # 10)) == 320)%Q.
Proof. split_and!; by vm_compute. Qed.

End DoubleRounding.

(** ** Image fits *)

Local Ltac qeq := first [reflexivity | lra | ring | (field; lra)].

Lemma coverFit_fills W H r :
  (0 < W)%Q → (0 < H)%Q → (0 < r)%Q →
  (W <= drawWidth (coverFit W H r))%Q ∧ (H <= drawHeight (coverFit W H r))%Q.
Proof.
  intros HW HH Hr. unfold coverFit. cbv zeta.
  destruct (Qgtb r (W / H)) eqn:E; cbn [drawWidth drawHeight drawX drawY].
  - apply Qgtb_true, Qdiv_lt_inv in E; [|done]. split; lra.
  - apply Qgtb_false, Qdiv_le_inv in E; [|done]. split; [lra|].
    apply Qle_shift_div_l; [done|]. lra.
Qed.

Lemma containFit_inside X Y W H r :
  (0 < W)%Q → (0 < H)%Q → (0 < r)%Q →
  (drawWidth (containFit X Y W H r) <= W)%Q
  ∧ (drawHeight (containFit X Y W H r) <= H)%Q.
Proof.
  intros HW HH Hr. unfold containFit. cbv zeta.
  destruct (Qgtb r (W / H)) eqn:E; cbn [drawWidth drawHeight drawX drawY].
  - apply Qgtb_true, Qdiv_lt_inv in E; [|done]. split; [lra|].
    apply Qle_shift_div_r; [done|]. lra.
  - apply Qgtb_false, Qdiv_le_inv in E; [|done]. split; lra.
Qed.

Lemma coverFit_shape W H r :
  (0 < r)%Q →
  let c := coverFit W H r in
  (drawWidth c == r * drawHeight c)%Q
  ∧ (drawX c == (W - drawWidth c) / 2)%Q
  ∧ (drawY c == (H - drawHeight c) / 2)%Q
  ∧ ((drawWidth c == W)%Q ∨ (drawHeight c == H)%Q).
Proof.
  intros Hr. unfold coverFit. cbv zeta.
  destruct (Qgtb r (W / H)); cbn [drawWidth drawHeight drawX drawY].
  - split_and!; [qeq..|right; qeq].
  - split_and!; [qeq..|left; qeq].
Qed.

Lemma containFit_shape X Y W H r :
  (0 < r)%Q →
  let k := containFit X Y W H r in
  (drawWidth k == r * drawHeight k)%Q
  ∧ (drawX k == X + (W - drawWidth k) / 2)%Q
  ∧ (drawY k == Y + (H - drawHeight k) / 2)%Q
  ∧ ((drawWidth k == W)%Q ∨ (drawHeight k == H)%Q).
Proof.
  intros Hr. unfold containFit. cbv zeta.
  destruct (Qgtb r (W / H)); cbn [drawWidth drawHeight drawX drawY].
  - split_and!; [qeq..|left; qeq].
  - split_and!; [qeq..|right; qeq].
Qed.

(** C9.  For every aspect ratio [r > 0] and every box [W × H] with positive
    sides: the cover fit draws the image at least as wide and as high as the
    box, the contain fit at most as wide and as high as the box; both keep
    the ratio [drawWidth / drawHeight = r], match the box on one axis and
    centre the image in the box on both axes (so on the axis that does not
    constrain). *)
Theorem fit_invariants (W H r : Q) :
  (0 < W)%Q → (0 < H)%Q → (0 < r)%Q →
  (let c := coverFit W H r in
   (W <= drawWidth c)%Q ∧ (H <= drawHeight c)%Q
   ∧ (drawWidth c == r * drawHeight c)%Q
   ∧ (drawX c == (W - drawWidth c) / 2)%Q
   ∧ (drawY c == (H - drawHeight c) / 2)%Q
   ∧ ((drawWidth c == W)%Q ∨ (drawHeight c == H)%Q))
  ∧ (∀ X Y, let k := containFit X Y W H r in
     (drawWidth k <= W)%Q ∧ (drawHeight k <= H)%Q
     ∧ (drawWidth k == r * drawHeight k)%Q
     ∧ (drawX k == X + (W - drawWidth k) / 2)%Q
     ∧ (drawY k == Y + (H - drawHeight k) / 2)%Q
     ∧ ((drawWidth k == W)%Q ∨ (drawHeight k == H)%Q)).
Proof.
  intros HW HH Hr. split.
  - destruct (coverFit_fills W H r) as [? ?]; [done..|].
    destruct (coverFit_shape W H r Hr) as (? & ? & ? & ?). by cbv zeta.
  - intros X Y. destruct (containFit_inside X Y W H r) as [? ?]; [done..|].
    destruct (containFit_shape X Y W H r Hr) as (? & ? & ? & ?). by cbv zeta.
Qed.

Lemma fit_invariants_witness :
  (1024 <= drawWidth (coverFit 1024 768 2))%Q
  ∧ (drawHeight (containFit 0 0 16 9 2) <= 9)%Q.
Proof.
  destruct (fit_invariants 1024 768 2) as [Hc Hk]; [reflexivity..|].
  split; [apply Hc | apply (Hk 0 0)%Q].
Defined.

(** The backgrounds of the title and end page cover the whole page. *)
Lemma pageBackgroundFit_covers w h :
  (0 < w)%Q → (0 < h)%Q →
  (PDF_WIDTH <= drawWidth (pageBackgroundFit w h))%Q
  ∧ (PDF_HEIGHT <= drawHeight (pageBackgroundFit w h))%Q.
Proof.
  intros Hw Hh. apply coverFit_fills; [reflexivity..|].
  apply Qlt_shift_div_l; [done|lra].
Qed.

(** The image of a panel stays inside its 16:9 container. *)
Lemma drawPanelTemplate_image_inside pdf panel index x y width height p :
  (20 < width)%Q →
  (∀ w h, loadImage pdf (Panel.image panel) = Some (w, h) →
          (0 < w)%Q ∧ (0 < h)%Q) →
  panelImage (drawPanelTemplate pdf panel index x y width height) = Some p →
  (drawWidth p <= width - 2 * 10)%Q
  ∧ (drawHeight p <= (width - 2 * 10) * (9 / 16))%Q.
Proof.
  intros Hw Himg. unfold drawPanelTemplate. cbn [panelImage].
  destruct (Js.falsy (Panel.image panel)); [done|].
  destruct (loadImage pdf (Panel.image panel)) as [[w h]|] eqn:E; [|done].
  destruct (Himg w h eq_refl) as [? ?]. intros [= <-].
  apply containFit_inside.
  - lra.
  - apply Qmult_lt_0_compat; [lra|reflexivity].
  - apply Qlt_shift_div_l; [done|lra].
Qed.

(** ** Hydration *)

Lemma hydrateLogo_frame {D} h assets (logo : option (Logo.t D)) urls :
  stripLogo <$> (hydrateLogo h assets logo urls).1 = stripLogo <$> logo.
Proof.
  destruct logo as [l|]; [|done]. unfold hydrateLogo.
  by destruct (hydrateAsset h assets (Logo.assetKey l) urls).
Qed.

Lemma hydratePanels_frame {D} h assets (panels : list (Panel.t D)) urls :
  stripPanel <$> (hydratePanels h assets panels urls).1 = stripPanel <$> panels.
Proof.
  revert urls. induction panels as [|p ps IH]; intros urls; [done|].
  cbn [hydratePanels].
  destruct (hydrateAsset h assets (Panel.imageAssetKey p) urls) as [img u1].
  specialize (IH u1). destruct (hydratePanels h assets ps u1) as [ps' u2].
  cbn in *. by rewrite IH.
Qed.

Lemma hydratePanels_length {D} h assets (panels : list (Panel.t D)) urls :
  length (hydratePanels h assets panels urls).1 = length panels.
Proof.
  rewrite <-(length_fmap stripPanel), hydratePanels_frame.
  by rewrite length_fmap.
Qed.

(** Hydration leaves the document of a state as it is. *)
Lemma hydrateState_toProjectJson {D L} h assets (state : Project.t D L) urls :
  toProjectJson (hydrateState h assets state urls).1 = toProjectJson state.
Proof.
  unfold hydrateState.
  destruct (hydrateAsset h assets _ urls) as [tbg u1].
  pose proof (hydrateLogo_frame h assets
                (TitlePage.logo (Project.titlePage state)) u1) as Htl.
  destruct (hydrateLogo h assets _ u1) as [tlogo u2].
  destruct (hydrateAsset h assets _ u2) as [ebg u3].
  pose proof (hydrateLogo_frame h assets
                (EndPage.logo (Project.endPage state)) u3) as Hel.
  destruct (hydrateLogo h assets _ u3) as [elogo u4].
  pose proof (hydratePanels_frame h assets (Project.panels state) u4) as Hp.
  destruct (hydratePanels h assets _ u4) as [panels u5].
  unfold toProjectJson. cbn in *. by rewrite Htl, Hel, Hp.
Qed.

Lemma stripLogo_data {D E} (a : option (Logo.t D)) (b : option (Logo.t E)) :
  stripLogo <$> a = stripLogo <$> b → logoData <$> a = logoData <$> b.
Proof.
  destruct a as [[]|], b as [[]|]; cbn; intros [=]; by subst.
Qed.

Lemma stripPanel_data {D E} (a : list (Panel.t D)) (b : list (Panel.t E)) :
  stripPanel <$> a = stripPanel <$> b → panelData <$> a = panelData <$> b.
Proof.
  revert b. induction a as [|[] a IH]; intros [|[] b]; cbn; intros [=];
    [done|]. subst. f_equal. by apply IH.
Qed.

(** C10.  Hydration returns every field other than the display references
    unchanged: the project title, the header and sub-header, the background
    asset keys, the asset key, position and size of each logo (and whether
    there is a logo), the end text, the [showText], [mirrorTitlePage] and
    [logoSizesLinked] flags, the [isLoading] flag, and the panels in their
    order with their ids, asset keys and scripts. *)
Theorem hydrateState_frame {D L} (h : Host) (assets : AssetMap)
    (state : Project.t D L) (urls : nat) :
  let state' := (hydrateState h assets state urls).1 in
  let tp := Project.titlePage state in
  let tp' := Project.titlePage state' in
  let ep := Project.endPage state in
  let ep' := Project.endPage state' in
  Project.projectTitle state' = Project.projectTitle state
  ∧ TitlePage.header tp' = TitlePage.header tp
  ∧ TitlePage.subHeader tp' = TitlePage.subHeader tp
  ∧ TitlePage.backgroundImageAssetKey tp' = TitlePage.backgroundImageAssetKey tp
  ∧ logoData <$> TitlePage.logo tp' = logoData <$> TitlePage.logo tp
  ∧ EndPage.backgroundImageAssetKey ep' = EndPage.backgroundImageAssetKey ep
  ∧ logoData <$> EndPage.logo ep' = logoData <$> EndPage.logo ep
  ∧ EndPage.text ep' = EndPage.text ep
  ∧ EndPage.showText ep' = EndPage.showText ep
  ∧ EndPage.mirrorTitlePage ep' = EndPage.mirrorTitlePage ep
  ∧ panelData <$> Project.panels state' = panelData <$> Project.panels state
  ∧ Project.logoSizesLinked state' = Project.logoSizesLinked state
  ∧ Project.isLoading state' = Project.isLoading state.
Proof.
  pose proof (hydrateState_toProjectJson h assets state urls) as HJ.
  assert (Project.isLoading (hydrateState h assets state urls).1
          = Project.isLoading state) as HL.
  { unfold hydrateState. by repeat case_match. }
  cbv zeta. unfold toProjectJson in HJ. injection HJ as ????????????.
  split_and!; auto using stripLogo_data, stripPanel_data.
Qed.

(** ** The mirrored end page *)

(** C6.  When [mirrorTitlePage] is set, the end page of the export is drawn
    from a configuration that takes the background image and the logo image
    (display source and asset key, and with them the size) from the title
    page and the logo position from the end page's own logo, or
    [bottom-center] when the end page has no logo; when the title page has
    no logo the configuration has none.  The background asset key, the text
    and the [showText] flag stay those of the end page. *)
Theorem endPage_mirror (pdf : Pdf) (state : ProjectState) :
  EndPage.mirrorTitlePage (Project.endPage state) = true →
  let titlePage := Project.titlePage state in
  let endPage := Project.endPage state in
  let cfg := endPageConfig state in
  last (exportToPdf pdf state) = Some (EndPg cfg)
  ∧ EndPage.backgroundImage cfg = TitlePage.backgroundImage titlePage
  ∧ match TitlePage.logo titlePage with
    | None => EndPage.logo cfg = None
    | Some tl =>
        ∃ l, EndPage.logo cfg = Some l
             ∧ Logo.src l = Logo.src tl
             ∧ Logo.assetKey l = Logo.assetKey tl
             ∧ Logo.size l = Logo.size tl
             ∧ Logo.position l =
                 match EndPage.logo endPage with
                 | Some el => Logo.position el
                 | None => bottom_center
                 end
    end
  ∧ EndPage.backgroundImageAssetKey cfg
    = EndPage.backgroundImageAssetKey endPage
  ∧ EndPage.text cfg = EndPage.text endPage
  ∧ EndPage.showText cfg = EndPage.showText endPage.
Proof.
  intros Hm. cbv zeta. split_and!.
  - unfold exportToPdf. by rewrite !last_app.
  - unfold endPageConfig. by rewrite Hm.
  - unfold endPageConfig. rewrite Hm. cbn.
    destruct (TitlePage.logo (Project.titlePage state)) as [tl|]; [|done].
    eexists. split_and!; done.
  - unfold endPageConfig. by rewrite Hm.
  - unfold endPageConfig. by rewrite Hm.
  - unfold endPageConfig. by rewrite Hm.
Qed.

(** The initial project without an end page logo: the mirrored end page
    shows the title page logo at [bottom-center]. *)
Lemma endPage_mirror_witness :
  ∃ l, EndPage.logo (endPageConfig noEndLogoState) = Some l
       ∧ Logo.src l = content.defaultLogoPath
       ∧ Logo.assetKey l = "default-logo"
       ∧ Logo.position l = bottom_center.
Proof.
  destruct (endPage_mirror samplePdf noEndLogoState eq_refl) as (_ & _ & H & _).
  cbn in H. destruct H as (l & Hl & Hsrc & Hkey & _ & Hpos).
  exists l. by split_and!.
Defined.

(** ** Splitting and joining strings *)

Lemma split_nonempty c s : Js.split c s ≠ [].
Proof.
  destruct s as [|a s]; simpl; [done|].
  destruct (Ascii.eqb a c); [done|]. by destruct (Js.split c s).
Qed.

Lemma split_no_sep c s : Js.includes c s = false → Js.split c s = [s].
Proof.
  induction s as [|a s IH]; simpl; [done|].
  intros [Ha Hs]%orb_false_iff. by rewrite Ha, (IH Hs).
Qed.

Lemma split_app_sep c w s :
  Js.includes c w = false →
  Js.split c (w +:+ String c s) = w :: Js.split c s.
Proof.
  induction w as [|a w IH]; simpl.
  - intros _. by rewrite Ascii.eqb_refl.
  - intros [Ha Hw]%orb_false_iff. by rewrite Ha, (IH Hw).
Qed.

Lemma split_includes c s :
  Forall (λ w, Js.includes c w = false) (Js.split c s).
Proof.
  induction s as [|a s IH]; simpl; [by repeat constructor|].
  destruct (Ascii.eqb a c) eqn:E; [by constructor|].
  destruct (Js.split c s) as [|w ws].
  - repeat constructor. simpl. by rewrite E.
  - inversion_clear IH. constructor; [|done]. simpl. by rewrite E.
Qed.

Lemma split_join c l :
  l ≠ [] → Forall (λ w, Js.includes c w = false) l →
  Js.split c (Js.join (String c "") l) = l.
Proof.
  intros Hne Hl. induction Hl as [|w ws Hw Hws IH]; [done|].
  destruct ws as [|w' ws].
  - cbn. by apply split_no_sep.
  - change (Js.join (String c "") (w :: w' :: ws))
      with (w +:+ String c (Js.join (String c "") (w' :: ws))).
    rewrite split_app_sep by done. f_equal. by apply IH.
Qed.

Lemma truncateScript_split script :
  Js.split "010"%char (truncateScript script) = take 6 (Js.split "010"%char script).
Proof.
  unfold truncateScript. apply split_join.
  - pose proof (split_nonempty "010"%char script). by destruct (Js.split _ script).
  - apply Forall_take, split_includes.
Qed.

(** ** The script cap *)

(** C8.  The script is cut down to its first six newline-separated lines
    before anything is laid out: the text handed to the layout has exactly
    the first six lines of the script as its lines, so the layout of a
    script depends on its first six lines only; of a script of seven lines
    the first six are laid out and the seventh is dropped. *)
Theorem script_cap (script : string) :
  let NL := "010"%char in
  let lines := Js.split NL script in
  let laidOut := Js.split NL (truncateScript script) in
  laidOut = take 6 lines
  ∧ (length laidOut ≤ 6)%nat
  ∧ (∀ getTextWidth box,
       drawScript getTextWidth box script
       = drawn (drawParts getTextWidth box
                  (splitParts (Js.join (String NL "") (take 6 lines)))
                  (mkCursor (lineStart box) (firstY box) [])))
  ∧ (∀ script' getTextWidth box,
       take 6 (Js.split NL script') = take 6 lines →
       drawScript getTextWidth box script'
       = drawScript getTextWidth box script)
  ∧ (length lines = 7 →
     length laidOut = 6 ∧ ∃ seventh, lines = (laidOut ++ [seventh])%list).
Proof.
  cbv zeta. rewrite truncateScript_split. split_and!.
  - done.
  - rewrite length_take. lia.
  - done.
  - intros script' m box E. unfold drawScript, truncateScript. by rewrite E.
  - intros Hlen. split; [rewrite length_take; lia|].
    exists (default "" (last (Js.split "010"%char script))).
    rewrite <-(take_drop 6 (Js.split "010"%char script)) at 1. f_equal.
    destruct (Js.split "010"%char script) as [|a [|b [|c [|d [|e [|f [|g [|]]]]]]]];
      by simplify_eq/=.
Qed.

Lemma script_cap_witness :
  Js.split "010"%char
    (truncateScript
       (Js.join (String "010"%char "") ["1"; "2"; "3"; "4"; "5"; "6"; "7"]))
  = ["1"; "2"; "3"; "4"; "5"; "6"].
Proof.
  destruct (script_cap
              (Js.join (String "010"%char "")
                 ["1"; "2"; "3"; "4"; "5"; "6"; "7"]))
    as (H & _ & _ & _ & H7).
  destruct (H7 eq_refl) as [_ [seventh Hs]].
  exact H.
Defined.

(** ** Panel pages *)

Lemma slice_take_drop {A} i (l : list A) : slice i (i + 6) l = take 6 (drop i l).
Proof. unfold slice. f_equal. lia. Qed.

Lemma panelChunksFrom_concat {A} (panels : list A) i :
  concat (panelChunksFrom panels i) = drop i panels.
Proof.
  funelim (panelChunksFrom panels i).
  - cbn. rewrite H, slice_take_drop.
    rewrite <-(take_drop 6 (drop i panels)) at 2. by rewrite drop_drop.
  - cbn. symmetry. apply drop_ge. lia.
Qed.

Lemma panelChunksFrom_lookup {A} (panels : list A) i k :
  panelChunksFrom panels i !! k
  = if decide (i + 6 * k < length panels)%nat
    then Some (take 6 (drop (i + 6 * k) panels)) else None.
Proof.
  revert k. funelim (panelChunksFrom panels i); intros k.
  - destruct k as [|k]; cbn [lookup list_lookup].
    + rewrite slice_take_drop. replace (i + 6 * 0)%nat with i by lia.
      by rewrite decide_True.
    + rewrite H. replace (i + 6 + 6 * k)%nat with (i + 6 * S k)%nat by lia. done.
  - rewrite lookup_nil. rewrite decide_False; [done|lia].
Qed.

Lemma panelChunks_length {A} (panels : list A) :
  length (panelChunks panels) = ((length panels + 5) / 6)%nat.
Proof.
  unfold panelChunks.
  set (n := length (panelChunksFrom panels 0)).
  assert (∀ k, (k < n)%nat ↔ (6 * k < length panels)%nat) as Hk.
  { intros k. unfold n. rewrite <-lookup_lt_is_Some, panelChunksFrom_lookup.
    case_decide; split; intros Hx; try lia; done. }
  pose proof (Hk n) as H1. destruct n as [|n']; [|pose proof (Hk n') as H2].
  - assert (length panels = 0)%nat as -> by lia. done.
  - assert (6 * n' < length panels ∧ length panels ≤ 6 * S n')%nat as [??] by lia.
    apply Nat.div_unique with (r := (length panels + 5 - 6 * S n')%nat); lia.
Qed.

(** C5.  The panel pages of the export come between the title page and the
    end page and hold the panels in source order, six to a page: there are
    [ceil (n / 6)] of them, the [k]-th draws the panels [6k .. 6k+5] that
    exist, and nothing else, the [i]-th of them in column [i mod 3] of row
    [i / 3]; the cells of a short last page that have no panel get no
    drawing.  Thirteen panels give three pages of 6, 6 and 1 panels. *)
Theorem panel_pages (pdf : Pdf) (state : ProjectState) :
  let panels := Project.panels state in
  let pages := imap (λ k chunk, drawPanelPage pdf chunk k) (panelChunks panels) in
  exportToPdf pdf state
  = ([TitlePg (Project.titlePage state)] ++ (PanelPg <$> pages)
     ++ [EndPg (endPageConfig state)])%list
  ∧ concat (panelChunks panels) = panels
  ∧ length pages = ((length panels + 5) / 6)%nat
  ∧ (∀ k cells, pages !! k = Some cells →
       length cells = (6 `min` (length panels - 6 * k))%nat
       ∧ (0 < length cells)%nat)
  ∧ (∀ k i panel, (i < 6)%nat → panels !! (6 * k + i)%nat = Some panel →
       ∃ cells, pages !! k = Some cells
                ∧ cells !! i = Some (drawCell pdf k i panel))
  ∧ (∀ k i panel,
       let cell := drawCell pdf k i panel in
       panelIndex cell = (k * 6 + i)%nat
       ∧ cellX cell
         = (PAGE_MARGIN + Qnat (i mod 3) * (panelWidth + colGap))%Q
       ∧ cellY cell
         = (PAGE_MARGIN + Qnat (i / 3) * (panelHeight + rowGap))%Q)
  ∧ (length panels = 13%nat → length <$> pages = [6; 6; 1]%nat).
Proof.
  intros panels pages.
  assert (∀ k, pages !! k
               = if decide (6 * k < length panels)%nat
                 then Some (drawPanelPage pdf (take 6 (drop (6 * k) panels)) k)
                 else None) as Hpages.
  { intros k. unfold pages, panelChunks.
    rewrite list_lookup_imap, panelChunksFrom_lookup. cbn.
    by case_decide. }
  assert (∀ k cells, pages !! k = Some cells →
            length cells = (6 `min` (length panels - 6 * k))%nat
            ∧ (0 < length cells)%nat) as Hlen.
  { intros k cells. rewrite Hpages. case_decide; [|done]. intros [= <-].
    unfold drawPanelPage. rewrite length_imap, length_take, length_drop. lia. }
  split_and!.
  - unfold exportToPdf, pages. by rewrite fmap_imap.
  - unfold panelChunks. by rewrite panelChunksFrom_concat, drop_0.
  - unfold pages. by rewrite length_imap, panelChunks_length.
  - done.
  - intros k i panel Hi Hp. pose proof (lookup_lt_Some _ _ _ Hp).
    eexists. rewrite Hpages, decide_True by lia. split; [done|].
    unfold drawPanelPage. rewrite list_lookup_imap, lookup_take_lt by done.
    by rewrite lookup_drop, Hp.
  - done.
  - intros H13.
    assert (length pages = 3%nat) as H3.
    { unfold pages. by rewrite length_imap, panelChunks_length, H13. }
    destruct pages as [|p0 [|p1 [|p2 [|]]]] eqn:E; try done.
    destruct (Hlen 0%nat p0 eq_refl) as [E0 _].
    destruct (Hlen 1%nat p1 eq_refl) as [E1 _].
    destruct (Hlen 2%nat p2 eq_refl) as [E2 _].
    cbn. rewrite E0, E1, E2, H13. done.
Qed.

Lemma panel_pages_witness :
  length <$> imap (λ k chunk, drawPanelPage samplePdf chunk k)
               (panelChunks (Project.panels thirteenPanelState))
  = [6; 6; 1]%nat.
Proof.
  destruct (panel_pages samplePdf thirteenPanelState)
    as (_ & _ & _ & _ & _ & _ & H).
  exact (H eq_refl).
Defined.

(** ** Saving: the referenced assets *)

Lemma falsy_spec k : Js.falsy k = true ↔ k = "".
Proof. by destruct k. Qed.

Lemma elem_of_collectAsset o acc k :
  k ∈ collectAsset o acc ↔ k ∈ acc ∨ (o = Some k ∧ realKey k).
Proof.
  unfold collectAsset, realKey.
  destruct o as [k'|]; [|split; [auto|by intros [?|[ [=] _]]]].
  destruct (Js.falsy k') eqn:Ef; cbn.
  - apply falsy_spec in Ef.
    split; [auto|]. by intros [?|[ [= ->] [? ?]]].
  - assert (k' ≠ "") by (intros ->; done).
    destruct (Js.startsWith "default-" k') eqn:Ed; cbn.
    + split; [auto|]. intros [?|[ [= ->] [? ?]]]; [done|congruence].
    + rewrite elem_of_union, elem_of_singleton. split.
      * intros [?| ->]; [by left|by right].
      * intros [?|[ [= ->] _]]; [by left|by right].
Qed.

Lemma elem_of_collect_panels (panels : list (Panel.t string)) acc k :
  k ∈ foldl (λ s panel, collectAsset (Some (Panel.imageAssetKey panel)) s)
        acc panels
  ↔ k ∈ acc ∨ (∃ p, p ∈ panels ∧ k = Panel.imageAssetKey p) ∧ realKey k.
Proof.
  revert acc. induction panels as [|p ps IH]; intros acc; cbn [foldl].
  - split; [auto|]. intros [?|[(p & Hp & _) _]]; [done|]. by apply elem_of_nil in Hp.
  - rewrite IH, elem_of_collectAsset. split.
    + intros [[?|[ [= <-] ?]]|[(q & ? & ?) ?]]; [by left|right..].
      * split; [|done]. exists p. split; [left|done].
      * split; [|done]. exists q. split; [by right|done].
    + intros [?|[(q & [->|?]%elem_of_cons & ->) ?]]; [by left; left|..].
      * left; right. done.
      * right. split; [|done]. by exists q.
Qed.

Lemma elem_of_referencedAssets s k :
  k ∈ referencedAssets s ↔ reachableKey s k ∧ realKey k.
Proof.
  unfold referencedAssets, reachableKey.
  rewrite elem_of_collect_panels, !elem_of_collectAsset, elem_of_empty.
  destruct (TitlePage.logo (Project.titlePage s)) as [tl|],
           (EndPage.logo (Project.endPage s)) as [el|]; cbn; naive_solver.
Qed.

Lemma addReferenced_lookup assets refs k :
  (k ∈ refs ∧ k ≠ "" → addReferenced assets refs !! k = fileBytes <$> assets !! k)
  ∧ (¬ (k ∈ refs ∧ k ≠ "") → addReferenced assets refs !! k = None).
Proof.
  unfold addReferenced.
  apply (set_fold_ind_L
           (λ folder X,
              (k ∈ X ∧ k ≠ "" → folder !! k = fileBytes <$> assets !! k)
              ∧ (¬ (k ∈ X ∧ k ≠ "") → folder !! k = None))).
  - split; [set_solver|]. intros _. apply lookup_empty.
  - intros x X folder Hx [IH1 IH2]. unfold getAssetFile.
    destruct (decide (k = x)) as [->|Hne].
    + destruct (Js.falsy x) eqn:Ef.
      * apply falsy_spec in Ef. split; [tauto|]. intros _. apply IH2. tauto.
      * assert (x ≠ "") by (intros ->; done).
        split; [intros _|set_solver].
        destruct (assets !! x) eqn:E; cbn; [by rewrite lookup_insert_eq|].
        apply IH2. tauto.
    + assert (k ∈ {[x]} ∪ X ∧ k ≠ "" ↔ k ∈ X ∧ k ≠ "") as Hiff by set_solver.
      rewrite Hiff.
      destruct (Js.falsy x); [done|]. destruct (assets !! x); [|done].
      by rewrite lookup_insert_ne.
Qed.

Lemma elem_of_dom_addReferenced assets refs k :
  k ∈ dom (addReferenced assets refs)
  ↔ k ∈ refs ∧ k ≠ "" ∧ is_Some (assets !! k).
Proof.
  rewrite elem_of_dom. destruct (addReferenced_lookup assets refs k) as [H1 H2].
  destruct (decide (k ∈ refs ∧ k ≠ "")) as [Hin|Hout].
  - rewrite (H1 Hin), fmap_is_Some. tauto.
  - rewrite (H2 Hout). split; [by intros [? ?]|tauto].
Qed.


(** ** Saving: placeholders *)

Lemma append_nonempty a b : b ≠ "" → a +:+ b ≠ "".
Proof. destruct a; [done|]. by intros _. Qed.

Lemma default_filename p k :
  defaultPath p →
  Js.or_else (default "" (Js.pop (Js.split "/" p))) k
  = default "" (Js.pop (Js.split "/" p)).
Proof. by intros [-> | ->]. Qed.

Lemma default_extension p blob :
  defaultPath p → getFileExtension (fileName (defaultFile p blob)) = ".png".
Proof. by intros [-> | ->]. Qed.

Lemma append_length a b :
  String.length (a +:+ b) = (String.length a + String.length b)%nat.
Proof. induction a as [|x a IH]; simpl; [done|]. by rewrite IH. Qed.

Lemma append_inv_tail a b t : a +:+ t = b +:+ t → a = b.
Proof.
  revert b. induction a as [|x a IH]; intros [|y b] E.
  - done.
  - apply (f_equal String.length) in E. rewrite !append_length in E.
    simpl in E. lia.
  - apply (f_equal String.length) in E. rewrite !append_length in E.
    simpl in E. lia.
  - injection E as -> E. f_equal. by apply IH.
Qed.

Lemma materialized_step h rt0 rt rt' k' :
  (uuids rt ≤ uuids rt')%nat →
  (length (fetched rt) ≤ length (fetched rt'))%nat →
  (Inj (=) (=) (uuidv4 h) →
   ∀ n, (n < uuids rt)%nat →
        assetMap rt' !! (uuidv4 h n +:+ ".png")
        = assetMap rt !! (uuidv4 h n +:+ ".png")) →
  materialized h rt0 rt k' → materialized h rt0 rt' k'.
Proof.
  intros Hu Hf Hkeep (n & i & path & blob & Hn & -> & Hp & Hi & Hfetch & Hfile).
  exists n, i, path, blob. split_and!; try done; try lia.
  intros Hinj. rewrite Hkeep by (done || lia). by apply Hfile.
Qed.

Lemma processAndMapAsset_step h rt0 P f st k path :
  defaultPath path →
  SaveInv h rt0 P f st →
  let r := processAndMapAsset h k path st in
  SaveInv h rt0 (P ∪ placeholderOf (Some k))
    (f + emptied (Some k) (Some r.1)) r.2
  ∧ rewritten r.2.1 k r.1
  ∧ st.1 ⊆ r.2.1.
Proof.
  intros Hpath [Hdom Hu Hf Hkeys Hassets Hsucc Hoff]. destruct st as [cache rt].
  cbn [fst snd] in *.
  unfold processAndMapAsset, rewritten, emptied, placeholderOf, isPlaceholder.
  destruct (Js.startsWith "default-" k) eqn:Ed; cbn [andb].
  2:{ cbn [fst snd].
      split_and!; [split; cbn [fst snd uuids fetched assetMap]|..]; try done.
      - set_solver.
      - lia.
      - intros Hs. destruct (Hsucc Hs). split; [set_solver|lia]. }
  destruct (cache !! k) as [k0|] eqn:Ec.
  { destruct (Hkeys _ _ Ec) as (? & Hne & ?). cbn [fst snd].
    assert (Js.falsy k0 = false) as -> by (by destruct k0).
    assert (k ∈ dom cache) by (apply elem_of_dom; eauto).
    split_and!; [split; cbn [fst snd uuids fetched assetMap]|..]; try done.
    - set_solver.
    - lia.
    - intros Hs. destruct (Hsucc Hs). split; [set_solver|lia].
    - by right. }
  destruct (fetch h (length (fetched rt)) (getFetchableUrl h path))
    as [blob|] eqn:Efetch.
  - rewrite (default_filename _ k Hpath).
    change (newFile blob (default "" (Js.pop (Js.split "/" path)))
              (blobType blob)) with (defaultFile path blob).
    unfold addAsset. rewrite (default_extension _ _ Hpath). cbn [fst snd].
    set (k' := uuidv4 h (uuids rt) +:+ ".png").
    assert (k' ≠ "") as Hne by (by apply append_nonempty).
    assert (Js.falsy k' = false) as -> by (by destruct k').
    split_and!; [split; cbn [fst snd uuids fetched assetMap]|..].
    + rewrite dom_insert. set_solver.
    + rewrite map_size_insert_None by done. lia.
    + rewrite map_size_insert_None, length_app by done. cbn. lia.
    + intros k1 k1'. rewrite lookup_insert. case_decide as Hk.
      * intros [= <-]. rewrite lookup_insert_eq. split_and!; [by eexists|done|].
        exists (uuids rt), (length (fetched rt)), path, blob.
        cbn [uuids fetched assetMap]. rewrite length_app. cbn.
        split_and!; try done; try lia. intros _. apply lookup_insert_eq.
      * intros Hl. destruct (Hkeys _ _ Hl) as ([file Hfile] & ? & Hmat).
        split_and!; [|done|].
        -- rewrite lookup_insert. case_decide; eauto.
        -- revert Hmat. apply materialized_step; cbn [uuids fetched assetMap].
           ++ lia.
           ++ rewrite length_app. lia.
           ++ intros Hinj n Hn. apply lookup_insert_ne. unfold k'.
              intros E%append_inv_tail%Hinj. lia.
    + rewrite dom_insert. set_solver.
    + intros Hs. destruct (Hsucc Hs). rewrite dom_insert.
      split; [set_solver|lia].
    + intros Hn. by rewrite Hn in Efetch.
    + right. by rewrite lookup_insert_eq.
    + by apply insert_subseteq.
  - cbn [fst snd Js.falsy].
    split_and!; [split; cbn [fst snd uuids fetched assetMap]|..]; try done.
    + set_solver.
    + rewrite length_app. cbn. lia.
    + intros k1 k1' Hl. destruct (Hkeys _ _ Hl) as (? & ? & Hmat).
      split_and!; [done..|]. revert Hmat.
      apply materialized_step; cbn [uuids fetched assetMap]; [lia| |done].
      rewrite length_app. lia.
    + intros Hs.
      destruct (Hs (length (fetched rt)) (getFetchableUrl h path)) as [? Hx].
      congruence.
    + by left.
Qed.

Lemma rewritten_weaken c c' k k' : c ⊆ c' → rewritten c k k' → rewritten c' k k'.
Proof.
  unfold rewritten. intros Hc. destruct (isPlaceholder k); [|done].
  intros [?|Hl]; [by left|right]. by eapply lookup_weaken.
Qed.

Lemma rewrittenOpt_weaken c c' o o' :
  c ⊆ c' → rewrittenOpt c o o' → rewrittenOpt c' o o'.
Proof. destruct o, o'; cbn; eauto using rewritten_weaken. Qed.

Lemma mapLogo_step h rt0 P f st logo :
  SaveInv h rt0 P f st →
  let r := mapLogo h logo st in
  SaveInv h rt0 (P ∪ placeholderOf (Logo.assetKey <$> logo))
    (f + emptied (Logo.assetKey <$> logo) (Logo.assetKey <$> r.1)) r.2
  ∧ rewrittenOpt r.2.1 (Logo.assetKey <$> logo) (Logo.assetKey <$> r.1)
  ∧ st.1 ⊆ r.2.1
  ∧ blankLogoKey <$> r.1 = blankLogoKey <$> logo.
Proof.
  intros Hinv. destruct logo as [l|]; cbn [mapLogo fmap option_fmap option_map].
  - pose proof (processAndMapAsset_step h rt0 P f st (Logo.assetKey l)
                  content.defaultLogoPath (or_intror eq_refl) Hinv) as Hstep.
    destruct (processAndMapAsset h (Logo.assetKey l) content.defaultLogoPath st)
      as [k' st']. cbn [fst snd] in *.
    destruct Hstep as (? & ? & ?). done.
  - cbn. rewrite union_empty_r_L, Nat.add_0_r. done.
Qed.

Lemma saveInv_init h rt : SaveInv h rt ∅ 0 (∅, rt).
Proof.
  split; cbn [fst snd]; rewrite ?map_size_empty, ?dom_empty_L; try done; try lia.
Qed.

Lemma rewriteState_spec h state rt :
  let r := rewriteState h state (∅, rt) in
  SaveInv h rt (placeholders state) (failedRefs state r.1) r.2
  ∧ rewritten r.2.1 (titleBgKey state) (titleBgKey r.1)
  ∧ rewrittenOpt r.2.1 (titleLogoKey state) (titleLogoKey r.1)
  ∧ rewritten r.2.1 (endBgKey state) (endBgKey r.1)
  ∧ rewrittenOpt r.2.1 (endLogoKey state) (endLogoKey r.1)
  ∧ blankPageKeys r.1 = blankPageKeys state.
Proof.
  unfold rewriteState.
  pose proof (saveInv_init h rt) as I0.
  pose proof (processAndMapAsset_step h rt _ _ _ (titleBgKey state)
                content.defaultBackgroundPath (or_introl eq_refl) I0) as S1.
  unfold titleBgKey in S1.
  destruct (processAndMapAsset h _ content.defaultBackgroundPath (∅, rt))
    as [tbg st1]. cbn [fst snd] in S1. destruct S1 as (I1 & R1 & _).
  pose proof (mapLogo_step h rt _ _ _
                (TitlePage.logo (Project.titlePage state)) I1) as S2.
  destruct (mapLogo h _ st1) as [tlogo st2]. cbn [fst snd] in S2.
  destruct S2 as (I2 & R2 & C2 & F2).
  pose proof (processAndMapAsset_step h rt _ _ _ (endBgKey state)
                content.defaultBackgroundPath (or_introl eq_refl) I2) as S3.
  unfold endBgKey in S3.
  destruct (processAndMapAsset h _ content.defaultBackgroundPath st2)
    as [ebg st3]. cbn [fst snd] in S3. destruct S3 as (I3 & R3 & C3).
  pose proof (mapLogo_step h rt _ _ _
                (EndPage.logo (Project.endPage state)) I3) as S4.
  destruct (mapLogo h _ st3) as [elogo st4]. cbn [fst snd] in S4.
  destruct S4 as (I4 & R4 & C4 & F4).
  cbn [fst snd]. split_and!.
  - unfold placeholders, failedRefs, titleBgKey, titleLogoKey, endBgKey, endLogoKey.
    cbn. rewrite union_empty_l_L in I4. exact I4.
  - apply (rewritten_weaken st1.1); [by etrans; [|etrans]|done].
  - apply (rewrittenOpt_weaken st2.1); [by etrans|done].
  - by apply (rewritten_weaken st3.1).
  - done.
  - unfold blankPageKeys. cbn. by rewrite F2, F4.
Qed.

Lemma materializedFrom_step h rt0 rt rt' path k' :
  (uuids rt ≤ uuids rt')%nat →
  fetched rt `prefix_of` fetched rt' →
  (Inj (=) (=) (uuidv4 h) →
   ∀ n, (n < uuids rt)%nat →
        assetMap rt' !! (uuidv4 h n +:+ ".png")
        = assetMap rt !! (uuidv4 h n +:+ ".png")) →
  materializedFrom h rt0 rt path k' → materializedFrom h rt0 rt' path k'.
Proof.
  intros Hu [l Hf] Hkeep (n & i & blob & Hn & -> & Hi & Hlog & Hfetch & Hfile).
  exists n, i, blob. split_and!; try done; try lia.
  - rewrite Hf. by apply lookup_app_l_Some.
  - intros Hinj. rewrite Hkeep by (done || lia). by apply Hfile.
Qed.

Lemma processAndMapAsset_paths h rt0 P f R st k path :
  defaultPath path →
  SaveInv h rt0 P f st →
  PathInv h rt0 R st →
  PathInv h rt0 (λ k0 p, R k0 p ∨ (k0 = k ∧ p = path))
    (processAndMapAsset h k path st).2.
Proof.
  intros Hpath [Hdom Hu Hf Hkeys Hassets Hsucc Hoff] HP.
  destruct st as [cache rt]. cbn [fst snd] in *.
  assert (∀ R' : string → string → Prop,
            (∀ k0 p, R k0 p → R' k0 p) → PathInv h rt0 R' (cache, rt)) as Hweak.
  { intros R' HR k0 k0' Hl. destruct (HP k0 k0' Hl) as (p & ? & ? & ?).
    exists p. split_and!; [by apply HR|done..]. }
  unfold processAndMapAsset.
  destruct (Js.startsWith "default-" k) eqn:Ed; [|apply Hweak; by left].
  destruct (cache !! k) as [k0|] eqn:Ec; [apply Hweak; by left|].
  destruct (fetch h (length (fetched rt)) (getFetchableUrl h path))
    as [blob|] eqn:Efetch.
  - rewrite (default_filename _ k Hpath).
    change (newFile blob (default "" (Js.pop (Js.split "/" path)))
              (blobType blob)) with (defaultFile path blob).
    unfold addAsset. rewrite (default_extension _ _ Hpath). cbn [fst snd].
    intros k1 k1'. cbn [fst snd]. rewrite lookup_insert. case_decide as Hk.
    + intros [= <-]. subst k1. exists path. split_and!; [by right|done|].
      exists (uuids rt), (length (fetched rt)), blob.
      cbn [uuids fetched assetMap].
      split_and!; try done; try lia.
      * rewrite lookup_app_r by done. by rewrite Nat.sub_diag.
      * intros _. apply lookup_insert_eq.
    + intros Hl. destruct (HP _ _ Hl) as (p & HR & Hp & Hmat).
      exists p. split_and!; [by left|done|]. revert Hmat.
      apply (materializedFrom_step h rt0 rt); cbn [snd uuids fetched assetMap].
      * lia.
      * by apply prefix_app_r.
      * intros Hinj n Hn. apply lookup_insert_ne.
        intros E%append_inv_tail%Hinj. lia.
  - cbn [snd]. intros k1 k1' Hl. cbn [fst] in Hl.
    destruct (HP _ _ Hl) as (p & HR & Hp & Hmat).
    exists p. split_and!; [by left|done|]. revert Hmat.
    apply (materializedFrom_step h rt0 rt); cbn [snd uuids fetched assetMap];
      [lia|by apply prefix_app_r|done].
Qed.

Lemma mapLogo_paths h rt0 P f R st logo :
  SaveInv h rt0 P f st →
  PathInv h rt0 R st →
  PathInv h rt0
    (λ k0 p, R k0 p ∨ (Logo.assetKey <$> logo = Some k0
                       ∧ p = content.defaultLogoPath))
    (mapLogo h logo st).2.
Proof.
  intros I HP. destruct logo as [l|]; cbn [mapLogo].
  - pose proof (processAndMapAsset_paths h rt0 P f R st (Logo.assetKey l)
                  content.defaultLogoPath (or_intror eq_refl) I HP) as H.
    destruct (processAndMapAsset h (Logo.assetKey l) content.defaultLogoPath st)
      as [k' st']. cbn [fst snd] in *.
    intros k0 k0' Hl. destruct (H k0 k0' Hl) as (p & [HR|[-> ->]] & ? & ?).
    + exists p. split_and!; [by left|done..].
    + exists content.defaultLogoPath. split_and!; [by right|done..].
  - cbn [snd]. intros k0 k0' Hl. destruct (HP k0 k0' Hl) as (p & ? & ? & ?).
    exists p. split_and!; [by left|done..].
Qed.

Lemma rewriteState_paths h state rt :
  PathInv h rt (refPath state) (rewriteState h state (∅, rt)).2.
Proof.
  unfold rewriteState.
  pose proof (saveInv_init h rt) as I0.
  assert (PathInv h rt (λ _ _, False) (∅, rt)) as P0.
  { intros k k' Hl. cbn in Hl. by rewrite lookup_empty in Hl. }
  pose proof (processAndMapAsset_step h rt _ _ _ (titleBgKey state)
                content.defaultBackgroundPath (or_introl eq_refl) I0) as S1.
  pose proof (processAndMapAsset_paths h rt _ _ _ _ (titleBgKey state)
                content.defaultBackgroundPath (or_introl eq_refl) I0 P0) as Q1.
  unfold titleBgKey in S1, Q1.
  destruct (processAndMapAsset h _ content.defaultBackgroundPath (∅, rt))
    as [tbg st1]. cbn [fst snd] in S1, Q1. destruct S1 as (I1 & _ & _).
  pose proof (mapLogo_step h rt _ _ _
                (TitlePage.logo (Project.titlePage state)) I1) as S2.
  pose proof (mapLogo_paths h rt _ _ _ _
                (TitlePage.logo (Project.titlePage state)) I1 Q1) as Q2.
  destruct (mapLogo h _ st1) as [tlogo st2]. cbn [fst snd] in S2, Q2.
  destruct S2 as (I2 & _).
  pose proof (processAndMapAsset_step h rt _ _ _ (endBgKey state)
                content.defaultBackgroundPath (or_introl eq_refl) I2) as S3.
  pose proof (processAndMapAsset_paths h rt _ _ _ _ (endBgKey state)
                content.defaultBackgroundPath (or_introl eq_refl) I2 Q2) as Q3.
  unfold endBgKey in S3, Q3.
  destruct (processAndMapAsset h _ content.defaultBackgroundPath st2)
    as [ebg st3]. cbn [fst snd] in S3, Q3. destruct S3 as (I3 & _).
  pose proof (mapLogo_paths h rt _ _ _ _
                (EndPage.logo (Project.endPage state)) I3 Q3) as Q4.
  destruct (mapLogo h _ st3) as [elogo st4]. cbn [fst snd] in Q4 |- *.
  intros k k' Hl. destruct (Q4 k k' Hl) as (p & HR & Hp & Hm).
  exists p. split_and!; [|done..]. unfold refPath, titleBgKey, titleLogoKey,
    endBgKey, endLogoKey. naive_solver.
Qed.

(** ** Saving and loading: the document *)

Lemma loadAssets_lookup h folder k :
  loadAssets h folder ∅ !! k
  = (λ bytes, mkFile k (zipBlobType h) bytes) <$> folder !! k.
Proof.
  unfold loadAssets.
  apply (map_fold_weak_ind
           (λ acc (m : gmap string (list Byte.byte)),
              acc !! k = (λ bytes, mkFile k (zipBlobType h) bytes) <$> m !! k)).
  - by rewrite !lookup_empty.
  - intros i x m acc Hi IH. unfold setAsset.
    rewrite !lookup_insert. by case_decide; subst.
Qed.

Lemma loadAssets_dom h folder : dom (loadAssets h folder ∅) = dom folder.
Proof.
  apply set_eq. intros k. rewrite !elem_of_dom, loadAssets_lookup.
  by rewrite fmap_is_Some.
Qed.

Lemma toProjectJson_idemp {D L} (s : Project.t D L) :
  toProjectJson (toProjectJson s) = toProjectJson s.
Proof.
  unfold toProjectJson. cbn. f_equal.
  - f_equal. by destruct (TitlePage.logo (Project.titlePage s)).
  - rewrite <-list_fmap_compose. by apply list_fmap_ext.
  - f_equal. by destruct (EndPage.logo (Project.endPage s)).
Qed.

Lemma loadProject_toProjectJson current (project : Project.t string unit) :
  Project.projectTitle project ≠ "" →
  toProjectJson (loadProject current project) = toProjectJson project.
Proof.
  intros Hne. unfold loadProject.
  destruct (Js.falsy (Project.projectTitle project)) eqn:E; [|done].
  by apply falsy_spec in E.
Qed.

Lemma rewriteState_title h state st :
  Project.projectTitle (rewriteState h state st).1 = Project.projectTitle state.
Proof. unfold rewriteState. by repeat case_match. Qed.

Lemma saveProject_unfold h state rt :
  saveProject h state rt
  = (let r := rewriteState h state (∅, rt) in
     (mkZip (Some (toProjectJson r.1))
        (addReferenced (assetMap r.2.2) (referencedAssets r.1)), r.2.2)).
Proof.
  unfold saveProject. cbv zeta.
  by destruct (rewriteState h state (∅, rt)) as [s [c r]].
Qed.

Lemma processProjectFile_assets h zip app j :
  projectJson zip = Some j →
  appAssets (processProjectFile h zip app) = loadAssets h (assetsFolder zip) ∅.
Proof.
  intros Hj. unfold processProjectFile. rewrite Hj.
  by destruct (hydrateState h _ j (appUrls app)).
Qed.

Lemma round_trip_document h state rt app :
  Project.projectTitle state ≠ "" →
  toProjectJson
    (appStore (processProjectFile h (saveProject h state rt).1 app))
  = toProjectJson (rewriteState h state (∅, rt)).1.
Proof.
  intros Hne. rewrite saveProject_unfold. cbv zeta. cbn [fst].
  unfold processProjectFile. cbn [projectJson assetsFolder].
  set (j := toProjectJson (rewriteState h state (∅, rt)).1).
  pose proof (hydrateState_toProjectJson h
    (loadAssets h (addReferenced (assetMap (rewriteState h state (∅, rt)).2.2)
                     (referencedAssets (rewriteState h state (∅, rt)).1))
       (clearAssets (appAssets app))) j (appUrls app)) as HJ.
  destruct (hydrateState h _ j (appUrls app)) as [loaded urls]. cbn [fst] in *.
  pose proof (f_equal Project.projectTitle HJ) as HT. cbn in HT.
  cbn [appStore]. rewrite loadProject_toProjectJson.
  - rewrite HJ. apply toProjectJson_idemp.
  - rewrite HT. unfold j. cbn. by rewrite rewriteState_title.
Qed.


(** A placeholder can be fetched more than once in a save.  On a host whose
    first fetch rejects, the initial project (two distinct placeholders) is
    saved with three fetches: the background is fetched for the title page,
    where the fetch rejects and the reference is left empty, and again for
    the end page.  On a host where every fetch rejects there are four
    fetches, one per reference. *)
Lemma placeholder_fetched_twice :
  size (placeholders (initialState flakyHost)) = 2%nat
  ∧ fetched (rewriteState flakyHost (initialState flakyHost)
               (∅, emptyRuntime)).2.2
    = ["/images/default_BG.png"; "/images/default_logo.png";
       "/images/default_BG.png"]
  ∧ titleBgKey (rewriteState flakyHost (initialState flakyHost)
                  (∅, emptyRuntime)).1 = ""
  ∧ endBgKey (rewriteState flakyHost (initialState flakyHost)
                (∅, emptyRuntime)).1 = sampleUuid 1 +:+ ".png"
  ∧ size (placeholders (initialState offlineHost)) = 2%nat
  ∧ length (fetched (rewriteState offlineHost (initialState offlineHost)
                       (∅, emptyRuntime)).2.2) = 4%nat.
Proof. split_and!; by vm_compute. Qed.


(** C4 (amended).  In one save every page reference that holds a default
    placeholder is rewritten either to the key under which its bytes were
    registered or to the empty string.  The cache holds one generated key per
    distinct placeholder that was materialized: a fresh identifier followed
    by [.png], registered in the asset map, and generated for the default
    path of a reference that holds the placeholder (the background path for
    a background reference, the logo path for a logo reference): a fetch of
    the save asked for the URL of that path and resolved, and, identifiers
    being distinct, the asset map holds the file built from its blob.  So
    the key of a placeholder that no logo reference holds stands for the
    default background, and the key of one that no background reference
    holds for the default logo.  As many identifiers were drawn as the cache
    has entries.  The fetches made are one per materialized placeholder plus
    one per reference left empty, a rejected fetch being tried again for the
    next reference that holds the placeholder: when every fetch resolves that
    is exactly one fetch per distinct placeholder and no reference is left
    empty.  A placeholder found in the cache is answered from it without
    fetch or registration.  A fetch that rejects leaves the reference empty
    and changes neither cache nor asset map, and the save still produces its
    manifest. *)
Theorem placeholder_materialization (h : Host) (state : ProjectState)
    (rt : Runtime) :
  let r := rewriteState h state (∅, rt) in
  let savable := r.1 in
  let cache := r.2.1 in
  let rt' := r.2.2 in
  (rewritten cache (titleBgKey state) (titleBgKey savable)
   ∧ rewrittenOpt cache (titleLogoKey state) (titleLogoKey savable)
   ∧ rewritten cache (endBgKey state) (endBgKey savable)
   ∧ rewrittenOpt cache (endLogoKey state) (endLogoKey savable))
  ∧ dom cache ⊆ placeholders state
  ∧ uuids rt' = (uuids rt + size cache)%nat
  ∧ (∀ k k', cache !! k = Some k' →
       k' ≠ "" ∧ is_Some (assetMap rt' !! k')
       ∧ ∃ path, refPath state k path ∧ materializedFrom h rt rt' path k')
  ∧ (∀ k k', cache !! k = Some k' →
       titleLogoKey state ≠ Some k → endLogoKey state ≠ Some k →
       materializedFrom h rt rt' content.defaultBackgroundPath k')
  ∧ (∀ k k', cache !! k = Some k' →
       titleBgKey state ≠ k → endBgKey state ≠ k →
       materializedFrom h rt rt' content.defaultLogoPath k')
  ∧ length (fetched rt')
    = (length (fetched rt) + size cache + failedRefs state savable)%nat
  ∧ (allFetchesSucceed h →
       dom cache = placeholders state
       ∧ failedRefs state savable = 0%nat
       ∧ length (fetched rt')
         = (length (fetched rt) + size (placeholders state))%nat)
  ∧ (∀ k k' path st, isPlaceholder k = true → st.1 !! k = Some k' →
       processAndMapAsset h k path st = (k', st))
  ∧ (∀ k path st, isPlaceholder k = true → st.1 !! k = None →
       fetch h (length (fetched st.2)) (getFetchableUrl h path) = None →
       processAndMapAsset h k path st
       = ("", (st.1, mkRuntime (assetMap st.2) (uuids st.2)
                       (fetched st.2 ++ [getFetchableUrl h path])%list)))
  ∧ ((∀ n url, fetch h n url = None) →
       cache = ∅
       ∧ (isPlaceholder (titleBgKey state) = true → titleBgKey savable = "")
       ∧ (isPlaceholder (endBgKey state) = true → endBgKey savable = ""))
  ∧ projectJson (saveProject h state rt).1 = Some (toProjectJson savable)
  ∧ (saveProject h state rt).2 = rt'.
Proof.
  cbv zeta.
  destruct (rewriteState_spec h state rt) as (I & R1 & R2 & R3 & R4 & F).
  pose proof (rewriteState_paths h state rt) as HP.
  rewrite (saveProject_unfold h state rt). cbv zeta. cbn [fst snd projectJson].
  destruct I as [Hdom Hu Hf Hkeys Hassets Hsucc Hoff].
  split_and!; try done.
  - intros k k' Hk. destruct (Hkeys k k' Hk) as (? & ? & ?).
    destruct (HP k k' Hk) as (path & ? & ? & ?). split_and!; [done..|].
    by exists path.
  - intros k k' Hk Ht He.
    destruct (HP k k' Hk) as (path & [[_ ->]|[[? _]|[[_ ->]|[? _]]]] & _ & ?);
      done.
  - intros k k' Hk Ht He.
    destruct (HP k k' Hk) as (path & [[? _]|[[_ ->]|[[? _]|[_ ->]]]] & _ & ?);
      done.
  - intros Hs. destruct (Hsucc Hs) as [Hsub H0].
    assert (dom (rewriteState h state (∅, rt)).2.1 = placeholders state) as E
      by set_solver.
    split_and!; [done..|]. rewrite Hf, H0, <-E, size_dom. lia.
  - intros k k' path [c r] Hp Hc. unfold processAndMapAsset.
    unfold isPlaceholder in Hp. cbn [fst] in Hc. by rewrite Hp, Hc.
  - intros k path [c r] Hp Hc Hfetch. unfold processAndMapAsset.
    unfold isPlaceholder in Hp. cbn [fst snd] in *. by rewrite Hp, Hc, Hfetch.
  - intros Hn. specialize (Hoff Hn). rewrite Hoff in R1, R3.
    split_and!; [done|..].
    + intros Hp. unfold rewritten in R1. rewrite Hp in R1.
      destruct R1 as [?|R1]; [done|]. by rewrite lookup_empty in R1.
    + intros Hp. unfold rewritten in R3. rewrite Hp in R3.
      destruct R3 as [?|R3]; [done|]. by rewrite lookup_empty in R3.
Qed.


Lemma placeholder_materialization_witness :
  length (fetched (rewriteState sampleHost (initialState sampleHost)
                     (∅, emptyRuntime)).2.2) = 2%nat
  ∧ titleBgKey (rewriteState offlineHost (initialState offlineHost)
                  (∅, emptyRuntime)).1 = ""
  ∧ materializedFrom sampleHost emptyRuntime
      (rewriteState sampleHost (initialState sampleHost)
         (∅, emptyRuntime)).2.2
      content.defaultBackgroundPath (sampleUuid 0 +:+ ".png").
Proof.
  split_and!.
  - destruct (placeholder_materialization sampleHost (initialState sampleHost)
                emptyRuntime) as (_ & _ & _ & _ & _ & _ & _ & Hs & _).
    destruct Hs as (_ & _ & ->); [by eexists|]. by vm_compute.
  - destruct (placeholder_materialization offlineHost (initialState offlineHost)
                emptyRuntime)
      as (_ & _ & _ & _ & _ & _ & _ & _ & _ & _ & Hoff & _).
    destruct Hoff as (_ & H & _); [done|]. by apply H.
  - destruct (placeholder_materialization sampleHost (initialState sampleHost)
                emptyRuntime) as (_ & _ & _ & _ & Hb & _).
    apply (Hb "default-background"); by vm_compute.
Defined.

(** ** Saving: the archive entries *)

(** The asset entries of a state whose only panel key has no file in the
    store: the key is reachable, neither empty nor a placeholder, and yet
    absent from the archive. *)
Lemma lost_asset_not_archived :
  reachableKey
    (rewriteState sampleHost lostAssetState (∅, emptyRuntime)).1 "lost.png"
  ∧ realKey "lost.png"
  ∧ "lost.png"
    ∉ dom (assetsFolder
             (saveProject sampleHost lostAssetState emptyRuntime).1).
Proof.
  split_and!.
  - repeat right. exists (Panel.mk "p1" "" "lost.png" "").
    split; [|reflexivity].
    change (Project.panels
              (rewriteState sampleHost lostAssetState (∅, emptyRuntime)).1)
      with [Panel.mk (D:=string) "p1" "" "lost.png" ""]. by left.
  - by split.
  - rewrite not_elem_of_dom. by vm_compute.
Qed.


(** C3 (amended).  After a save the entry names of the [assets] folder are
    exactly the reachable keys of the rewritten copy that are non-empty, not
    placeholders and have a file in the asset map; each entry holds the bytes
    of that file.  When every such reachable key has a file, the entry names
    are exactly the reachable, non-empty, non-placeholder keys. *)
Theorem archive_assets (h : Host) (state : ProjectState) (rt : Runtime) :
  let saved := saveProject h state rt in
  let savable := (rewriteState h state (∅, rt)).1 in
  let folder := assetsFolder saved.1 in
  (∀ k, k ∈ dom folder
        ↔ reachableKey savable k ∧ realKey k
          ∧ is_Some (assetMap saved.2 !! k))
  ∧ (∀ k, k ∈ dom folder → folder !! k = fileBytes <$> assetMap saved.2 !! k)
  ∧ ((∀ k, reachableKey savable k → realKey k →
           is_Some (assetMap saved.2 !! k)) →
     ∀ k, k ∈ dom folder ↔ reachableKey savable k ∧ realKey k).
Proof.
  cbv zeta. rewrite saveProject_unfold. cbv zeta. cbn [fst snd assetsFolder].
  set (savable := (rewriteState h state (∅, rt)).1).
  set (assets := assetMap (rewriteState h state (∅, rt)).2.2).
  assert (∀ k, k ∈ dom (addReferenced assets (referencedAssets savable))
               ↔ reachableKey savable k ∧ realKey k ∧ is_Some (assets !! k))
    as Hdom.
  { intros k. rewrite elem_of_dom_addReferenced, elem_of_referencedAssets.
    unfold realKey. tauto. }
  split_and!.
  - done.
  - intros k Hk. apply Hdom in Hk as (Hr & Hreal & _).
    apply addReferenced_lookup. split; [|apply Hreal].
    by apply elem_of_referencedAssets.
  - intros Hall k. rewrite Hdom. split; [tauto|].
    intros [? ?]. split_and!; [done..|]. by apply Hall.
Qed.


Lemma archive_assets_witness :
  sampleKey ∈ dom (assetsFolder
                     (saveProject sampleHost (initialState sampleHost)
                        emptyRuntime).1)
  ↔ reachableKey
      (rewriteState sampleHost (initialState sampleHost)
         (∅, emptyRuntime)).1 sampleKey
    ∧ realKey sampleKey.
Proof.
  apply (archive_assets sampleHost (initialState sampleHost) emptyRuntime).
  intros k Hr [Hne Hd].
  destruct Hr as [->|[(l & Hl & ->)|[->|[(l & Hl & ->)|(p & Hp & ->)]]]].
  - by eexists.
  - vm_compute in Hl. injection Hl as <-. by eexists.
  - by eexists.
  - vm_compute in Hl. injection Hl as <-. by eexists.
  - exfalso. apply Hne. revert Hp.
    change (Project.panels
              (rewriteState sampleHost (initialState sampleHost)
                 (∅, emptyRuntime)).1)
      with (createInitialPanels sampleHost 0 6).
    unfold createInitialPanels. intros (i & -> & _)%list_elem_of_fmap. done.
Defined.


(** ** Loading *)

(** A package without manifest clears the asset map all the same. *)
Lemma missing_manifest_clears_store :
  projectJson noManifestZip = None
  ∧ appAssets sampleApp !! "shot.png" = Some sampleFile
  ∧ appAssets (processProjectFile sampleHost noManifestZip sampleApp) !! "shot.png" = None.
Proof. split_and!; reflexivity. Qed.


(** C2 (amended).  Loading a package that has no [project.json] shows the
    invalid-file alert and stops there: the project in the store and the
    object-URL counter are as before and no entry of the package is
    registered; the asset map, cleared before the check, is empty. *)
Theorem missing_manifest (h : Host) (zip : Zip) (app : App) :
  projectJson zip = None →
  let app' := processProjectFile h zip app in
  appStore app' = appStore app
  ∧ appUrls app' = appUrls app
  ∧ appAlerts app' = (appAlerts app ++ [content.loadError])%list
  ∧ appAssets app' = ∅.
Proof. intros Hz. unfold processProjectFile. by rewrite Hz. Qed.


Lemma missing_manifest_witness :
  appAssets (processProjectFile sampleHost noManifestZip sampleApp) = ∅.
Proof. apply (missing_manifest sampleHost noManifestZip sampleApp eq_refl). Defined.


(** ** Round trip *)

(** A project with an empty title and no placeholder does not come back as
    it was saved: the load puts the title page header in place of the
    title. *)
Lemma round_trip_empty_title :
  (rewriteState sampleHost untitledState (∅, emptyRuntime)).1 = untitledState
  ∧ toProjectJson
      (appStore
         (processProjectFile sampleHost
            (saveProject sampleHost untitledState emptyRuntime).1 sampleApp))
    ≠ toProjectJson untitledState.
Proof.
  split; [by vm_compute|]. intros H.
  apply (f_equal Project.projectTitle) in H. vm_compute in H. discriminate.
Qed.


(** C1 (amended).  For a project with a non-empty title, loading the archive
    that a save produced yields a state whose document (every field but the
    display references and [isLoading]) is that of the rewritten copy; the
    rewritten copy differs from the saved state in its four page references
    only, a reference that is no placeholder being kept and a placeholder
    being replaced by the generated key the cache holds for it, or by the
    empty string when its fetch failed.  Within the save a placeholder is
    registered at most once: the cache has one entry per materialized
    placeholder, as many identifiers are drawn as it has entries, and a
    cached placeholder is answered without fetch or registration. *)
Theorem archive_round_trip (h : Host) (state : ProjectState) (rt : Runtime)
    (app : App) :
  Project.projectTitle state ≠ "" →
  let saved := saveProject h state rt in
  let app' := processProjectFile h saved.1 app in
  let r := rewriteState h state (∅, rt) in
  let savable := r.1 in
  let cache := r.2.1 in
  toProjectJson (appStore app') = toProjectJson savable
  ∧ dom (appAssets app') = dom (assetsFolder saved.1)
  ∧ blankPageKeys savable = blankPageKeys state
  ∧ rewritten cache (titleBgKey state) (titleBgKey savable)
  ∧ rewrittenOpt cache (titleLogoKey state) (titleLogoKey savable)
  ∧ rewritten cache (endBgKey state) (endBgKey savable)
  ∧ rewrittenOpt cache (endLogoKey state) (endLogoKey savable)
  ∧ (∀ k k', cache !! k = Some k' →
       k' ≠ "" ∧ is_Some (assetMap saved.2 !! k'))
  ∧ dom cache ⊆ placeholders state
  ∧ uuids saved.2 = (uuids rt + size cache)%nat
  ∧ (∀ k k' path st, isPlaceholder k = true → st.1 !! k = Some k' →
       processAndMapAsset h k path st = (k', st)).
Proof.
  intros Hne. cbv zeta.
  destruct (rewriteState_spec h state rt) as (I & R1 & R2 & R3 & R4 & F).
  pose proof (round_trip_document h state rt app Hne) as HD.
  assert (dom (appAssets (processProjectFile h (saveProject h state rt).1 app))
          = dom (assetsFolder (saveProject h state rt).1)) as HA.
  { erewrite processProjectFile_assets; [apply loadAssets_dom|].
    by rewrite saveProject_unfold. }
  assert ((saveProject h state rt).2 = (rewriteState h state (∅, rt)).2.2)
    as -> by (by rewrite saveProject_unfold).
  split_and!; try done.
  - intros k k' Hk. destruct (inv_keys _ _ _ _ _ I k k' Hk) as (? & ? & ?).
    done.
  - apply I.
  - apply I.
  - intros k k' path [c r] Hp Hc. unfold processAndMapAsset.
    unfold isPlaceholder in Hp. cbn [fst] in Hc. by rewrite Hp, Hc.
Qed.

Lemma archive_round_trip_witness :
  toProjectJson
    (appStore
       (processProjectFile sampleHost
          (saveProject sampleHost (initialState sampleHost) emptyRuntime).1
          sampleApp))
  = toProjectJson
      (rewriteState sampleHost (initialState sampleHost) (∅, emptyRuntime)).1.
Proof.
  apply (archive_round_trip sampleHost (initialState sampleHost) emptyRuntime
           sampleApp).
  discriminate.
Defined.


(** ** Appending strings *)

Local Ltac app_step :=
  repeat match goal with
         | |- context [String ?x ?a +:+ ?b] =>
             change (String x a +:+ b) with (String x (a +:+ b))
         | |- context [EmptyString +:+ ?b] => change (EmptyString +:+ b) with b
         end.

Lemma append_nil_r s : s +:+ "" = s.
Proof. induction s as [|a s IH]; [done|]. app_step. by rewrite IH. Qed.

Lemma append_assoc a b c : (a +:+ b) +:+ c = a +:+ b +:+ c.
Proof. induction a as [|x a IH]; [done|]. app_step. by rewrite IH. Qed.

Lemma scanParts_plain a rest plain :
  Js.includes "["%char a = false →
  scanParts (a +:+ rest) plain None = scanParts rest (plain +:+ a) None.
Proof.
  revert plain. induction a as [|c a IH]; intros plain Ha; app_step.
  - by rewrite append_nil_r.
  - simpl in Ha. apply orb_false_iff in Ha as [Hc Ha]. cbn [scanParts].
    rewrite Hc. rewrite IH by done. rewrite append_assoc. by app_step.
Qed.

Lemma scanParts_span b rest plain acc :
  Js.includes "]"%char b = false →
  scanParts (b +:+ String "]" rest) plain (Some acc)
  = plain :: (acc +:+ b +:+ "]") :: scanParts rest "" None.
Proof.
  revert acc. induction b as [|c b IH]; intros acc Hb; app_step.
  - done.
  - simpl in Hb. apply orb_false_iff in Hb as [Hc Hb]. cbn [scanParts].
    rewrite Hc. rewrite IH by done. rewrite append_assoc. by app_step.
Qed.

(** ** Script layout *)

Lemma includes_app c a b :
  Js.includes c (a +:+ b) = Js.includes c a || Js.includes c b.
Proof. induction a as [|x a IH]; simpl; [done|]. by rewrite IH, orb_assoc. Qed.

Lemma endsWithChar_app c a b :
  b ≠ "" → Js.endsWithChar c (a +:+ b) = Js.endsWithChar c b.
Proof.
  intros Hb. induction a as [|x a IH]; [done|].
  simpl. rewrite IH. destruct (a +:+ b) eqn:E; [|done].
  destruct a; simpl in E; [|done]. by subst.
Qed.

Lemma endsWithChar_includes c s :
  Js.endsWithChar c s = true → Js.includes c s = true.
Proof.
  induction s as [|x s IH]; simpl; [done|].
  destruct s as [|y s]; [by intros ->|].
  intros H. rewrite (IH H). apply orb_true_r.
Qed.

Lemma startsWith_bracket s :
  Js.startsWith "[" s = true → Js.includes "["%char s = true.
Proof.
  destruct s as [|x s]; [done|].
  change (Js.startsWith "[" (String x s))
    with (if Ascii.ascii_dec "["%char x then String.prefix "" s else false).
  destruct (Ascii.ascii_dec "["%char x) as [<-|]; [|done].
  by intros _.
Qed.

Lemma dropLast_snoc s c : Js.dropLast (s +:+ String c "") = s.
Proof.
  induction s as [|x s IH]; [done|].
  simpl. rewrite IH. by destruct s.
Qed.

Lemma plain_partOK plain : Js.includes "["%char plain = false → partOK plain.
Proof.
  intros Hp [Hs _]%andb_true_iff. apply startsWith_bracket in Hs. congruence.
Qed.

Lemma open_partOK plain body :
  Js.includes "]"%char body = false → partOK (plain +:+ String "[" body).
Proof.
  intros Hb [_ He]%andb_true_iff.
  rewrite endsWithChar_app in He by done.
  apply endsWithChar_includes in He. simpl in He. congruence.
Qed.

Lemma scanParts_ok s plain span :
  Js.includes "["%char plain = false →
  (∀ b, span = Some b →
     ∃ body, b = String "[" body ∧ Js.includes "]"%char body = false) →
  Forall partOK (scanParts s plain span).
Proof.
  revert plain span. induction s as [|c s IH]; intros plain span Hp Hs.
  - destruct span as [b|]; simpl.
    + destruct (Hs b eq_refl) as (body & -> & Hb).
      repeat constructor. by apply open_partOK.
    + repeat constructor. by apply plain_partOK.
  - destruct span as [b|]; simpl.
    + destruct (Hs b eq_refl) as (body & -> & Hb).
      destruct (Ascii.eqb c "]") eqn:E.
      * constructor; [by apply plain_partOK|].
        constructor; [|by apply IH].
        intros _. exists body. done.
      * apply IH; [done|]. intros ? [= <-]. exists (body +:+ String c "").
        split; [done|]. rewrite includes_app, Hb. simpl. by rewrite E.
    + destruct (Ascii.eqb c "[") eqn:E.
      * apply IH; [done|]. intros ? [= <-]. by exists "".
      * apply IH; [|done]. rewrite includes_app, Hp. simpl. by rewrite E.
Qed.

Lemma splitParts_ok scriptText : Forall partOK (splitParts scriptText).
Proof.
  unfold splitParts. apply Forall_forall. intros p [_ Hp]%list_elem_of_filter.
  revert p Hp. apply Forall_forall, scanParts_ok; [done|done].
Qed.

Lemma isAction_span body : isAction (spanOf body) = true.
Proof.
  unfold isAction, spanOf. apply andb_true_iff. split.
  - change (Js.startsWith "[" ("[" +:+ body +:+ "]"))
      with (if Ascii.ascii_dec "["%char "["%char
            then String.prefix "" (body +:+ "]") else false).
    destruct (Ascii.ascii_dec "["%char "["%char); [|done]. by destruct body.
  - change ("[" +:+ body +:+ "]") with (("[" +:+ body) +:+ "]").
    by rewrite endsWithChar_app.
Qed.

Lemma textToProcess_span body : textToProcess (spanOf body) = body.
Proof.
  unfold textToProcess. rewrite isAction_span. apply dropLast_snoc.
Qed.

Lemma split_keeps_absent c sep s :
  Js.includes c s = false →
  Forall (λ w, Js.includes c w = false) (Js.split sep s).
Proof.
  induction s as [|a s IH]; simpl; [by repeat constructor|].
  intros [Ha Hs]%orb_false_iff. specialize (IH Hs).
  destruct (Ascii.eqb a sep); [by constructor|].
  destruct (Js.split sep s) as [|w ws].
  - repeat constructor. simpl. by rewrite Ha.
  - inversion_clear IH. constructor; [|done]. simpl. by rewrite Ha.
Qed.

Section LayoutFacts.
Variable getTextWidth : bool → string → Q.
Variable box : ScriptBox.
Local Abbreviation drawWords := (drawWords getTextWidth box).
Local Abbreviation drawLines := (drawLines getTextWidth box).
Local Abbreviation drawParts := (drawParts getTextWidth box).

Lemma drawWords_ok bold words c :
  (bold = true → Forall (λ w, Js.includes "]"%char w = false) words) →
  Forall opOK (drawn c) → Forall opOK (drawn (drawWords bold words c)).
Proof.
  revert c. induction words as [|word rest IH]; intros c Hw Hc; [done|].
  assert (bold = true → Js.includes "]"%char word = false) as Hword.
  { intros Hb. specialize (Hw Hb). by inversion_clear Hw. }
  assert (bold = true → Forall (λ w, Js.includes "]"%char w = false) rest)
    as Hrest.
  { intros Hb. specialize (Hw Hb). by inversion_clear Hw. }
  simpl. destruct (checkYBounds box c); simpl; [|done].
  destruct (Qgtb (cursorX c) (lineStart box)
            && Qgtb (Float64.add (cursorX c) _) (lineEnd box)).
  - destruct (checkYBounds box (newLine box c)); simpl; [|done].
    apply IH; [done|]. simpl. apply Forall_app. split; [done|].
    repeat constructor. intros Hb. by apply Hword.
  - apply IH; [done|]. simpl. apply Forall_app. split; [done|].
    repeat constructor. intros Hb. simpl in *.
    destruct (Qeq_bool _ _); [by apply Hword|].
    simpl. by apply Hword.
Qed.

Lemma drawLines_ok bold lines c :
  (bold = true → Forall (λ l, Js.includes "]"%char l = false) lines) →
  Forall opOK (drawn c) → Forall opOK (drawn (drawLines bold lines c)).
Proof.
  revert c. induction lines as [|line rest IH]; intros c Hl Hc; [done|].
  simpl. destruct (checkYBounds box c); simpl; [|done].
  apply IH.
  - intros Hb. specialize (Hl Hb). by inversion_clear Hl.
  - assert (Forall opOK (drawn (drawWords bold (Js.split " " line) c))).
    { apply drawWords_ok; [|done]. intros Hb. specialize (Hl Hb).
      inversion_clear Hl. by apply split_keeps_absent. }
    by destruct rest.
Qed.

Lemma drawParts_ok parts c :
  Forall partOK parts →
  Forall opOK (drawn c) → Forall opOK (drawn (drawParts parts c)).
Proof.
  revert c. induction parts as [|part rest IH]; intros c Hp Hc; [done|].
  inversion_clear Hp as [|?? Hpart Hrest].
  simpl. destruct (checkYBounds box c); simpl; [|done].
  apply IH; [done|]. apply drawLines_ok; [|done].
  intros Ha. destruct (Hpart Ha) as (body & -> & Hb).
  rewrite textToProcess_span. by apply split_keeps_absent.
Qed.

Lemma drawScript_ok script :
  Forall opOK (drawScript getTextWidth box script).
Proof.
  unfold drawScript. apply drawParts_ok; [apply splitParts_ok|constructor].
Qed.

(** The rule of the word loop. *)
Lemma drawWords_fits bold word rest c :
  checkYBounds box c = true →
  let wordWithSpace :=
    if Qeq_bool (cursorX c) (lineStart box) then word else " " +:+ word in
  let wordWidth := getTextWidth bold wordWithSpace in
  (cursorX c <= lineStart box)%Q
  ∨ (Float64.add (cursorX c) wordWidth <= lineEnd box)%Q →
  drawWords bold (word :: rest) c
  = drawWords bold rest (putText bold wordWithSpace wordWidth c).
Proof.
  intros Hy wws ww Hfit. simpl. rewrite Hy. simpl.
  fold wws. fold ww.
  destruct Hfit as [H|H].
  - apply Qgtb_false in H. by rewrite H.
  - apply Qgtb_false in H. by rewrite H, andb_false_r.
Qed.

Lemma drawWords_wraps bold word rest c :
  checkYBounds box c = true →
  let wordWithSpace :=
    if Qeq_bool (cursorX c) (lineStart box) then word else " " +:+ word in
  let wordWidth := getTextWidth bold wordWithSpace in
  (lineStart box < cursorX c)%Q →
  (lineEnd box < Float64.add (cursorX c) wordWidth)%Q →
  drawWords bold (word :: rest) c
  = if checkYBounds box (newLine box c)
    then drawWords bold rest
           (putText bold word (getTextWidth bold word) (newLine box c))
    else newLine box c.
Proof.
  intros Hy wws ww H1 H2. simpl. rewrite Hy. simpl. fold wws. fold ww.
  apply Qgtb_true in H1, H2. rewrite H1, H2. simpl.
  by destruct (checkYBounds box (newLine box c)).
Qed.

(** Outside the box the word loop draws nothing. *)
Lemma drawWords_outside bold words c :
  checkYBounds box c = false → words ≠ [] → drawWords bold words c = c.
Proof. intros Hy Hw. destruct words; [done|]. simpl. by rewrite Hy. Qed.

End LayoutFacts.

(** A text of one line and one style is handed to the word loop as it is. *)
Lemma drawParts_one_line m box bold part text c :
  isAction part = bold → textToProcess part = text →
  Js.includes "010"%char text = false →
  drawParts m box [part] c = drawWords m box bold (Js.split " " text) c.
Proof.
  intros <- <- Hn. cbn [drawParts].
  rewrite (split_no_sep _ _ Hn). cbn [drawLines].
  destruct (checkYBounds box c) eqn:Hy; cbn [negb]; [done|].
  symmetry. apply drawWords_outside; [done|]. apply split_nonempty.
Qed.

Lemma Qeq_bool_refl q : Qeq_bool q q = true.
Proof. apply Qeq_bool_iff. reflexivity. Qed.

Lemma checkYBounds_true box c :
  (cursorY c <= yMax box)%Q → checkYBounds box c = true.
Proof. intros H. by apply Qle_bool_iff. Qed.

Lemma Qeq_bool_false a b : (a < b)%Q → Qeq_bool b a = false.
Proof.
  intros H. destruct (Qeq_bool b a) eqn:E; [|done].
  apply Qeq_bool_iff in E. lra.
Qed.

(** The word loop on the run "aaaa bbbb": [x1] is where the cursor stands
    after "aaaa". *)
Lemma two_words (m : bool → string → Q) (box : ScriptBox) :
  (firstY box <= yMax box)%Q →
  let x1 := Float64.add (lineStart box) (m false "aaaa") in
  let y1 := Float64.add (firstY box) LINE_HEIGHT in
  (lineStart box < x1)%Q →
  ((lineEnd box < Float64.add x1 (m false " bbbb"))%Q →
   (y1 <= yMax box)%Q →
   drawScript m box "aaaa bbbb"
   = [mkTextOp false "aaaa" (lineStart box) (firstY box);
      mkTextOp false "bbbb" (lineStart box) y1])
  ∧ ((lineEnd box < Float64.add x1 (m false " bbbb"))%Q →
     (yMax box < y1)%Q →
     drawScript m box "aaaa bbbb"
     = [mkTextOp false "aaaa" (lineStart box) (firstY box)])
  ∧ ((Float64.add x1 (m false " bbbb") <= lineEnd box)%Q →
     drawScript m box "aaaa bbbb"
     = [mkTextOp false "aaaa" (lineStart box) (firstY box);
        mkTextOp false " bbbb" x1 (firstY box)]).
Proof.
  intros Hy x1 y1 Hx1.
  assert (drawScript m box "aaaa bbbb"
          = drawn (drawWords m box false ["bbbb"]
                     (putText false "aaaa" (m false "aaaa")
                        (mkCursor (lineStart box) (firstY box) []))))
    as ->.
  { unfold drawScript.
    change (splitParts (truncateScript "aaaa bbbb")) with ["aaaa bbbb"].
    rewrite (drawParts_one_line m box false _ "aaaa bbbb") by done.
    change (Js.split " " "aaaa bbbb") with ["aaaa"; "bbbb"].
    rewrite drawWords_fits; [|by apply checkYBounds_true|left; cbn; lra].
    cbn [cursorX]. by rewrite Qeq_bool_refl. }
  set (c1 := putText _ _ _ _).
  assert (checkYBounds box c1 = true) as Hc1 by (by apply checkYBounds_true).
  assert (cursorX c1 = x1) as Ex by done.
  assert (Qeq_bool (cursorX c1) (lineStart box) = false) as Eq
    by (rewrite Ex; by apply Qeq_bool_false).
  split_and!.
  - intros Hover Hroom. rewrite drawWords_wraps; [|done|by rewrite Ex|].
    + rewrite checkYBounds_true by done. reflexivity.
    + rewrite Eq, Ex. done.
  - intros Hover Hlow. rewrite drawWords_wraps; [|done|by rewrite Ex|].
    + assert (checkYBounds box (newLine box c1) = false) as ->; [|done].
      unfold checkYBounds. destruct (Qle_bool _ _) eqn:E; [|done].
      apply Qle_bool_iff in E. cbn in E. fold y1 in E. lra.
    + rewrite Eq, Ex. done.
  - intros Hfit. rewrite drawWords_fits; [|done|right; by rewrite Eq, Ex].
    rewrite Eq. reflexivity.
Qed.

Lemma splitParts_span body :
  Js.includes "]"%char body = false → splitParts (spanOf body) = [spanOf body].
Proof.
  intros Hb. unfold splitParts, spanOf. app_step.
  cbn [scanParts Ascii.eqb Bool.eqb].
  rewrite scanParts_span by done. app_step. cbn [scanParts].
  rewrite !filter_cons, filter_nil.
  rewrite decide_False by (by cbn). rewrite decide_True by done.
  by rewrite decide_False by (by cbn).
Qed.

Lemma truncateScript_one_line script :
  Js.includes "010"%char script = false → truncateScript script = script.
Proof.
  intros H. unfold truncateScript. rewrite (split_no_sep _ _ H).
  cbn. done.
Qed.

(** A run of one line and one style: what [drawScript] draws is what the
    word loop draws for its words, in the style of the run. *)
Lemma drawScript_span m box body :
  Js.includes "]"%char body = false →
  Js.includes "010"%char body = false →
  drawScript m box (spanOf body)
  = drawn (drawWords m box true (Js.split " " body)
             (mkCursor (lineStart box) (firstY box) [])).
Proof.
  intros Hb Hn. unfold drawScript.
  rewrite truncateScript_one_line.
  - rewrite splitParts_span by done. f_equal.
    apply drawParts_one_line; [apply isAction_span|apply textToProcess_span|done].
  - unfold spanOf. app_step. simpl. rewrite includes_app, Hn. done.
Qed.

Lemma drawScript_plain m box text :
  text ≠ "" →
  Js.includes "["%char text = false →
  Js.includes "010"%char text = false →
  drawScript m box text
  = drawn (drawWords m box false (Js.split " " text)
             (mkCursor (lineStart box) (firstY box) [])).
Proof.
  intros Hne Hb Hn. unfold drawScript.
  rewrite truncateScript_one_line by done.
  assert (splitParts text = [text]) as ->.
  { unfold splitParts. rewrite <-(append_nil_r text) at 1.
    rewrite scanParts_plain by done. cbn [scanParts]. app_step.
    rewrite filter_cons, filter_nil. rewrite decide_True; [done|].
    by destruct text. }
  f_equal. apply drawParts_one_line; [|unfold textToProcess|done].
  - unfold isAction. destruct (Js.startsWith "[" text) eqn:E; [|done].
    apply startsWith_bracket in E. congruence.
  - unfold isAction. destruct (Js.startsWith "[" text) eqn:E; [|done].
    apply startsWith_bracket in E. congruence.
Qed.

Lemma splitParts_text_span a body :
  a ≠ "" →
  Js.includes "["%char a = false →
  Js.includes "]"%char body = false →
  splitParts (a +:+ spanOf body) = [a; spanOf body].
Proof.
  intros Hne Ha Hb. unfold splitParts.
  rewrite scanParts_plain by done.
  unfold spanOf. app_step. cbn [scanParts Ascii.eqb Bool.eqb].
  rewrite scanParts_span by done. app_step. cbn [scanParts].
  rewrite !filter_cons, filter_nil.
  rewrite decide_True by (by destruct a).
  rewrite decide_True by done. by rewrite decide_False by (by cbn).
Qed.

Lemma drawScript_text_span m box a body :
  a ≠ "" →
  Js.includes "["%char a = false →
  Js.includes "010"%char a = false →
  Js.includes "]"%char body = false →
  Js.includes "010"%char body = false →
  drawScript m box (a +:+ spanOf body)
  = drawn (drawWords m box true (Js.split " " body)
             (drawWords m box false (Js.split " " a)
                (mkCursor (lineStart box) (firstY box) []))).
Proof.
  intros Hne Ha Han Hb Hbn. unfold drawScript.
  rewrite truncateScript_one_line.
  2:{ rewrite includes_app, Han. unfold spanOf. app_step. simpl.
      by rewrite includes_app, Hbn. }
  rewrite splitParts_text_span by done. f_equal.
  set (c0 := mkCursor _ _ _).
  assert (isAction a = false) as Hia.
  { unfold isAction. destruct (Js.startsWith "[" a) eqn:E; [|done].
    apply startsWith_bracket in E. congruence. }
  assert (textToProcess a = a) as Hta by (unfold textToProcess; by rewrite Hia).
  cbn [drawParts]. rewrite Hia, Hta, isAction_span, textToProcess_span.
  rewrite (split_no_sep _ _ Han), (split_no_sep _ _ Hbn). cbn [drawLines].
  destruct (checkYBounds box c0) eqn:Hy0; cbn [negb].
  - set (c1 := drawWords m box false (Js.split " " a) c0).
    destruct (checkYBounds box c1) eqn:Hy1; cbn [negb]; [done|].
    symmetry. apply drawWords_outside; [done|apply split_nonempty].
  - rewrite (drawWords_outside m box false _ c0 Hy0 (split_nonempty _ _)).
    by rewrite (drawWords_outside m box true _ c0 Hy0 (split_nonempty _ _)).
Qed.

(** The sum that the word loop compares with the right edge is a double: the
    widths of "a" and " b", added exactly to the left edge 20, pass the right
    edge 320, and their sum as doubles is 320, so that " b" stays on the
    line of "a". *)
Lemma double_sum_at_the_edge :
  (lineEnd edgeBox
   < lineStart edgeBox + edgeWidth false "a" + edgeWidth false " b")%Q
  ∧ (Float64.add (Float64.add (lineStart edgeBox) (edgeWidth false "a"))
       (edgeWidth false " b") == lineEnd edgeBox)%Q
  ∧ (λ op, (opText op, Qeq_bool (opY op) (firstY edgeBox)))
      <$> drawScript edgeWidth edgeBox "a b"
    = [("a", true); (" b", true)].
Proof. split_and!; by vm_compute. Qed.

(** With a measure that is not additive the run "aaaa bbbb" can be wider
    than the box, "aaaa" fitting, and still be drawn on one line: the loop
    never measures the run, only "aaaa" and " bbbb".  And in a box that has
    room for one baseline only, the second word is not drawn at all. *)
Lemma wide_run_on_one_line :
  (lineEnd wideBox - lineStart wideBox < kernedWidth false "aaaa bbbb")%Q
  ∧ (kernedWidth false "aaaa" <= lineEnd wideBox - lineStart wideBox)%Q
  ∧ (λ op, (opText op, Qeq_bool (opY op) (firstY wideBox)))
      <$> drawScript kernedWidth wideBox "aaaa bbbb"
    = [("aaaa", true); (" bbbb", true)]
  ∧ (lineEnd lowBox - lineStart lowBox < sampleWidth false "aaaa bbbb")%Q
  ∧ (sampleWidth false "aaaa" <= lineEnd lowBox - lineStart lowBox)%Q
  ∧ opText <$> drawScript sampleWidth lowBox "aaaa bbbb" = ["aaaa"].
Proof. split_and!; by vm_compute. Qed.


(** C7 (amended).  The words of a line are packed greedily: a word goes on
    the current line, after a space unless the cursor stands at the start of
    the line, when the cursor stands at the start of the line or when the
    cursor plus the measured width of the word, added as doubles, stays
    within the right edge of the box; otherwise the cursor first moves to the
    start of the next line and the word is drawn there without the space.
    For the plain run "aaaa bbbb" in a box that holds the first baseline,
    "aaaa" moving the cursor: when the cursor after "aaaa" plus the width of
    " bbbb" passes the right edge, "bbbb" is drawn at the start of the next
    baseline if the box holds it and not at all if it does not; when it does
    not pass the edge, " bbbb" is drawn after "aaaa" on the same line.  In
    particular the run is drawn as the two lines "aaaa", "bbbb" when it is
    wider than the box, its width is the sum of the widths of "aaaa" and
    " bbbb", that of "aaaa" is positive, the two sums of the cursor are exact
    and the box holds two baselines.  A span "[body]" is treated as an
    emphasis run and laid out from its body alone; a text that does not
    start with a bracket is not.  A span whose body has no closing bracket is
    a part of its own of the text it stands in, the text before it having no
    opening bracket.  A part that is treated as an emphasis run is such a
    span.  A script that is one span of one line is drawn in the emphasis
    style, word by word, from the body; a plain script of one line in the
    normal style; and a plain text followed by a span, on one line, as the
    words of the text in the normal style and then, the cursor going on from
    where it stands, the words of the body in the emphasis style.  No text
    drawn in the emphasis style contains a closing bracket. *)
Theorem script_layout (getTextWidth : bool → string → Q) (box : ScriptBox) :
  (∀ bold word rest c,
     checkYBounds box c = true →
     let wordWithSpace :=
       if Qeq_bool (cursorX c) (lineStart box) then word else " " +:+ word in
     let wordWidth := getTextWidth bold wordWithSpace in
     ((cursorX c <= lineStart box)%Q
      ∨ (Float64.add (cursorX c) wordWidth <= lineEnd box)%Q →
      drawWords getTextWidth box bold (word :: rest) c
      = drawWords getTextWidth box bold rest
          (putText bold wordWithSpace wordWidth c))
     ∧ ((lineStart box < cursorX c)%Q →
        (lineEnd box < Float64.add (cursorX c) wordWidth)%Q →
        checkYBounds box (newLine box c) = true →
        drawWords getTextWidth box bold (word :: rest) c
        = drawWords getTextWidth box bold rest
            (putText bold word (getTextWidth bold word) (newLine box c))))
  ∧ ((firstY box <= yMax box)%Q →
     let x1 := Float64.add (lineStart box) (getTextWidth false "aaaa") in
     let y1 := Float64.add (firstY box) LINE_HEIGHT in
     (lineStart box < x1)%Q →
     ((lineEnd box < Float64.add x1 (getTextWidth false " bbbb"))%Q →
      (y1 <= yMax box)%Q →
      drawScript getTextWidth box "aaaa bbbb"
      = [mkTextOp false "aaaa" (lineStart box) (firstY box);
         mkTextOp false "bbbb" (lineStart box) y1])
     ∧ ((lineEnd box < Float64.add x1 (getTextWidth false " bbbb"))%Q →
        (yMax box < y1)%Q →
        drawScript getTextWidth box "aaaa bbbb"
        = [mkTextOp false "aaaa" (lineStart box) (firstY box)])
     ∧ ((Float64.add x1 (getTextWidth false " bbbb") <= lineEnd box)%Q →
        drawScript getTextWidth box "aaaa bbbb"
        = [mkTextOp false "aaaa" (lineStart box) (firstY box);
           mkTextOp false " bbbb" x1 (firstY box)]))
  ∧ (let W := (lineEnd box - lineStart box)%Q in
     let x1 := Float64.add (lineStart box) (getTextWidth false "aaaa") in
     let y1 := Float64.add (firstY box) LINE_HEIGHT in
     (W < getTextWidth false "aaaa bbbb")%Q →
     (getTextWidth false "aaaa" <= W)%Q →
     (0 < getTextWidth false "aaaa")%Q →
     (getTextWidth false "aaaa bbbb"
      == getTextWidth false "aaaa" + getTextWidth false " bbbb")%Q →
     (x1 == lineStart box + getTextWidth false "aaaa")%Q →
     (Float64.add x1 (getTextWidth false " bbbb")
      == x1 + getTextWidth false " bbbb")%Q →
     (firstY box <= yMax box)%Q →
     (y1 <= yMax box)%Q →
     drawScript getTextWidth box "aaaa bbbb"
     = [mkTextOp false "aaaa" (lineStart box) (firstY box);
        mkTextOp false "bbbb" (lineStart box) y1])
  ∧ (∀ body, isAction (spanOf body) = true ∧ textToProcess (spanOf body) = body)
  ∧ (∀ text, Js.startsWith "[" text = false →
       isAction text = false ∧ textToProcess text = text)
  ∧ (∀ a body rest,
       Js.includes "["%char a = false →
       Js.includes "]"%char body = false →
       spanOf body ∈ splitParts (a +:+ spanOf body +:+ rest))
  ∧ (∀ scriptText part,
       part ∈ splitParts scriptText → isAction part = true →
       ∃ body, part = spanOf body
               ∧ Js.includes "]"%char body = false
               ∧ textToProcess part = body)
  ∧ (∀ body,
       Js.includes "]"%char body = false →
       Js.includes "010"%char body = false →
       drawScript getTextWidth box (spanOf body)
       = drawn (drawWords getTextWidth box true (Js.split " " body)
                  (mkCursor (lineStart box) (firstY box) [])))
  ∧ (∀ text,
       text ≠ "" →
       Js.includes "["%char text = false →
       Js.includes "010"%char text = false →
       drawScript getTextWidth box text
       = drawn (drawWords getTextWidth box false (Js.split " " text)
                  (mkCursor (lineStart box) (firstY box) [])))
  ∧ (∀ a body,
       a ≠ "" →
       Js.includes "["%char a = false →
       Js.includes "010"%char a = false →
       Js.includes "]"%char body = false →
       Js.includes "010"%char body = false →
       drawScript getTextWidth box (a +:+ spanOf body)
       = drawn (drawWords getTextWidth box true (Js.split " " body)
                  (drawWords getTextWidth box false (Js.split " " a)
                     (mkCursor (lineStart box) (firstY box) []))))
  ∧ (∀ script op,
       op ∈ drawScript getTextWidth box script →
       opBold op = true → Js.includes "]"%char (opText op) = false).
Proof.
  split_and!.
  - intros bold word rest c Hy. cbv zeta. split.
    + by apply drawWords_fits.
    + intros H1 H2 Hy'. rewrite drawWords_wraps by done. by rewrite Hy'.
  - intros Hy. cbv zeta. intros Hx1. by apply two_words.
  - cbv zeta. intros Hwide Hfit Hpos Hadd Hx1 Hx2 Hy Hy1.
    apply two_words; [done|lra|lra|done].
  - intros body. split; [apply isAction_span|apply textToProcess_span].
  - intros text Hs. unfold textToProcess, isAction. by rewrite Hs.
  - intros a body rest Ha Hb. unfold splitParts.
    rewrite scanParts_plain by done.
    unfold spanOf. app_step. cbn [scanParts Ascii.eqb Bool.eqb].
    rewrite append_assoc. app_step. rewrite scanParts_span by done.
    apply list_elem_of_filter. split; [done|]. app_step.
    apply elem_of_cons. right. apply elem_of_cons. by left.
  - intros scriptText part Hin Ha.
    pose proof (splitParts_ok scriptText) as Hok.
    rewrite Forall_forall in Hok. destruct (Hok part Hin Ha) as (body & -> & ?).
    exists body. by rewrite textToProcess_span.
  - intros body. apply drawScript_span.
  - intros text. apply drawScript_plain.
  - intros a body. apply drawScript_text_span.
  - intros script op Hin.
    pose proof (drawScript_ok getTextWidth box script) as Hok.
    rewrite Forall_forall in Hok. by apply Hok.
Qed.

Lemma script_layout_witness :
  opText <$> drawScript sampleWidth panelScriptBox "aaaa bbbb"
  = ["aaaa"; "bbbb"]
  ∧ opText <$> drawScript sampleWidth panelScriptBox "[aaaa bbbb]"
    = ["aaaa"; "bbbb"]
  ∧ opBold <$> drawScript sampleWidth panelScriptBox "[aaaa bbbb]"
    = [true; true].
Proof.
  destruct (script_layout sampleWidth panelScriptBox)
    as (_ & _ & H & _ & _ & _ & _ & Hs & _).
  rewrite H by (by vm_compute).
  change "[aaaa bbbb]" with (spanOf "aaaa bbbb").
  rewrite Hs by done. split_and!; [done|by vm_compute..].
Defined.

(** * Properties of the editor, the store and the pages *)

(** ** The asset service *)

Lemma lastIndexOf_None c s :
  Js.lastIndexOf c s = None ↔ Js.includes c s = false.
Proof.
  induction s as [|a s IH]; simpl; [done|].
  destruct (Js.lastIndexOf c s) as [i|].
  - split; [done|]. intros [_ H]%orb_false_iff. apply IH in H. done.
  - destruct IH as [IH _]. rewrite (IH eq_refl), orb_false_r.
    destruct (Ascii.eqb a c); done.
Qed.

Lemma lastIndexOf_Some c s i :
  Js.lastIndexOf c s = Some i →
  ∃ pre rest, s = pre +:+ String c rest ∧ String.length pre = i
              ∧ Js.includes c rest = false.
Proof.
  revert i. induction s as [|a s IH]; intros i; simpl; [done|].
  destruct (Js.lastIndexOf c s) as [j|] eqn:E.
  - intros [= <-]. destruct (IH j eq_refl) as (pre & rest & -> & <- & Hr).
    by exists (String a pre), rest.
  - destruct (Ascii.eqb a c) eqn:Ea; [|done]. intros [= <-].
    apply Ascii.eqb_eq in Ea as ->. exists "", s. split_and!; [done..|].
    by apply lastIndexOf_None.
Qed.

Lemma lastIndexOf_app c pre rest :
  Js.includes c rest = false →
  Js.lastIndexOf c (pre +:+ String c rest) = Some (String.length pre).
Proof.
  intros Hr. induction pre as [|a pre IH]; simpl.
  - apply lastIndexOf_None in Hr. by rewrite Hr, Ascii.eqb_refl.
  - by rewrite IH.
Qed.

Lemma substring_all t : String.substring 0 (String.length t) t = t.
Proof. induction t as [|b t IH]; simpl; [done|]. by rewrite IH. Qed.

Lemma substring_app pre t :
  Js.substring (String.length pre) (pre +:+ t) = t.
Proof.
  unfold Js.substring. rewrite append_length.
  replace (String.length pre + String.length t - String.length pre)%nat
    with (String.length t) by lia.
  induction pre as [|a pre IH]; simpl; [apply substring_all|done].
Qed.

(** X1.  [getFileExtension] returns the text from the last dot on, the dot
    included, when the name has a dot that is neither its first nor its
    last character, and the empty string otherwise: for a name without a
    dot, for one that starts with its only dot and for one that ends in a
    dot. *)
Theorem getFileExtension_spec (filename : string) :
  (Js.includes "."%char filename = false → getFileExtension filename = "")
  ∧ (∀ stem rest,
       filename = stem +:+ String "." rest →
       Js.includes "."%char rest = false →
       getFileExtension filename
       = if decide (stem = "" ∨ rest = "") then "" else String "." rest).
Proof.
  split.
  - intros H. unfold getFileExtension.
    apply lastIndexOf_None in H. by rewrite H.
  - intros stem rest -> Hr. unfold getFileExtension.
    rewrite lastIndexOf_app by done. rewrite append_length.
    destruct (decide (stem = "" ∨ rest = "")) as [Hd|Hd].
    + assert (((String.length stem <? 1)
               || (String.length stem
                   =? String.length stem + String.length (String "." rest) - 1))%nat
              = true) as ->; [|done].
      apply orb_true_iff. destruct Hd as [-> | ->].
      * left. apply Nat.ltb_lt. simpl. lia.
      * right. apply Nat.eqb_eq. simpl. lia.
    + assert (((String.length stem <? 1)
               || (String.length stem
                   =? String.length stem + String.length (String "." rest) - 1))%nat
              = false) as ->; [|apply substring_app].
      apply orb_false_iff. split.
      * apply Nat.ltb_ge. destruct stem; [tauto|simpl; lia].
      * apply Nat.eqb_neq. destruct rest; [tauto|simpl; lia].
Qed.

Lemma getFileExtension_spec_witness :
  getFileExtension "shot.final.png" = ".png"
  ∧ getFileExtension ".gitignore" = "".
Proof.
  destruct (getFileExtension_spec "shot.final.png") as [_ H1].
  destruct (getFileExtension_spec ".gitignore") as [_ H2].
  split.
  - by rewrite (H1 "shot.final" "png") by reflexivity.
  - by rewrite (H2 "" "gitignore") by reflexivity.
Defined.

Lemma tallyUuid_inj : Inj (=) (=) tallyUuid.
Proof.
  intros n. induction n as [|n IH]; intros [|m] E; simpl in E; try done.
  injection E as E. f_equal. by apply IH.
Qed.

Lemma addAssets_keys h n files m ext :
  Forall (λ f, getFileExtension (fileName f) = ext) files →
  (addAssets h n files m).1
  = (λ i, uuidv4 h (n + i) +:+ ext) <$> seq 0 (length files).
Proof.
  intros Hf. revert n m. induction Hf as [|f fs Hx Hfs IH]; intros n m; [done|].
  cbn [addAssets]. unfold addAsset at 1. cbn [fst snd].
  specialize (IH (S n) (<[uuidv4 h n +:+ getFileExtension (fileName f) := f]> m)).
  destruct (addAssets h (S n) fs _) as [keys m']. cbn [fst] in *.
  rewrite IH, Hx. cbn [length seq fmap list_fmap]. rewrite Nat.add_0_r. f_equal.
  rewrite <-fmap_S_seq, <-list_fmap_compose. apply list_fmap_ext.
  intros _ i _. cbn. f_equal. f_equal. lia.
Qed.

Lemma addAssets_lookup_other h n files m k :
  (∀ i f, files !! i = Some f →
          k ≠ uuidv4 h (n + i) +:+ getFileExtension (fileName f)) →
  (addAssets h n files m).2 !! k = m !! k.
Proof.
  revert n m. induction files as [|f fs IH]; intros n m Hk; [done|].
  cbn [addAssets]. unfold addAsset at 1. cbn [fst snd].
  specialize (IH (S n) (<[uuidv4 h n +:+ getFileExtension (fileName f) := f]> m)).
  destruct (addAssets h (S n) fs _) as [keys m']. cbn [snd] in *.
  rewrite IH.
  - apply lookup_insert_ne. intros E. apply (Hk 0%nat f eq_refl).
    by rewrite Nat.add_0_r.
  - intros i g Hi. replace (S n + i)%nat with (n + S i)%nat by lia.
    by apply (Hk (S i)).
Qed.

Lemma addAssets_lookup_key h n files m ext i f :
  Inj (=) (=) (uuidv4 h) →
  Forall (λ f, getFileExtension (fileName f) = ext) files →
  files !! i = Some f →
  (addAssets h n files m).2 !! (uuidv4 h (n + i) +:+ ext) = Some f.
Proof.
  intros Hinj Hf. revert n m i.
  induction Hf as [|g fs Hx Hfs IH]; intros n m i Hi; [done|].
  cbn [addAssets]. unfold addAsset at 1. cbn [fst snd]. rewrite Hx.
  pose proof (addAssets_lookup_other h (S n) fs
                (<[uuidv4 h n +:+ ext := g]> m) (uuidv4 h n +:+ ext)) as Ho.
  specialize (IH (S n) (<[uuidv4 h n +:+ ext := g]> m)).
  destruct (addAssets h (S n) fs _) as [keys m']. cbn [snd] in *.
  destruct i as [|i]; cbn in Hi.
  - injection Hi as ->. rewrite Nat.add_0_r.
    rewrite Ho; [apply lookup_insert_eq|].
    intros j g' Hj. rewrite Forall_forall in Hfs.
    rewrite (Hfs g') by (by eapply list_elem_of_lookup_2).
    intros E. apply append_inv_tail, Hinj in E. lia.
  - replace (n + S i)%nat with (S n + i)%nat by lia. by apply IH.
Qed.

(** X2.  Files registered one after the other with [addAsset], their names
    having the same extension and the identifiers drawn being pairwise
    distinct, get pairwise distinct keys, one per file; each key then yields
    the file it was returned for, and the files under all other keys are
    what they were. *)
Theorem addAssets_distinct (h : Host) (n : nat) (files : list File)
    (m : AssetMap) (ext : string) :
  Inj (=) (=) (uuidv4 h) →
  Forall (λ f, getFileExtension (fileName f) = ext) files →
  length (addAssets h n files m).1 = length files
  ∧ NoDup (addAssets h n files m).1
  ∧ (∀ i k f, (addAssets h n files m).1 !! i = Some k → files !! i = Some f →
              getAssetFile k (addAssets h n files m).2 = Some f)
  ∧ (∀ k, k ∉ (addAssets h n files m).1 →
          getAssetFile k (addAssets h n files m).2 = getAssetFile k m).
Proof.
  intros Hinj Hf. rewrite (addAssets_keys h n files m ext Hf).
  split_and!.
  - by rewrite length_fmap, length_seq.
  - apply NoDup_fmap_2; [|apply NoDup_seq].
    intros a b E. apply append_inv_tail, Hinj in E. lia.
  - intros i k f Hk Hi. rewrite list_lookup_fmap in Hk.
    destruct (seq 0 (length files) !! i) as [j|] eqn:Hj; [|done].
    apply lookup_seq in Hj as [-> _]. cbn in Hk. injection Hk as <-.
    unfold getAssetFile. by apply addAssets_lookup_key.
  - intros k Hk. unfold getAssetFile. apply addAssets_lookup_other.
    intros i f Hi ->. apply Hk. rewrite Forall_forall in Hf.
    rewrite (Hf f) by (by eapply list_elem_of_lookup_2).
    apply list_elem_of_fmap. exists i. split; [done|].
    apply elem_of_seq. apply lookup_lt_Some in Hi. lia.
Qed.

Lemma addAssets_distinct_witness :
  NoDup (addAssets tallyHost 0 [sampleFile; sampleFile] ∅).1.
Proof.
  apply (addAssets_distinct tallyHost 0 [sampleFile; sampleFile] ∅
           (getFileExtension (fileName sampleFile))).
  - apply tallyUuid_inj.
  - repeat constructor.
Defined.

(** ** The store *)

Lemma linkedInv_initial h : linkedInv (initialState h).
Proof. intros _ tl el [= <-] [= <-]. done. Qed.

Lemma loadProject_linkedInv s project :
  linkedInv (loadProject s project) ↔ linkedInv project.
Proof. done. Qed.

Lemma dispatch_linkedInv h a s :
  keepsLinked a → linkedInv s → linkedInv (dispatch h a s).
Proof.
  intros Ha Hs.
  assert ((∃ project, a = LoadProject project)
          ∨ ∀ project, a ≠ LoadProject project) as [[p ->]|Hload]
    by (destruct a; eauto).
  { by apply loadProject_linkedInv. }
  destruct s as [title tp panels ep linked loading].
  destruct tp as [hd sh bg bk [tl|]], ep as [ebg ebk [el|] tx st mi];
    unfold linkedInv, logoSizesAgree in *; cbn in Hs |- *.
  all: destruct a as [| p | f | f | | | lf | | l | l | | m | lk | | | | | | | c];
    try (by destruct (Hload p));
    try destruct f; try destruct lf as [[]|]; try destruct l; try destruct m;
    try destruct lk; try destruct c; cbn in Ha; try done;
    cbn; intros; simplify_eq/=; eauto.
  all: destruct linked; cbn in *; intros; simplify_eq/=; eauto.
Qed.

Lemma run_linkedInv h actions s :
  Forall keepsLinked actions → linkedInv s → linkedInv (run h actions s).
Proof.
  intros Ha. revert s. unfold run.
  induction Ha as [|a actions Ha _ IH]; intros s Hs; [done|].
  cbn. apply IH. by apply dispatch_linkedInv.
Qed.

Lemma sampleActions_keepLinked : Forall keepsLinked sampleActions.
Proof.
  repeat constructor. intros _ tl el [= <-] [= <-]. done.
Qed.

(** X3.  After any sequence of actions of the store on the initial project,
    none of them a generic field setter that writes a logo and every project
    handed to [loadProject] having logos of one size if it has
    [logoSizesLinked] set and both logos, the title page logo and the end
    page logo have the same size whenever [logoSizesLinked] is set and both
    logos exist.  [loadProject] installs the logos and the flag of the
    project it is given as they are, whatever the state before. *)
Theorem linked_logo_sizes (h : Host) (actions : list Action) :
  (Forall keepsLinked actions →
   let s := run h actions (initialState h) in
   Project.logoSizesLinked s = true →
   ∀ tl el,
     TitlePage.logo (Project.titlePage s) = Some tl →
     EndPage.logo (Project.endPage s) = Some el →
     Logo.size tl = Logo.size el)
  ∧ (∀ s project,
       let s' := dispatch h (LoadProject project) s in
       Project.titlePage s' = Project.titlePage project
       ∧ Project.endPage s' = Project.endPage project
       ∧ Project.logoSizesLinked s' = Project.logoSizesLinked project).
Proof.
  split; [|done].
  intros Ha. apply (run_linkedInv h actions _ Ha), linkedInv_initial.
Qed.

Lemma setEndPageMirror_agrees s :
  endPageConfig (setEndPageMirror true s)
  = Project.endPage (setEndPageMirror true s)
  ↔ logoSizesAgree s.
Proof.
  destruct s as [title tp panels ep linked loading].
  destruct tp as [hd sh bg bk [tl|]], ep as [ebg ebk [el|] tx st mi];
    unfold logoSizesAgree; cbn.
  - split.
    + intros [= E] ?? [= <-] [= <-]. done.
    + intros E. by rewrite (E tl el eq_refl eq_refl).
  - split; [intros _ ?? _ [=]|done].
  - split; [intros _ ?? [=]|done].
  - split; [intros _ ?? [=]|done].
Qed.

(** X4.  After [setEndPageMirror(true)] the end page kept in the store, the
    one the preview shows, is the end page the PDF export draws, if and only
    if the two logos, where both exist, had the same size.  That is the case
    when [logoSizesLinked] is set in a state reached from the initial project
    by actions of the store as in X3: no generic field setter that writes a
    logo, and no load of a project with linked sizes and logos of two sizes.
    Where the title page has a logo, the export draws on the end page that
    logo in its own size at the position of the end page logo
    (bottom-center without one), while the store keeps the size of the end
    page logo where there is one. *)
Theorem mirror_matches_export (h : Host) (actions : list Action)
    (s : ProjectState) :
  let s' := setEndPageMirror true s in
  (endPageConfig s' = Project.endPage s' ↔ logoSizesAgree s)
  ∧ (s = run h actions (initialState h) →
     Forall keepsLinked actions →
     Project.logoSizesLinked s = true →
     endPageConfig s' = Project.endPage s')
  ∧ (∀ tl, TitlePage.logo (Project.titlePage s) = Some tl →
       EndPage.logo (endPageConfig s')
       = Some (Logo.mk (Logo.src tl) (Logo.assetKey tl)
                 (endLogoPosition (EndPage.logo (Project.endPage s)))
                 (Logo.size tl))
       ∧ EndPage.logo (Project.endPage s')
         = Some (Logo.mk (Logo.src tl) (Logo.assetKey tl)
                   (endLogoPosition (EndPage.logo (Project.endPage s)))
                   (match EndPage.logo (Project.endPage s) with
                    | Some el => Logo.size el
                    | None => Logo.size tl
                    end))).
Proof.
  cbv zeta. split_and!; [apply setEndPageMirror_agrees| |].
  - intros -> Ha Hl. apply setEndPageMirror_agrees.
    by apply (run_linkedInv h actions _ Ha (linkedInv_initial h)).
  - intros tl Htl. destruct s as [title tp panels ep linked loading].
    destruct tp as [hd sh bg bk tlo], ep as [ebg ebk [el|] tx st mi];
      cbn in Htl |- *; subst tlo; done.
Qed.

Lemma linked_logo_sizes_witness :
  Logo.size (Logo.mk "blob:logo" "k.png" top_left size_XL)
  = Logo.size (Logo.mk "blob:logo" "k.png" bottom_center size_XL).
Proof.
  apply (linked_logo_sizes sampleHost sampleActions);
    [apply sampleActions_keepLinked|reflexivity..].
Defined.

Lemma mirror_matches_export_witness :
  endPageConfig
    (setEndPageMirror true (run sampleHost sampleActions (initialState sampleHost)))
  = Project.endPage
      (setEndPageMirror true
         (run sampleHost sampleActions (initialState sampleHost))).
Proof.
  apply (mirror_matches_export sampleHost sampleActions);
    [reflexivity|apply sampleActions_keepLinked|reflexivity].
Defined.

Lemma eqb_decide (a b : string) : String.eqb a b = bool_decide (a = b).
Proof.
  destruct (String.eqb_spec a b).
  - by rewrite bool_decide_eq_true_2.
  - by rewrite bool_decide_eq_false_2.
Qed.

Lemma updateFound_ids id f panels :
  (∀ p, Panel.id (f p) = Panel.id p) →
  Panel.id <$> updateFound id f panels = Panel.id <$> panels.
Proof.
  intros Hf. induction panels as [|p ps IH]; [done|]. cbn.
  destruct (String.eqb _ _); cbn; by rewrite ?Hf, ?IH.
Qed.

Lemma updateFound_lookup id f panels i p :
  panels !! i = Some p →
  updateFound id f panels !! i
  = Some (if decide (Panel.id p = id ∧ id ∉ Panel.id <$> take i panels)
          then f p else p).
Proof.
  revert i. induction panels as [|a ps IH]; intros i Hi; [done|].
  cbn [updateFound]. rewrite eqb_decide.
  destruct i as [|i]; cbn in Hi.
  - injection Hi as ->. case_bool_decide as E; cbn.
    + rewrite decide_True; [done|]. split; [done|]. apply not_elem_of_nil.
    + rewrite decide_False; [done|]. by intros [].
  - case_bool_decide as E; cbn [lookup list_lookup take fmap list_fmap].
    + rewrite Hi. rewrite decide_False; [done|].
      intros [_ H]. apply H. rewrite E. apply elem_of_cons. by left.
    + change (updateFound id f ps !! i
              = Some (if decide (Panel.id p = id
                                 ∧ id ∉ Panel.id a :: (Panel.id <$> take i ps))
                      then f p else p)).
      rewrite (IH i Hi). f_equal. apply decide_ext.
      rewrite not_elem_of_cons. naive_solver.
Qed.

Lemma updateFound_absent id f panels :
  id ∉ Panel.id <$> panels → updateFound id f panels = panels.
Proof.
  induction panels as [|p ps IH]; [done|]. cbn [updateFound fmap list_fmap].
  rewrite not_elem_of_cons. intros [Hp Hps]. rewrite eqb_decide.
  rewrite bool_decide_eq_false_2 by done. by rewrite IH.
Qed.

Lemma withPanels_same s : withPanels (Project.panels s) s = s.
Proof. by destruct s. Qed.

(** X6.  [updatePanel] and [setPanelImage] change the first panel that has
    the given identifier and nothing else: the identifiers and their order
    stay, every other panel stays (a later panel with the same identifier
    too), the rest of the state stays, and for an identifier that no panel
    has the state is unchanged. *)
Theorem panel_update_first_match (id : string) (newContent : PanelPatch)
    (src assetKey : string) (s : ProjectState) :
  let panels := Project.panels s in
  let first i := id ∉ Panel.id <$> take i panels in
  let s1 := updatePanel id newContent s in
  let s2 := setPanelImage id src assetKey s in
  (panelIds s1 = panelIds s ∧ panelIds s2 = panelIds s)
  ∧ (s1 = withPanels (Project.panels s1) s
     ∧ s2 = withPanels (Project.panels s2) s)
  ∧ (∀ i p, panels !! i = Some p →
       Project.panels s1 !! i
       = Some (if decide (Panel.id p = id ∧ first i)
               then assignPanel newContent p else p)
       ∧ Project.panels s2 !! i
         = Some (if decide (Panel.id p = id ∧ first i)
                 then Panel.mk (Panel.id p) src assetKey (Panel.script p)
                 else p))
  ∧ (id ∉ panelIds s → s1 = s ∧ s2 = s).
Proof.
  cbv zeta. unfold panelIds, updatePanel, setPanelImage. split_and!.
  - by apply updateFound_ids.
  - by apply updateFound_ids.
  - done.
  - done.
  - intros i p Hi. split; by apply updateFound_lookup.
  - intros Hid. rewrite !updateFound_absent by done.
    by rewrite withPanels_same.
Qed.

Lemma panel_update_first_match_witness :
  updatePanel "zz" (mkPanelPatch None None (Some "x"))
    (initialState sampleHost) = initialState sampleHost.
Proof.
  apply (panel_update_first_match "zz" (mkPanelPatch None None (Some "x")) "" ""
           (initialState sampleHost)).
  assert (bool_decide ("zz" ∉ panelIds (initialState sampleHost)) = true)
    as H by (by vm_compute).
  by apply bool_decide_eq_true in H.
Defined.

Lemma initialState_ids h :
  Inj (=) (=) (uuidv4 h) → NoDup (panelIds (initialState h)).
Proof.
  intros Hinj. unfold panelIds, initialState, createInitialPanels.
  cbn [Project.panels]. rewrite <-list_fmap_compose.
  apply NoDup_fmap_2; [|apply NoDup_seq]. intros a b E. by apply Hinj.
Qed.

Lemma removePanel_ids id s :
  panelIds (removePanel id s) = filter (λ k, k ≠ id) (panelIds s).
Proof.
  unfold panelIds, removePanel. cbn [Project.panels withPanels].
  induction (Project.panels s) as [|p ps IH]; [done|].
  rewrite fmap_cons, !filter_cons. cbn.
  destruct (decide (Panel.id p ≠ id)); cbn; by rewrite IH.
Qed.

Lemma filter_ne_absent (id : string) (ids : list string) :
  id ∉ ids → filter (λ k, k ≠ id) ids = ids.
Proof.
  induction ids as [|k ks IH]; [done|].
  rewrite not_elem_of_cons, filter_cons. intros [? ?].
  rewrite decide_True by done. by rewrite IH.
Qed.

Lemma filter_ne_length (id : string) (ids : list string) :
  NoDup ids → id ∈ ids →
  (length (filter (λ k, k ≠ id) ids) + 1 = length ids)%nat.
Proof.
  induction 1 as [|k ks Hk Hks IH]; [by intros ?%elem_of_nil|].
  rewrite elem_of_cons, filter_cons. intros [<-|Hin].
  - rewrite decide_False by (by intros ?). cbn.
    rewrite filter_ne_absent by done. lia.
  - rewrite decide_True by (by intros ->). cbn. rewrite IH by done. lia.
Qed.

(** X7.  The panel identifiers are pairwise distinct in the initial project
    (identifiers drawn being distinct) and stay so under every action of the
    store, provided [addPanel] draws an identifier no panel has,
    [reorderPanels] receives a permutation of the panels and [loadProject] a
    project whose panels have distinct identifiers; [removePanel] leaves no
    panel with the given identifier, and with distinct identifiers it
    removes exactly one panel when the identifier is present. *)
Theorem panel_ids_distinct (h : Host) (a : Action) (s : ProjectState) :
  Inj (=) (=) (uuidv4 h) →
  NoDup (panelIds (initialState h))
  ∧ (NoDup (panelIds s) → keepsIds s a → NoDup (panelIds (dispatch h a s)))
  ∧ (∀ id, id ∉ panelIds (removePanel id s))
  ∧ (NoDup (panelIds s) → ∀ id, id ∈ panelIds s →
       (length (Project.panels (removePanel id s)) + 1
        = length (Project.panels s))%nat).
Proof.
  intros Hinj. split_and!.
  - by apply initialState_ids.
  - intros Hs Ha.
    destruct a as [| p | f | f | | | lf | | l | l | | m | lk | | | | | | | c];
      try destruct f; try destruct lf as [[]|]; try destruct c;
      try exact Hs; cbn [dispatch keepsIds] in *.
    + exact Ha.
    + unfold panelIds in *. cbn. rewrite fmap_app. apply NoDup_app.
      split_and!; [done| |apply NoDup_singleton].
      intros x Hx ->%list_elem_of_singleton. done.
    + rewrite removePanel_ids. by apply NoDup_filter.
    + unfold panelIds, updatePanel. cbn. by rewrite updateFound_ids.
    + unfold panelIds, reorderPanels in *. cbn. by rewrite Ha.
    + unfold panelIds, setPanelImage. cbn. by rewrite updateFound_ids.
    + by apply initialState_ids.
  - intros id. rewrite removePanel_ids, list_elem_of_filter. by intros [? _].
  - intros Hs id Hid.
    rewrite <-(length_fmap Panel.id (Project.panels (removePanel id s))).
    rewrite <-(length_fmap Panel.id (Project.panels s)).
    change (length (panelIds (removePanel id s)) + 1 = length (panelIds s))%nat.
    rewrite removePanel_ids. by apply filter_ne_length.
Qed.

Lemma panel_ids_distinct_witness : NoDup (panelIds (initialState tallyHost)).
Proof.
  apply (panel_ids_distinct tallyHost (AddPanel "x") (initialState tallyHost)).
  apply tallyUuid_inj.
Defined.

(** [loadProject] installs the project it is given as it is: one with
    linked sizes and logos of two sizes, and with two panels of one
    identifier, leaves the store so. *)
Lemma load_installs_project :
  ¬ linkedInv (dispatch sampleHost (LoadProject unlinkedProject)
                 (initialState sampleHost))
  ∧ ¬ NoDup (panelIds (dispatch sampleHost (LoadProject unlinkedProject)
                         (initialState sampleHost))).
Proof.
  split.
  - intros H. specialize (H eq_refl _ _ eq_refl eq_refl). discriminate H.
  - intros [H _]%NoDup_cons. apply H. left.
Qed.

Lemma join_split c s : Js.join (String c "") (Js.split c s) = s.
Proof.
  induction s as [|a s IH]; [done|]. cbn [Js.split].
  pose proof (split_nonempty c s) as Hne.
  destruct (Ascii.eqb_spec a c) as [->|Hac].
  - destruct (Js.split c s) as [|w ws] eqn:E; [done|].
    change (Js.join (String c "") ("" :: w :: ws))
      with (String c (Js.join (String c "") (w :: ws))).
    by rewrite IH.
  - destruct (Js.split c s) as [|w ws] eqn:E; [done|].
    rewrite <-IH. destruct ws; reflexivity.
Qed.

Lemma updateFound_Forall (P : Panel.t string → Prop) id f panels :
  (∀ p, P p → P (f p)) → Forall P panels → Forall P (updateFound id f panels).
Proof.
  intros Hf. induction 1 as [|p ps Hp Hps IH]; [done|]. cbn.
  destruct (String.eqb _ _); constructor; auto.
Qed.

Lemma sixLines_truncateScript script :
  sixLines script → truncateScript script = script.
Proof.
  intros H. unfold truncateScript. rewrite take_ge by done. apply join_split.
Qed.

(** X8.  The script editor stores a text only if it has at most six lines
    and otherwise leaves the state as it is; so when every script has at most
    six lines before an edit, every script has at most six lines after it,
    and the six-line cut of the PDF export returns each of them whole. *)
Theorem accepted_script_printed_whole (id value : string) (s : ProjectState) :
  let s' := onScriptChange id value s in
  (Forall (λ p, sixLines (Panel.script p)) (Project.panels s) →
   Forall (λ p, sixLines (Panel.script p)
                ∧ truncateScript (Panel.script p) = Panel.script p)
     (Project.panels s'))
  ∧ (¬ sixLines value → s' = s).
Proof.
  cbv zeta. unfold onScriptChange. split.
  - intros Hs.
    assert (Forall (λ p, sixLines (Panel.script p)
                         ∧ truncateScript (Panel.script p) = Panel.script p)
              (Project.panels s)) as Hs'.
    { eapply Forall_impl; [exact Hs|]. intros p Hp.
      split; [done|]. by apply sixLines_truncateScript. }
    destruct (Nat.leb_spec (length (Js.split "010" value)) 6) as [Hv|];
      [|done].
    unfold updatePanel. cbn. apply updateFound_Forall; [|done].
    intros p _. cbn. split; [done|]. by apply sixLines_truncateScript.
  - intros Hv. unfold sixLines in Hv.
    destruct (Nat.leb_spec (length (Js.split "010" value)) 6); [lia|done].
Qed.

Lemma accepted_script_printed_whole_witness :
  Forall (λ p, sixLines (Panel.script p)
               ∧ truncateScript (Panel.script p) = Panel.script p)
    (Project.panels
       (onScriptChange (sampleUuid 0) "INT. ROOM" (initialState sampleHost))).
Proof.
  apply (accepted_script_printed_whole (sampleUuid 0) "INT. ROOM"
           (initialState sampleHost)).
  repeat constructor.
Defined.

(** ** A new panel in the export *)

Lemma drawScript_empty m box : drawScript m box "" = [].
Proof. reflexivity. Qed.

Lemma panelChunks_lookup {A} (panels : list A) k :
  panelChunks panels !! k
  = if decide (6 * k < length panels)%nat
    then Some (take 6 (drop (6 * k) panels)) else None.
Proof. unfold panelChunks. by rewrite panelChunksFrom_lookup. Qed.

(** X5.  A panel added with [addPanel] to a project of [n] panels is drawn
    by the export as the last cell of panel page [n / 6], in column
    [(n mod 6) mod 3] of row [(n mod 6) / 3], with the number [n + 1], no
    image and no script text; the document then has [n / 6 + 3] pages. *)
Theorem added_panel_drawn (pdf : Pdf) (id : string) (s : ProjectState) :
  let n := length (Project.panels s) in
  let s' := addPanel id s in
  let x := (PAGE_MARGIN + Qnat ((n mod 6) mod 3) * (panelWidth + colGap))%Q in
  let y := (PAGE_MARGIN + Qnat ((n mod 6) / 3) * (panelHeight + rowGap))%Q in
  length (exportToPdf pdf s') = (n / 6 + 3)%nat
  ∧ ∃ cells,
      exportToPdf pdf s' !! (n / 6 + 1)%nat = Some (PanelPg cells)
      ∧ length cells = (n mod 6 + 1)%nat
      ∧ last cells
        = Some (mkPanelDrawing x y panelWidth panelHeight n None []).
Proof.
  cbv zeta. set (n := length (Project.panels s)).
  set (new := Panel.mk (D:=string) id "" "" "").
  pose proof (Nat.div_mod_eq n 6) as Hn.
  pose proof (Nat.mod_upper_bound n 6 ltac:(lia)) as Hm.
  assert (panelChunks (Project.panels (addPanel id s)) !! (n / 6)%nat
          = Some (drop (6 * (n / 6)) (Project.panels s) ++ [new])%list) as Hc.
  { rewrite panelChunks_lookup. cbn [addPanel withPanels Project.panels].
    rewrite length_app. cbn [length]. fold n. rewrite decide_True by lia.
    rewrite drop_app_le by (fold n; lia).
    rewrite take_ge; [done|]. rewrite length_app, length_drop. fold n.
    cbn [length]. lia. }
  split.
  - unfold exportToPdf. rewrite !length_app, length_imap, panelChunks_length.
    cbn [addPanel withPanels Project.panels length]. rewrite length_app.
    fold n. cbn [length].
    replace (n + 1 + 5)%nat with (n mod 6 + (n / 6 + 1) * 6)%nat by lia.
    rewrite Nat.div_add by lia. rewrite Nat.div_small by lia. lia.
  - eexists. split_and!.
    + unfold exportToPdf. rewrite lookup_app_r by (cbn; lia). cbn [length].
      replace (n / 6 + 1 - 1)%nat with (n / 6)%nat by lia.
      rewrite lookup_app_l.
      2:{ rewrite length_imap. by apply lookup_lt_is_Some; rewrite Hc. }
      rewrite list_lookup_imap, Hc. reflexivity.
    + unfold drawPanelPage. rewrite length_imap, length_app, length_drop.
      fold n. cbn [length]. lia.
    + unfold drawPanelPage. rewrite imap_app, last_app. cbn [imap last].
      rewrite length_drop. fold n.
      replace (n - 6 * (n / 6) + 0)%nat with (n mod 6)%nat by lia.
      subst new.
      cbv [drawCell drawPanelTemplate Panel.image Panel.script Js.falsy cols].
      rewrite drawScript_empty. do 2 f_equal. lia.
Qed.

(** ** The parts of a script *)

Lemma concat_cons x l : String.concat "" (x :: l) = x +:+ String.concat "" l.
Proof. destruct l; cbn [String.concat]; app_step; by rewrite ?append_nil_r. Qed.

Lemma scanParts_concat s plain span :
  String.concat "" (scanParts s plain span)
  = plain +:+ match span with Some b => b | None => "" end +:+ s.
Proof.
  revert plain span.
  induction s as [|c s IH]; intros plain [b|]; cbn [scanParts].
  - cbn [String.concat]. by rewrite !append_nil_r.
  - cbn [String.concat]. by rewrite !append_nil_r.
  - destruct (Ascii.eqb_spec c "]") as [->|Hc].
    + rewrite concat_cons, concat_cons, IH. app_step.
      by rewrite !append_assoc.
    + rewrite IH. rewrite !append_assoc. by app_step.
  - destruct (Ascii.eqb_spec c "[") as [->|Hc].
    + rewrite IH. by app_step.
    + rewrite IH. rewrite !append_assoc. by app_step.
Qed.

Lemma concat_filter l :
  String.concat "" (filter (λ part, negb (Js.falsy part) = true) l)
  = String.concat "" l.
Proof.
  induction l as [|x l IH]; [done|]. rewrite filter_cons, concat_cons.
  destruct x as [|a x].
  - by rewrite decide_False by (by cbn).
  - rewrite decide_True by done. by rewrite concat_cons, IH.
Qed.

(** X12.  The parts into which a script is cut are non-empty and, put
    together again, give the script back: no character is lost or added.  A
    text without an opening bracket is one part; a text [a[b]rest] whose [a]
    has no opening and whose [b] has no closing bracket is cut into [a] (if
    not empty), the span [[b]] and the parts of [rest]. *)
Theorem splitParts_lossless (scriptText : string) :
  String.concat "" (splitParts scriptText) = scriptText
  ∧ Forall (λ part, part ≠ "") (splitParts scriptText)
  ∧ (∀ a b rest,
       scriptText = a +:+ spanOf b +:+ rest →
       Js.includes "["%char a = false →
       Js.includes "]"%char b = false →
       splitParts scriptText
       = (if Js.falsy a then [] else [a]) ++ spanOf b :: splitParts rest)%list
  ∧ (Js.includes "["%char scriptText = false →
     splitParts scriptText = if Js.falsy scriptText then [] else [scriptText]).
Proof.
  unfold splitParts. split_and!.
  - rewrite concat_filter, scanParts_concat. done.
  - apply Forall_forall. intros p [Hp _]%list_elem_of_filter. by destruct p.
  - intros a b rest -> Ha Hb. rewrite scanParts_plain by done.
    unfold spanOf. app_step. cbn [scanParts Ascii.eqb Bool.eqb].
    rewrite append_assoc. app_step. rewrite scanParts_span by done.
    rewrite !filter_cons. app_step. destruct a as [|x a]; cbn [Js.falsy].
    + rewrite decide_False by (by cbn). rewrite decide_True by done. done.
    + rewrite decide_True by done. rewrite decide_True by done. done.
  - intros Hs. rewrite <-(append_nil_r scriptText) at 1.
    rewrite scanParts_plain by done. by destruct scriptText.
Qed.

Lemma splitParts_lossless_witness :
  splitParts "He says [aside] hello" = ["He says "; "[aside]"; " hello"].
Proof.
  destruct (splitParts_lossless "He says [aside] hello") as (_ & _ & H & H').
  rewrite (H "He says " "aside" " hello") by reflexivity.
  rewrite (proj2 (proj2 (proj2 (splitParts_lossless " hello")))) by reflexivity.
  reflexivity.
Defined.

(** ** The script in its box *)

Lemma Qnat_S k : (Qnat (S k) == Qnat k + 1)%Q.
Proof.
  unfold Qnat. rewrite Nat2Z.inj_succ. unfold Z.succ.
  by rewrite inject_Z_plus.
Qed.

Lemma checkYBounds_spec box c :
  checkYBounds box c = true ↔ (cursorY c <= yMax box)%Q.
Proof. apply Qle_bool_iff. Qed.

Section LayoutLines.
Variable getTextWidth : bool → string → Q.
Variable box : ScriptBox.
Local Abbreviation drawWords := (drawWords getTextWidth box).
Local Abbreviation drawLines := (drawLines getTextWidth box).
Local Abbreviation drawParts := (drawParts getTextWidth box).
Local Abbreviation cursorOnLine := (cursorOnLine box).

Lemma newLine_onLine c : cursorOnLine c → cursorOnLine (newLine box c).
Proof.
  intros ([k Hk] & Hd). split; cbn; [|done].
  exists (S k). cbn [baseline]. unfold Float64.add. apply round_proper.
  by rewrite Hk.
Qed.

Lemma putText_onLine bold t w c :
  cursorOnLine c → checkYBounds box c = true →
  cursorOnLine (putText bold t w c).
Proof.
  intros (Hk & Hd) Hy%checkYBounds_spec. split; cbn; [done|].
  apply Forall_app. split; [done|]. by apply Forall_singleton.
Qed.

Lemma drawWords_onLine bold words c :
  cursorOnLine c → cursorOnLine (drawWords bold words c).
Proof.
  revert c. induction words as [|word rest IH]; intros c Hc; [done|].
  simpl. destruct (checkYBounds box c) eqn:Hy; simpl; [|done].
  destruct (Qgtb (cursorX c) (lineStart box)
            && Qgtb (Float64.add (cursorX c) _) (lineEnd box)).
  - destruct (checkYBounds box (newLine box c)) eqn:Hy'; simpl.
    + apply IH. apply putText_onLine; [by apply newLine_onLine|done].
    + by apply newLine_onLine.
  - apply IH. by apply putText_onLine.
Qed.

Lemma drawLines_onLine bold lines c :
  cursorOnLine c → cursorOnLine (drawLines bold lines c).
Proof.
  revert c. induction lines as [|line rest IH]; intros c Hc; [done|].
  simpl. destruct (checkYBounds box c); simpl; [|done].
  apply IH.
  pose proof (drawWords_onLine bold (Js.split " " line) c Hc) as H.
  destruct rest; [done|]. by apply newLine_onLine.
Qed.

Lemma drawParts_onLine parts c :
  cursorOnLine c → cursorOnLine (drawParts parts c).
Proof.
  revert c. induction parts as [|part rest IH]; intros c Hc; [done|].
  simpl. destruct (checkYBounds box c); simpl; [|done].
  by apply IH, drawLines_onLine.
Qed.

Lemma drawScript_onLine script :
  Forall (opOnLine box) (drawScript getTextWidth box script).
Proof.
  unfold drawScript.
  apply (drawParts_onLine _ (mkCursor (lineStart box) (firstY box) [])).
  split; cbn; [|constructor]. by exists 0%nat.
Qed.

End LayoutLines.

Section LayoutBounds.
Variable getTextWidth : bool → string → Q.
Variable box : ScriptBox.
Hypothesis width_nonneg : ∀ bold s, (0 <= getTextWidth bold s)%Q.
Hypothesis lineStart_double :
  (Float64.round (lineStart box) == lineStart box)%Q.
Local Abbreviation drawWords := (drawWords getTextWidth box).
Local Abbreviation drawLines := (drawLines getTextWidth box).
Local Abbreviation drawParts := (drawParts getTextWidth box).
Local Abbreviation cursorInBox := (cursorInBox getTextWidth box).
Local Abbreviation opInBox := (opInBox getTextWidth box).

Lemma newLine_inBox c : cursorInBox c → cursorInBox (newLine box c).
Proof. intros (Hx & Hd). split; cbn; [lra|done]. Qed.

Lemma putText_inBox bold t c :
  cursorInBox c →
  ((cursorX c == lineStart box)%Q
   ∨ (Float64.add (cursorX c) (getTextWidth bold t) <= lineEnd box)%Q) →
  cursorInBox (putText bold t (getTextWidth bold t) c).
Proof.
  intros (Hx & Hd) Hfit. split; cbn.
  - pose proof (width_nonneg bold t).
    rewrite <-lineStart_double. apply round_mono. lra.
  - apply Forall_app. split; [done|]. by apply Forall_singleton.
Qed.

Lemma drawWords_inBox bold words c :
  cursorInBox c → cursorInBox (drawWords bold words c).
Proof.
  revert c. induction words as [|word rest IH]; intros c Hc; [done|].
  simpl. destruct (checkYBounds box c) eqn:Hy; simpl; [|done].
  destruct (Qgtb (cursorX c) (lineStart box)
            && Qgtb (Float64.add (cursorX c) _) (lineEnd box)) eqn:Hwrap.
  - destruct (checkYBounds box (newLine box c)) eqn:Hy'; simpl.
    + apply IH. apply putText_inBox; [by apply newLine_inBox|].
      left. reflexivity.
    + by apply newLine_inBox.
  - apply IH. apply putText_inBox; [done|].
    apply andb_false_iff in Hwrap as [H|H]; apply Qgtb_false in H.
    + left. destruct Hc as (Hx & _). lra.
    + by right.
Qed.

Lemma drawLines_inBox bold lines c :
  cursorInBox c → cursorInBox (drawLines bold lines c).
Proof.
  revert c. induction lines as [|line rest IH]; intros c Hc; [done|].
  simpl. destruct (checkYBounds box c); simpl; [|done].
  apply IH.
  pose proof (drawWords_inBox bold (Js.split " " line) c Hc) as H.
  destruct rest; [done|]. by apply newLine_inBox.
Qed.

Lemma drawParts_inBox parts c :
  cursorInBox c → cursorInBox (drawParts parts c).
Proof.
  revert c. induction parts as [|part rest IH]; intros c Hc; [done|].
  simpl. destruct (checkYBounds box c); simpl; [|done].
  by apply IH, drawLines_inBox.
Qed.

Lemma drawScript_inBox script :
  Forall opInBox (drawScript getTextWidth box script).
Proof.
  unfold drawScript.
  apply (drawParts_inBox _ (mkCursor (lineStart box) (firstY box) [])).
  split; cbn; [lra|constructor].
Qed.

End LayoutBounds.

Lemma scriptBoxOf_lineStart x y width height :
  (Float64.round (lineStart (scriptBoxOf x y width height))
   == lineStart (scriptBoxOf x y width height))%Q.
Proof. apply round_idem. Qed.

(** X9.  Every text the script layout draws lies on one of the baselines of
    the box (the first one [firstY], each next one [LINE_HEIGHT] below the
    last, added as doubles) and not below [yMax].  Text widths being
    non-negative and the left edge of the box a double, as it is in the
    script box of every panel frame, it starts at or right of the left edge,
    and it either starts a line or ends, its start and its width added as
    doubles, within the right edge. *)
Theorem script_stays_in_box (getTextWidth : bool → string → Q)
    (box : ScriptBox) (script : string) :
  (∀ op, op ∈ drawScript getTextWidth box script →
     (∃ k : nat, opY op == baseline box k)%Q ∧ (opY op <= yMax box)%Q)
  ∧ ((∀ bold s, (0 <= getTextWidth bold s)%Q) →
     (Float64.round (lineStart box) == lineStart box)%Q →
     ∀ op, op ∈ drawScript getTextWidth box script →
       (lineStart box <= opX op)%Q
       ∧ ((opX op == lineStart box)%Q
          ∨ (Float64.add (opX op) (getTextWidth (opBold op) (opText op))
             <= lineEnd box)%Q))
  ∧ (∀ x y width height,
       (Float64.round (lineStart (scriptBoxOf x y width height))
        == lineStart (scriptBoxOf x y width height))%Q).
Proof.
  split_and!.
  - intros op Hop.
    pose proof (drawScript_onLine getTextWidth box script) as H.
    rewrite Forall_forall in H. by apply H.
  - intros Hw Hd op Hop.
    pose proof (drawScript_inBox getTextWidth box Hw Hd script) as H.
    rewrite Forall_forall in H. by apply H.
  - apply scriptBoxOf_lineStart.
Qed.

Lemma sampleWidth_nonneg bold s : (0 <= sampleWidth bold s)%Q.
Proof.
  unfold sampleWidth, Qnat. apply Qmult_le_0_compat; [|done].
  unfold Qle. cbn. lia.
Qed.

Lemma script_stays_in_box_witness :
  Forall (λ op, (lineStart panelScriptBox <= opX op)%Q)
    (drawScript sampleWidth panelScriptBox "aaaa bbbb").
Proof.
  apply Forall_forall. intros op Hop.
  apply (script_stays_in_box sampleWidth panelScriptBox "aaaa bbbb");
    [apply sampleWidth_nonneg|by vm_compute|exact Hop].
Defined.

Lemma panelWidth_value : (panelWidth == 904 / 3)%Q.
Proof. by vm_compute. Qed.

Lemma panelHeight_value : (panelHeight == 334)%Q.
Proof. by vm_compute. Qed.

Lemma Qnat_values :
  (Qnat 0 == 0 ∧ Qnat 1 == 1 ∧ Qnat 2 == 2)%Q.
Proof. by vm_compute. Qed.

(** X11.  The six cells of a panel page lie within the page margins, and
    two different cells are apart by the column gap or by the row gap. *)
Theorem cells_on_page (pdf : Pdf) (k i j : nat) (p q : Panel.t string) :
  (i < 6)%nat → (j < 6)%nat →
  let a := drawCell pdf k i p in
  let b := drawCell pdf k j q in
  ((PAGE_MARGIN <= cellX a)%Q
   ∧ (cellX a + cellWidth a <= PDF_WIDTH - PAGE_MARGIN)%Q
   ∧ (PAGE_MARGIN <= cellY a)%Q
   ∧ (cellY a + cellHeight a <= PDF_HEIGHT - PAGE_MARGIN)%Q)
  ∧ (i ≠ j →
     (cellX a + cellWidth a + colGap <= cellX b)%Q
     ∨ (cellX b + cellWidth b + colGap <= cellX a)%Q
     ∨ (cellY a + cellHeight a + rowGap <= cellY b)%Q
     ∨ (cellY b + cellHeight b + rowGap <= cellY a)%Q).
Proof.
  intros Hi Hj. cbv zeta. unfold drawCell, drawPanelTemplate.
  cbn [cellX cellY cellWidth cellHeight].
  destruct i as [|[|[|[|[|[|]]]]]]; try lia;
    destruct j as [|[|[|[|[|[|]]]]]]; try lia.
  all: split; [split_and!; by vm_compute|].
  all: intros Hne; try done.
  all: first [ left; by vm_compute
             | right; left; by vm_compute
             | right; right; left; by vm_compute
             | right; right; right; by vm_compute ].
Qed.

Lemma cells_on_page_witness :
  (cellX (drawCell samplePdf 0 1 (Panel.mk "a" "" "" ""))
   + cellWidth (drawCell samplePdf 0 1 (Panel.mk "a" "" "" "")) + colGap
   <= cellX (drawCell samplePdf 0 2 (Panel.mk "b" "" "" "")))%Q.
Proof.
  destruct (cells_on_page samplePdf 0 1 2 (Panel.mk "a" "" "" "")
              (Panel.mk "b" "" "" "")) as [_ H]; [lia..|].
  destruct H as [H|[H|[H|H]]]; [lia|done|exfalso..]; revert H; by vm_compute.
Defined.

Lemma add_proper a b c : (a == b)%Q → (Float64.add a c == Float64.add b c)%Q.
Proof. intros E. unfold Float64.add. apply round_proper. by rewrite E. Qed.

Lemma baseline_proper box box' k :
  (firstY box == firstY box')%Q → (baseline box k == baseline box' k)%Q.
Proof.
  intros E. induction k as [|k IH]; [done|]. cbn [baseline].
  by apply add_proper.
Qed.

(** The baselines of the script box in a row of the grid, whose cells have
    their top at 40 or at 394: the sums are exact up to the seventh, and from
    the eighth on a baseline is below the lower bound. *)
Lemma row_baselines y k :
  y = 40%Q ∨ y = 394%Q →
  ((k ≤ 6)%nat ∧ (baseline (rowBox y) k == y + 913 / 4 + Qnat k * LINE_HEIGHT)%Q)
  ∨ (y + 314 < baseline (rowBox y) k)%Q.
Proof.
  intros Hy.
  destruct (decide (k ≤ 6)%nat) as [Hk|Hk].
  - left. split; [done|].
    destruct Hy as [-> | ->];
      do 7 (destruct k as [|k]; [by vm_compute|]); lia.
  - right. assert (7 ≤ k)%nat as Hk7 by lia. clear Hk.
    induction Hk7 as [|k Hk7 IH].
    + destruct Hy as [-> | ->]; by vm_compute.
    + cbn [baseline]. unfold Float64.add.
      apply Qlt_le_trans with (Float64.round (y + 314 + LINE_HEIGHT)).
      * destruct Hy as [-> | ->]; by vm_compute.
      * apply round_mono. lra.
Qed.

Lemma row_script_lines m box y0 script op :
  y0 = 40%Q ∨ y0 = 394%Q →
  (firstY box == y0 + 913 / 4)%Q →
  (yMax box == y0 + 314)%Q →
  op ∈ drawScript m box script →
  (∃ n : nat, (n ≤ 6)%nat ∧ opY op == y0 + 913 / 4 + Qnat n * LINE_HEIGHT)%Q
  ∧ (opY op <= y0 + 314)%Q.
Proof.
  intros Hy0 Hf Hm Hop.
  pose proof (drawScript_onLine m box script) as H.
  rewrite Forall_forall in H. destruct (H op Hop) as ([n Hn] & Hle).
  assert (firstY box == firstY (rowBox y0))%Q as Hf' by done.
  rewrite (baseline_proper _ _ n Hf') in Hn. rewrite Hm in Hle.
  split; [|done].
  destruct (row_baselines y0 n Hy0) as [[Hn6 Hb]|Hb].
  - exists n. split; [done|]. by rewrite Hn, Hb.
  - rewrite <-Hn in Hb. lra.
Qed.

(** The script boxes of the six cells: left and right text edge, first
    baseline and lower bound, as doubles. *)
Lemma cell_script_boxes :
  boxEq (cellScriptBox 0)
    (mkScriptBox 60 (5652955782272341 # 17592186044416) (1073 # 4) 354) = true
  ∧ boxEq (cellScriptBox 1)
      (mkScriptBox (6708486944937301 # 17592186044416)
         (5652955782272341 # 8796093022208) (1073 # 4) 354) = true
  ∧ boxEq (cellScriptBox 2)
      (mkScriptBox (6180721363604821 # 8796093022208) 964 (1073 # 4) 354) = true
  ∧ boxEq (cellScriptBox 3)
      (mkScriptBox 60 (5652955782272341 # 17592186044416) (2489 # 4) 708) = true
  ∧ boxEq (cellScriptBox 4)
      (mkScriptBox (6708486944937301 # 17592186044416)
         (5652955782272341 # 8796093022208) (2489 # 4) 708) = true
  ∧ boxEq (cellScriptBox 5)
      (mkScriptBox (6180721363604821 # 8796093022208) 964 (2489 # 4) 708) = true.
Proof. split_and!; by vm_compute. Qed.

(** The left text edge of a cell is a double; it and the right text edge lie
    at most [10^-12] inside the frame that is 20 within the cell. *)
Lemma cellScriptBox_edges i :
  (i < 6)%nat →
  let box := cellScriptBox i in
  let x := (PAGE_MARGIN + Qnat (i mod cols) * (panelWidth + colGap))%Q in
  (Float64.round (lineStart box) == lineStart box)%Q
  ∧ (x + 20 - 1 / 1000000000000 <= lineStart box)%Q
  ∧ (lineStart box <= x + 20)%Q
  ∧ (x + panelWidth - 20 - 1 / 1000000000000 <= lineEnd box)%Q
  ∧ (lineEnd box <= x + panelWidth - 20)%Q.
Proof.
  intros Hi. cbv zeta.
  destruct i as [|[|[|[|[|[|]]]]]]; try lia; split_and!; by vm_compute.
Qed.

(** X10.  In each of the six cells of a panel page the script is drawn on at
    most seven baselines, 14 apart, the first 228.25 below the top of the
    cell, and none lower than 20 above the bottom of the cell, whatever the
    widths of the texts; and so it is in any script box that has the first
    baseline and the lower bound of the cell's, whatever its left and right
    text edges.  Text widths being non-negative, every text starts no more
    than [10^-12] left of the line 20 right of the cell's left side, and it
    either starts a line of the script box or ends, its start and its width
    added as doubles, at least 20 left of the cell's right side. *)
Theorem cell_script_inside (pdf : Pdf) (k i : nat) (panel : Panel.t string) :
  (i < 6)%nat →
  let cell := drawCell pdf k i panel in
  let lines op :=
    (∃ n : nat, (n ≤ 6)%nat
       ∧ opY op == cellY cell + 913 / 4 + Qnat n * LINE_HEIGHT)%Q
    ∧ (opY op <= cellY cell + cellHeight cell - 20)%Q in
  (∀ op, op ∈ scriptOps cell → lines op)
  ∧ (∀ getTextWidth lineStart lineEnd script op,
       op ∈ drawScript getTextWidth
              (mkScriptBox lineStart lineEnd (cellY cell + 913 / 4)
                 (cellY cell + cellHeight cell - 20)) script →
       lines op)
  ∧ ((∀ bold s, (0 <= getTextWidth pdf bold s)%Q) →
     ∀ op, op ∈ scriptOps cell →
       (cellX cell + 20 - 1 / 1000000000000 <= opX op)%Q
       ∧ ((opX op == lineStart (cellScriptBox i))%Q
          ∨ (Float64.add (opX op) (getTextWidth pdf (opBold op) (opText op))
             <= cellX cell + cellWidth cell - 20)%Q)).
Proof.
  intros Hi cell. subst cell. unfold drawCell in *.
  pose proof (cellScriptBox_edges i Hi) as He. unfold cellScriptBox in *.
  set (x := (PAGE_MARGIN + Qnat (i mod cols) * (panelWidth + colGap))%Q) in *.
  set (y := (PAGE_MARGIN + Qnat (i / cols) * (panelHeight + rowGap))%Q) in *.
  cbn [drawPanelTemplate scriptOps cellX cellY cellWidth cellHeight] in *.
  set (box := scriptBoxOf x y panelWidth panelHeight) in *.
  assert (∃ y0, (y0 = 40%Q ∨ y0 = 394%Q) ∧ (y == y0)%Q
                ∧ (firstY box == y0 + 913 / 4)%Q
                ∧ (yMax box == y0 + 314)%Q) as (y0 & Hy0 & Hy & Hf & Hm).
  { destruct i as [|[|[|[|[|[|]]]]]]; try lia;
      [exists 40%Q| exists 40%Q| exists 40%Q
      |exists 394%Q| exists 394%Q| exists 394%Q];
      (split; [auto|]); split_and!; by vm_compute. }
  assert (y + panelHeight - 20 == y0 + 314)%Q as Hb
    by (rewrite panelHeight_value, Hy; ring).
  cbv zeta in He |- *. split_and!.
  - intros op Hop.
    destruct (row_script_lines _ box y0 _ op Hy0 Hf Hm Hop) as ([n [Hn6 Hn]] & Hle).
    split; [exists n; split; [done|]; by rewrite Hn, Hy|by rewrite Hb].
  - intros m ls le script op Hop.
    eapply (row_script_lines _ _ y0) in Hop as ([n [Hn6 Hn]] & Hle);
      [|done|cbn [firstY]; by rewrite Hy|cbn [yMax]; exact Hb].
    split; [exists n; split; [done|]; by rewrite Hn, Hy|by rewrite Hb].
  - intros Hw op Hop. destruct He as (Hd & Hl1 & Hl2 & Hr1 & Hr2).
    pose proof (drawScript_inBox (getTextWidth pdf) box Hw Hd
                  (Panel.script panel)) as H.
    rewrite Forall_forall in H. destruct (H op Hop) as [Hx Hfit].
    split.
    + clearbody x box. lra.
    + destruct Hfit as [Hfit|Hfit]; [by left|right].
      clearbody x box. lra.
Qed.

Lemma cell_script_inside_witness :
  Forall
    (λ op, (opY op <= cellY (drawCell samplePdf 0 0 scriptedPanel)
                      + cellHeight (drawCell samplePdf 0 0 scriptedPanel) - 20)%Q)
    (scriptOps (drawCell samplePdf 0 0 scriptedPanel)).
Proof.
  apply Forall_forall. intros op Hop.
  apply (cell_script_inside samplePdf 0 0 scriptedPanel); [lia|exact Hop].
Defined.

(** ** Logos *)


Lemma Qhalf q : (2 * (q / 2) == q)%Q.
Proof. field. Qed.

Lemma getPDFLogoPosition_inside position w h pageWidth pageHeight padding :
  (w + 2 * padding <= pageWidth)%Q → (h + 2 * padding <= pageHeight)%Q →
  (0 <= padding)%Q →
  let pos := getPDFLogoPosition position w h pageWidth pageHeight padding in
  (padding <= pos.1)%Q ∧ (pos.1 + w <= pageWidth - padding)%Q
  ∧ (padding <= pos.2)%Q ∧ (pos.2 + h <= pageHeight - padding)%Q.
Proof.
  intros Hw Hh Hp. cbv zeta.
  pose proof (Qhalf (pageWidth - w)) as Hx.
  pose proof (Qhalf (pageHeight - h)) as Hy.
  revert Hx Hy.
  destruct position; cbn [getPDFLogoPosition fst snd];
    generalize ((pageWidth - w) / 2)%Q, ((pageHeight - h) / 2)%Q;
    intros cx cy Hx Hy; split_and!; lra.
Qed.

Lemma logoPlacement_size size position nw nh pageWidth pageHeight margin :
  (0 < nw)%Q → (0 < nh)%Q →
  let p := logoPlacement size position nw nh pageWidth pageHeight margin in
  let box := getPDFLogoSize size in
  (0 < drawWidth p)%Q ∧ (drawWidth p <= box.1)%Q
  ∧ (0 < drawHeight p)%Q ∧ (drawHeight p <= box.2)%Q
  ∧ (drawWidth p * nh == drawHeight p * nw)%Q
  ∧ ((drawWidth p == box.1)%Q ∨ (drawHeight p == box.2)%Q)
  ∧ (drawX p, drawY p)
    = getPDFLogoPosition position (drawWidth p) (drawHeight p)
        pageWidth pageHeight (margin / 2)%Q.
Proof.
  intros Hnw Hnh. unfold logoPlacement.
  assert (0 < (getPDFLogoSize size).1 ∧ 0 < (getPDFLogoSize size).2)%Q
    as [Hmw Hmh] by (by destruct size).
  destruct (getPDFLogoSize size) as [mw mh]. cbn [fst snd] in *. cbv zeta.
  assert (0 < nw / nh)%Q as Hr by (by apply Qlt_shift_div_l; lra).
  destruct (Qgtb (mw / (nw / nh)) mh) eqn:E.
  - apply Qgtb_true in E.
    assert (mh * (nw / nh) < mw)%Q as Hlt.
    { apply (Qmult_lt_r _ _ (nw / nh)) in E; [|done].
      assert (mw / (nw / nh) * (nw / nh) == mw)%Q as Eq by (field; lra).
      by rewrite Eq in E. }
    destruct (getPDFLogoPosition _ _ _ _ _ _) as [x y] eqn:Ep.
    cbn [drawWidth drawHeight drawX drawY]. split_and!.
    + by apply Qmult_lt_0_compat.
    + lra.
    + done.
    + lra.
    + field; lra.
    + right. reflexivity.
    + done.
  - apply Qgtb_false in E.
    destruct (getPDFLogoPosition _ _ _ _ _ _) as [x y] eqn:Ep.
    cbn [drawWidth drawHeight drawX drawY]. split_and!.
    + done.
    + lra.
    + by apply Qlt_shift_div_l; lra.
    + done.
    + field; lra.
    + left. reflexivity.
    + done.
Qed.

(** X13.  A logo whose image loads with positive natural sides is drawn on
    a title or end page within the box of its size setting, touching the box
    in width or in height, with the aspect ratio of the image, and entirely
    on the page, at least half the page margin away from each edge,
    whatever its position setting. *)
Theorem logo_on_page (pdf : Pdf) (logo : Logo.t string) (nw nh : Q) :
  loadImage pdf (Logo.src logo) = Some (nw, nh) →
  (0 < nw)%Q → (0 < nh)%Q →
  ∃ p, drawPageLogo pdf (Some logo) = Some p
       ∧ (0 < drawWidth p <= (getPDFLogoSize (Logo.size logo)).1)%Q
       ∧ (0 < drawHeight p <= (getPDFLogoSize (Logo.size logo)).2)%Q
       ∧ (drawWidth p * nh == drawHeight p * nw)%Q
       ∧ ((drawWidth p == (getPDFLogoSize (Logo.size logo)).1)%Q
          ∨ (drawHeight p == (getPDFLogoSize (Logo.size logo)).2)%Q)
       ∧ (20 <= drawX p)%Q ∧ (drawX p + drawWidth p <= PDF_WIDTH - 20)%Q
       ∧ (20 <= drawY p)%Q ∧ (drawY p + drawHeight p <= PDF_HEIGHT - 20)%Q.
Proof.
  intros Hload Hnw Hnh. unfold drawPageLogo, drawLogo. rewrite Hload.
  eexists. split; [reflexivity|].
  destruct (logoPlacement_size (Logo.size logo) (Logo.position logo) nw nh
              PDF_WIDTH PDF_HEIGHT PAGE_MARGIN Hnw Hnh)
    as (Hw0 & Hw & Hh0 & Hh & Hasp & Htouch & Hpos).
  set (p := logoPlacement _ _ _ _ _ _ _) in *.
  assert ((getPDFLogoSize (Logo.size logo)).1 <= 341
          ∧ (getPDFLogoSize (Logo.size logo)).2 <= 461)%Q as [Hbw Hbh].
  { destruct (Logo.size logo); split; by vm_compute. }
  assert (PAGE_MARGIN / 2 == 20)%Q as Hm by reflexivity.
  assert (PDF_WIDTH == 1024)%Q as HW by reflexivity.
  assert (PDF_HEIGHT == 768)%Q as HH by reflexivity.
  destruct (getPDFLogoPosition_inside (Logo.position logo) (drawWidth p)
              (drawHeight p) PDF_WIDTH PDF_HEIGHT (PAGE_MARGIN / 2)%Q)
    as (Hx1 & Hx2 & Hy1 & Hy2); [lra..|].
  rewrite <-Hpos in Hx1, Hx2, Hy1, Hy2. cbn [fst snd] in *.
  split_and!; try done; lra.
Qed.

Lemma logo_on_page_witness :
  ∃ p, drawPageLogo samplePdf (Some defaultLogo) = Some p
       ∧ (drawX p + drawWidth p <= PDF_WIDTH - 20)%Q.
Proof.
  destruct (logo_on_page samplePdf defaultLogo 1920 1080 eq_refl)
    as (p & Hp & _ & _ & _ & _ & _ & Hx & _); [done..|].
  by exists p.
Defined.

(** ** File names *)

Lemma toLowerCase_underscores n s :
  toLowerCase (underscores n s) = underscores n (toLowerCase s).
Proof. induction n as [|n IH]; [done|]. cbn. by rewrite IH. Qed.

Lemma allChars_underscores n s :
  allChars safeChar (underscores n s) = allChars safeChar s.
Proof. induction n as [|n IH]; [done|]. cbn [underscores allChars]. by rewrite IH. Qed.

Lemma length_underscores n s :
  String.length (underscores n s) = (n + String.length s)%nat.
Proof. induction n as [|n IH]; [done|]. cbn. by rewrite IH. Qed.

Lemma alnum_char c :
  isDigit c || isLower c || isUpper c = true →
  utf8Units c = (1, 0)%nat
  ∧ safeChar (if isUpper c then ascii_of_nat (nat_of_ascii c + 32) else c) = true.
Proof.
  destruct c as [[] [] [] [] [] [] [] []]; vm_compute; try done.
Qed.

Lemma safe_char c :
  safeChar c = true →
  isUpper c = false
  ∧ (isDigit c || isLower c || isUpper c = false → c = "_"%char).
Proof.
  destruct c as [[] [] [] [] [] [] [] []]; vm_compute; try done.
Qed.

Lemma sanitize_safe skip s :
  allChars safeChar (toLowerCase (replaceFrom skip s)) = true.
Proof.
  revert skip. induction s as [|c s IH]; intros skip; [done|].
  cbn [replaceFrom]. destruct skip as [|skip]; [|apply IH].
  destruct (isDigit c || isLower c || isUpper c) eqn:E.
  - cbn [toLowerCase allChars]. rewrite IH, andb_true_r.
    by apply alnum_char.
  - destruct (utf8Units c) as [units continuation].
    by rewrite toLowerCase_underscores, allChars_underscores.
Qed.

Lemma sanitize_length skip s :
  String.length (toLowerCase (replaceFrom skip s)) = utf16LengthFrom skip s.
Proof.
  revert skip. induction s as [|c s IH]; intros skip; [done|].
  cbn [replaceFrom utf16LengthFrom]. destruct skip as [|skip]; [|apply IH].
  destruct (isDigit c || isLower c || isUpper c) eqn:E.
  - destruct (alnum_char c E) as [-> _]. cbn [toLowerCase String.length].
    by rewrite IH.
  - destruct (utf8Units c) as [units continuation].
    by rewrite toLowerCase_underscores, length_underscores, IH.
Qed.

Lemma sanitize_fixed s :
  allChars safeChar s = true → toLowerCase (replaceFrom 0 s) = s.
Proof.
  induction s as [|c s IH]; [done|]. cbn [allChars].
  intros [Hc Hs]%andb_true_iff. destruct (safe_char c Hc) as [Hu Hx].
  cbn [replaceFrom].
  destruct (isDigit c || isLower c || isUpper c) eqn:E.
  - cbn [toLowerCase]. by rewrite Hu, IH.
  - rewrite (Hx eq_refl).
    change (toLowerCase (String "_" (replaceFrom 0 s)) = String "_" s).
    cbn [toLowerCase]. change (isUpper "_") with false. cbn iota.
    by rewrite IH.
Qed.

Lemma utf16Length_ascii s :
  allChars isAscii s = true → utf16Length s = String.length s.
Proof.
  unfold utf16Length. induction s as [|c s IH]; [done|]. cbn [allChars].
  intros [Hc Hs]%andb_true_iff. cbn [utf16LengthFrom String.length].
  assert (utf8Units c = (1, 0)%nat) as ->.
  { revert Hc. destruct c as [[] [] [] [] [] [] [] []]; vm_compute; done. }
  by rewrite IH.
Qed.

Lemma sanitize_nonempty c s :
  Js.falsy (toLowerCase (replaceFrom 0 (String c s))) = false.
Proof.
  cbn [replaceFrom]. destruct (isDigit c || isLower c || isUpper c); [done|].
  unfold utf8Units.
  destruct (_ <? 192)%nat; [done|]. destruct (_ <? 224)%nat; [done|].
  by destruct (_ <? 240)%nat.
Qed.

(** X14.  The default names of an exported PDF and of a saved project are
    made of a stem, a dash, the date text and the suffix.  The stem is the
    project title with every UTF-16 code unit that is not an ASCII letter or
    digit replaced by an underscore and the letters in lower case: it has as
    many characters as the title has code units (as many as the title has
    bytes when the title is ASCII), all of them in [[a-z0-9_]], a title that
    is already of that form is its own stem, and for the empty title the
    stem is [storyboard], respectively [story]. *)
Theorem file_names_safe (projectTitle date : string) :
  let stem := sanitizeTitle projectTitle in
  allChars safeChar stem = true
  ∧ String.length stem = utf16Length projectTitle
  ∧ (allChars isAscii projectTitle = true →
     String.length stem = String.length projectTitle)
  ∧ sanitizeTitle stem = stem
  ∧ (allChars safeChar projectTitle = true → stem = projectTitle)
  ∧ pdfFilename projectTitle date
    = (if decide (projectTitle = "") then "storyboard" else stem)
      +:+ "-" +:+ date +:+ ".pdf"
  ∧ projectFilename projectTitle date
    = (if decide (projectTitle = "") then "story" else stem)
      +:+ "-" +:+ date +:+ ".tekastory".
Proof.
  cbv zeta. unfold sanitizeTitle, replaceNonAlnum. split_and!.
  - apply sanitize_safe.
  - apply sanitize_length.
  - intros Ha. rewrite sanitize_length. by apply utf16Length_ascii.
  - apply sanitize_fixed, sanitize_safe.
  - apply sanitize_fixed.
  - unfold pdfFilename, replaceNonAlnum, Js.or_else.
    destruct projectTitle as [|c t]; [done|]. by rewrite sanitize_nonempty.
  - unfold projectFilename, replaceNonAlnum, Js.or_else. cbv zeta.
    destruct projectTitle as [|c t]; [done|]. by rewrite sanitize_nonempty.
Qed.

Lemma file_names_safe_witness :
  sanitizeTitle "my_story_2" = "my_story_2"
  ∧ pdfFilename "My Story!" "261102" = "my_story_-261102.pdf"
  ∧ sanitizeTitle cafeTitle = "caf_"
  ∧ String.length (sanitizeTitle "Plan A") = 6%nat.
Proof.
  destruct (file_names_safe "my_story_2" "") as (_ & _ & _ & _ & H & _).
  destruct (file_names_safe "My Story!" "261102")
    as (_ & _ & _ & _ & _ & H' & _).
  destruct (file_names_safe "Plan A" "") as (_ & _ & H'' & _).
  split_and!; [by apply H|by rewrite H'|reflexivity|by apply H''].
Defined.

(** ** Loading a package *)

Lemma shows_weaken h assets lo hi lo' hi' k src :
  (lo' ≤ lo)%nat → (hi ≤ hi')%nat →
  shows h assets lo hi k src → shows h assets lo' hi' k src.
Proof.
  intros Hlo Hhi. unfold shows. destruct (_ || _); [done|].
  destruct (getAssetFile k assets); [|done].
  intros (n & Hn & ->). exists n. split; [lia|done].
Qed.

Lemma hydrateAsset_shows h assets k urls :
  let r := hydrateAsset h assets k urls in
  (urls ≤ r.2)%nat ∧ shows h assets urls r.2 k r.1.
Proof.
  cbv zeta. unfold hydrateAsset, shows.
  destruct (Js.falsy k || Js.startsWith "/images/" k) eqn:E; cbn [fst snd].
  - split; [done|]. by destruct k.
  - destruct (getAssetFile k assets) as [file|]; cbn [fst snd].
    + split; [lia|]. exists urls. split; [lia|done].
    + done.
Qed.

Lemma hydrateLogo_shows {D} h assets (logo : option (Logo.t D)) urls :
  let r := hydrateLogo h assets logo urls in
  (urls ≤ r.2)%nat ∧ showsLogo h assets urls r.2 logo r.1.
Proof.
  cbv zeta. destruct logo as [l|]; cbn [hydrateLogo]; [|done].
  pose proof (hydrateAsset_shows h assets (Logo.assetKey l) urls) as H.
  destruct (hydrateAsset h assets (Logo.assetKey l) urls) as [src urls'].
  cbn [fst snd] in *. destruct H. split; [done|]. by split.
Qed.

Lemma hydratePanels_shows {D} h assets (panels : list (Panel.t D)) urls :
  let r := hydratePanels h assets panels urls in
  (urls ≤ r.2)%nat ∧ Forall2 (showsPanel h assets urls r.2) panels r.1.
Proof.
  cbv zeta. revert urls. induction panels as [|p ps IH]; intros urls.
  - cbn. split; [done|constructor].
  - cbn [hydratePanels].
    pose proof (hydrateAsset_shows h assets (Panel.imageAssetKey p) urls) as H.
    destruct (hydrateAsset h assets (Panel.imageAssetKey p) urls)
      as [image urls1]. cbn [fst snd] in H. destruct H as [H1 H2].
    specialize (IH urls1).
    destruct (hydratePanels h assets ps urls1) as [rest urls2].
    cbn [fst snd] in *. destruct IH as [H3 H4]. split; [lia|].
    constructor.
    + split; [done|]. cbn. by apply (shows_weaken _ _ urls urls1).
    + eapply Forall2_impl; [exact H4|]. intros q q' [? ?].
      split; [done|]. by apply (shows_weaken _ _ urls1 urls2).
Qed.

Lemma showsLogo_weaken {D} h assets lo hi lo' hi' (l : option (Logo.t D)) l' :
  (lo' ≤ lo)%nat → (hi ≤ hi')%nat →
  showsLogo h assets lo hi l l' → showsLogo h assets lo' hi' l l'.
Proof.
  intros ??. destruct l, l'; cbn; try done.
  intros [? ?]. split; [done|]. by eapply shows_weaken.
Qed.

Lemma hydrateState_shows {D L} h assets (state : Project.t D L) urls :
  let r := hydrateState h assets state urls in
  let lo := urls in
  let hi := r.2 in
  (lo ≤ hi)%nat
  ∧ shows h assets lo hi
      (TitlePage.backgroundImageAssetKey (Project.titlePage state))
      (TitlePage.backgroundImage (Project.titlePage r.1))
  ∧ showsLogo h assets lo hi (TitlePage.logo (Project.titlePage state))
      (TitlePage.logo (Project.titlePage r.1))
  ∧ shows h assets lo hi
      (EndPage.backgroundImageAssetKey (Project.endPage state))
      (EndPage.backgroundImage (Project.endPage r.1))
  ∧ showsLogo h assets lo hi (EndPage.logo (Project.endPage state))
      (EndPage.logo (Project.endPage r.1))
  ∧ Forall2 (showsPanel h assets lo hi) (Project.panels state)
      (Project.panels r.1).
Proof.
  cbv zeta. unfold hydrateState.
  pose proof (hydrateAsset_shows h assets
    (TitlePage.backgroundImageAssetKey (Project.titlePage state)) urls) as H1.
  destruct (hydrateAsset h assets _ urls) as [tbg u1]. cbn [fst snd] in H1.
  pose proof (hydrateLogo_shows h assets
    (TitlePage.logo (Project.titlePage state)) u1) as H2.
  destruct (hydrateLogo h assets _ u1) as [tlogo u2]. cbn [fst snd] in H2.
  pose proof (hydrateAsset_shows h assets
    (EndPage.backgroundImageAssetKey (Project.endPage state)) u2) as H3.
  destruct (hydrateAsset h assets _ u2) as [ebg u3]. cbn [fst snd] in H3.
  pose proof (hydrateLogo_shows h assets
    (EndPage.logo (Project.endPage state)) u3) as H4.
  destruct (hydrateLogo h assets _ u3) as [elogo u4]. cbn [fst snd] in H4.
  pose proof (hydratePanels_shows h assets (Project.panels state) u4) as H5.
  destruct (hydratePanels h assets _ u4) as [panels u5]. cbn [fst snd] in H5.
  cbn. destruct H1, H2, H3, H4, H5. split_and!.
  - lia.
  - eapply shows_weaken; [| |eassumption]; lia.
  - eapply showsLogo_weaken; [| |eassumption]; lia.
  - eapply shows_weaken; [| |eassumption]; lia.
  - eapply showsLogo_weaken; [| |eassumption]; lia.
  - eapply Forall2_impl; [eassumption|]. intros q q' [? ?].
    split; [done|]. eapply shows_weaken; [| |eassumption]; lia.
Qed.

Lemma loadProject_title current (project : Project.t string unit) :
  Project.projectTitle (loadProject current project)
  = (if decide (Project.projectTitle project ≠ "")
     then Project.projectTitle project
     else if decide (TitlePage.header (Project.titlePage project) ≠ "")
          then TitlePage.header (Project.titlePage project)
          else "Untitled Project").
Proof.
  unfold loadProject. cbn.
  destruct (Project.projectTitle project); cbn; [|done].
  by destruct (TitlePage.header (Project.titlePage project)).
Qed.

Lemma processProjectFile_title h zip app loadedState :
  projectJson zip = Some loadedState →
  Project.projectTitle (appStore (processProjectFile h zip app))
  = (if decide (Project.projectTitle loadedState ≠ "")
     then Project.projectTitle loadedState
     else if decide (TitlePage.header (Project.titlePage loadedState) ≠ "")
          then TitlePage.header (Project.titlePage loadedState)
          else "Untitled Project").
Proof.
  intros Hj. unfold processProjectFile. rewrite Hj.
  pose proof (hydrateState_toProjectJson h
    (loadAssets h (assetsFolder zip) (clearAssets (appAssets app)))
    loadedState (appUrls app)) as HJ.
  destruct (hydrateState h _ loadedState (appUrls app)) as [st urls].
  cbn [appStore fst] in *. rewrite loadProject_title.
  apply (f_equal Project.projectTitle) in HJ as HT.
  apply (f_equal (λ s, TitlePage.header (Project.titlePage s))) in HJ as HH.
  cbn in HT, HH. by rewrite HT, HH.
Qed.

(** X15.  A load of the project service ends with the loading flag off.  When
    the file is an archive whose [project.json] holds a project state, the
    asset store is replaced by the entries of the [assets] folder (each entry
    becomes a file that has the entry's name and bytes, and no other key is
    left in the store), the project title of the loaded state is never empty
    (it is the title of the manifest, else the header of its title page, else
    [Untitled Project]) and no alert is raised.  When [project.json] is
    there but cannot be parsed or hydrated, the asset store has been replaced
    by the entries of the archive just the same, the project in the store is
    the one that was there before, and the alert of the service is raised.
    When the file is no archive the asset store is left empty, and when the
    file cannot be read it is left as it was; in both cases the project
    stays and the alert of the service is raised.  An archive without
    [project.json] leaves the asset store empty and the project in place and
    raises the alert for the missing manifest. *)
Theorem load_of_package (h : Host) (file : Package) (app : App) :
  let app' := projectService.loadProject h file app in
  let s' := appStore app' in
  let kept := setLoading false (appStore app) in
  Project.isLoading s' = false
  ∧ match file with
    | Archive zip =>
        match projectJson zip with
        | Some loadedState =>
            (∀ key, getAssetFile key (appAssets app')
                    = (λ bytes, mkFile key (zipBlobType h) bytes)
                        <$> assetsFolder zip !! key)
            ∧ Project.projectTitle s' ≠ ""
            ∧ Project.projectTitle s'
              = (if decide (Project.projectTitle loadedState ≠ "")
                 then Project.projectTitle loadedState
                 else if decide (TitlePage.header
                                   (Project.titlePage loadedState) ≠ "")
                      then TitlePage.header (Project.titlePage loadedState)
                      else "Untitled Project")
            ∧ appAlerts app' = appAlerts app
        | None =>
            appAssets app' = ∅
            ∧ s' = kept
            ∧ appAlerts app' = (appAlerts app ++ [content.loadError])%list
        end
    | Unreadable folder _ =>
        (∀ key, getAssetFile key (appAssets app')
                = (λ bytes, mkFile key (zipBlobType h) bytes) <$> folder !! key)
        ∧ s' = kept
        ∧ appAlerts app'
          = (appAlerts app ++ [projectService.loadFailed])%list
    | NotAnArchive =>
        appAssets app' = ∅
        ∧ s' = kept
        ∧ appAlerts app'
          = (appAlerts app ++ [projectService.loadFailed])%list
    | FileError =>
        appAssets app' = appAssets app
        ∧ s' = kept
        ∧ appAlerts app'
          = (appAlerts app ++ [projectService.loadFailed])%list
    end.
Proof.
  cbv zeta. split; [done|].
  destruct file as [| |zip|folder urlsMade]; [done|done| |].
  - unfold projectService.loadProject. cbv zeta.
    set (app1 := appSetLoading true app).
    destruct (projectJson zip) as [loadedState|] eqn:Hj.
    + split_and!.
      * intros key. unfold getAssetFile. cbn [appSetLoading appAssets].
        rewrite (processProjectFile_assets h zip app1 loadedState Hj).
        apply loadAssets_lookup.
      * cbn [appSetLoading appStore setLoading Project.projectTitle].
        rewrite (processProjectFile_title h zip app1 loadedState Hj).
        repeat case_decide; done.
      * cbn [appSetLoading appStore setLoading Project.projectTitle].
        apply (processProjectFile_title h zip app1 loadedState Hj).
      * unfold processProjectFile. rewrite Hj.
        by destruct (hydrateState h _ loadedState (appUrls app1)).
    + unfold processProjectFile. rewrite Hj. done.
  - split_and!; [|done..]. intros key. apply loadAssets_lookup.
Qed.

Lemma load_of_package_witness :
  getAssetFile "lost.png"
    (appAssets (projectService.loadProject sampleHost (Archive sampleZip)
                  sampleApp))
  = Some (mkFile "lost.png" "" [Byte.x89])
  ∧ getAssetFile "shot.png"
      (appAssets (projectService.loadProject sampleHost
                    (Unreadable {[ "lost.png" := [Byte.x89] ]} 0) sampleApp))
    = None
  ∧ Project.panels
      (appStore (projectService.loadProject sampleHost
                   (Unreadable {[ "lost.png" := [Byte.x89] ]} 0) sampleApp))
    = Project.panels (appStore sampleApp).
Proof.
  destruct (load_of_package sampleHost (Archive sampleZip) sampleApp)
    as (_ & H & _).
  destruct (load_of_package sampleHost
              (Unreadable {[ "lost.png" := [Byte.x89] ]} 0) sampleApp)
    as (_ & H' & -> & _).
  cbn [projectJson sampleZip] in H. by rewrite H, H'.
Defined.

Lemma hydrateAsset_urls h assets k urls :
  ((hydrateAsset h assets k urls).2 ≤ urls + 1)%nat.
Proof.
  unfold hydrateAsset. destruct (_ || _); cbn; [lia|].
  destruct (getAssetFile k assets); cbn; lia.
Qed.

Lemma hydrateLogo_urls {D} h assets (logo : option (Logo.t D)) urls :
  ((hydrateLogo h assets logo urls).2 ≤ urls + 1)%nat.
Proof.
  destruct logo as [l|]; cbn [hydrateLogo]; [|cbn; lia].
  pose proof (hydrateAsset_urls h assets (Logo.assetKey l) urls).
  by destruct (hydrateAsset h assets (Logo.assetKey l) urls).
Qed.

Lemma hydratePanels_urls {D} h assets (panels : list (Panel.t D)) urls :
  ((hydratePanels h assets panels urls).2 ≤ urls + length panels)%nat.
Proof.
  revert urls. induction panels as [|p ps IH]; intros urls; [cbn; lia|].
  cbn [hydratePanels length].
  pose proof (hydrateAsset_urls h assets (Panel.imageAssetKey p) urls).
  destruct (hydrateAsset h assets (Panel.imageAssetKey p) urls) as [i u1].
  specialize (IH u1). destruct (hydratePanels h assets ps u1) as [r u2].
  cbn [fst snd] in *. lia.
Qed.

Lemma hydrateState_urls {D L} h assets (state : Project.t D L) urls :
  ((hydrateState h assets state urls).2
   ≤ urls + 4 + length (Project.panels state))%nat.
Proof.
  unfold hydrateState.
  pose proof (hydrateAsset_urls h assets
    (TitlePage.backgroundImageAssetKey (Project.titlePage state)) urls) as H1.
  destruct (hydrateAsset h assets _ urls) as [tbg u1]. cbn [fst snd] in H1.
  pose proof (hydrateLogo_urls h assets
    (TitlePage.logo (Project.titlePage state)) u1) as H2.
  destruct (hydrateLogo h assets _ u1) as [tlogo u2]. cbn [fst snd] in H2.
  pose proof (hydrateAsset_urls h assets
    (EndPage.backgroundImageAssetKey (Project.endPage state)) u2) as H3.
  destruct (hydrateAsset h assets _ u2) as [ebg u3]. cbn [fst snd] in H3.
  pose proof (hydrateLogo_urls h assets
    (EndPage.logo (Project.endPage state)) u3) as H4.
  destruct (hydrateLogo h assets _ u3) as [elogo u4]. cbn [fst snd] in H4.
  pose proof (hydratePanels_urls h assets (Project.panels state) u4) as H5.
  destruct (hydratePanels h assets _ u4) as [panels u5]. cbn [fst snd] in *.
  lia.
Qed.

(** X16.  After such a load every image reference of the state (the two
    page backgrounds, the two logos, every panel) keeps its key, and its
    display source is an object URL made during this load for the stored
    file of that key; it is the empty string when the package has no entry
    for the key, and the key itself when that is empty or a bundled image
    path.  At most one object URL is made per reference. *)
Theorem loaded_images (h : Host) (zip : Zip) (app : App)
    (loadedState : ProjectJson) :
  projectJson zip = Some loadedState →
  let app' := processProjectFile h zip app in
  let s' := appStore app' in
  let assets := appAssets app' in
  let lo := appUrls app in
  let hi := appUrls app' in
  (lo ≤ hi ≤ lo + 4 + length (Project.panels loadedState))%nat
  ∧ shows h assets lo hi
      (TitlePage.backgroundImageAssetKey (Project.titlePage loadedState))
      (TitlePage.backgroundImage (Project.titlePage s'))
  ∧ showsLogo h assets lo hi (TitlePage.logo (Project.titlePage loadedState))
      (TitlePage.logo (Project.titlePage s'))
  ∧ shows h assets lo hi
      (EndPage.backgroundImageAssetKey (Project.endPage loadedState))
      (EndPage.backgroundImage (Project.endPage s'))
  ∧ showsLogo h assets lo hi (EndPage.logo (Project.endPage loadedState))
      (EndPage.logo (Project.endPage s'))
  ∧ Forall2 (showsPanel h assets lo hi) (Project.panels loadedState)
      (Project.panels s').
Proof.
  intros Hj. cbv zeta. unfold processProjectFile. rewrite Hj.
  pose proof (hydrateState_shows h
    (loadAssets h (assetsFolder zip) (clearAssets (appAssets app)))
    loadedState (appUrls app)) as HS.
  pose proof (hydrateState_urls h
    (loadAssets h (assetsFolder zip) (clearAssets (appAssets app)))
    loadedState (appUrls app)) as HU.
  destruct (hydrateState h _ loadedState (appUrls app)) as [st urls].
  cbv zeta in HS. cbn [fst snd appStore appAssets appUrls] in *.
  destruct HS as (H0 & H1 & H2 & H3 & H4 & H5).
  split_and!; try done.
Qed.

Lemma loaded_images_witness :
  Forall2
    (showsPanel sampleHost
       (appAssets (processProjectFile sampleHost sampleZip sampleApp))
       (appUrls sampleApp)
       (appUrls (processProjectFile sampleHost sampleZip sampleApp)))
    (Project.panels (toProjectJson lostAssetState))
    (Project.panels
       (appStore (processProjectFile sampleHost sampleZip sampleApp))).
Proof.
  apply (loaded_images sampleHost sampleZip sampleApp
           (toProjectJson lostAssetState) eq_refl).
Defined.

(** ** The asset store across a save *)

Lemma storeFrame_refl h rt : StoreFrame h rt rt.
Proof. split; [done|done| |done]. intros n Hn. lia. Qed.

Lemma storeFrame_trans h rt1 rt2 rt3 :
  StoreFrame h rt1 rt2 → StoreFrame h rt2 rt3 → StoreFrame h rt1 rt3.
Proof.
  intros [U1 K1 N1 D1] [U2 K2 N2 D2]. split.
  - lia.
  - intros key Hkey. rewrite K2, K1; [done| |].
    + intros n Hn. apply Hkey. lia.
    + intros n Hn. apply Hkey. lia.
  - intros n Hn. destruct (decide (n < uuids rt2)%nat) as [Hlt|Hge].
    + apply elem_of_dom, D2, elem_of_dom, N1. lia.
    + apply N2. lia.
  - by etrans.
Qed.

Lemma processAndMapAsset_frame h k path cache rt :
  defaultPath path →
  StoreFrame h rt (processAndMapAsset h k path (cache, rt)).2.2.
Proof.
  intros Hpath. unfold processAndMapAsset.
  destruct (Js.startsWith "default-" k); [|apply storeFrame_refl].
  destruct (cache !! k); [apply storeFrame_refl|].
  destruct (fetch h (length (fetched rt)) (getFetchableUrl h path))
    as [blob|] eqn:Efetch.
  - rewrite (default_filename _ k Hpath).
    change (newFile blob (default "" (Js.pop (Js.split "/" path)))
              (blobType blob)) with (defaultFile path blob).
    unfold addAsset. rewrite (default_extension _ _ Hpath).
    cbn [fst snd]. split; cbn [uuids assetMap].
    + lia.
    + intros key Hkey. apply lookup_insert_ne. intros <-.
      apply (Hkey (uuids rt)); [lia|done].
    + intros n Hn. replace n with (uuids rt) by lia.
      rewrite lookup_insert_eq. by eexists.
    + rewrite dom_insert. set_solver.
  - cbn [fst snd]. split; cbn [uuids assetMap]; try done. intros n Hn. lia.
Qed.

Lemma mapLogo_frame h logo cache rt :
  StoreFrame h rt (mapLogo h logo (cache, rt)).2.2.
Proof.
  destruct logo as [l|]; cbn [mapLogo]; [|apply storeFrame_refl].
  pose proof (processAndMapAsset_frame h (Logo.assetKey l)
                content.defaultLogoPath cache rt (or_intror eq_refl)) as H.
  by destruct (processAndMapAsset h _ _ _) as [k' [c' rt']].
Qed.

Lemma rewriteState_frame h state cache rt :
  StoreFrame h rt (rewriteState h state (cache, rt)).2.2.
Proof.
  unfold rewriteState.
  pose proof (processAndMapAsset_frame h
                (TitlePage.backgroundImageAssetKey (Project.titlePage state))
                content.defaultBackgroundPath cache rt (or_introl eq_refl)) as H1.
  destruct (processAndMapAsset h _ _ (cache, rt)) as [tbg [c1 rt1]].
  pose proof (mapLogo_frame h (TitlePage.logo (Project.titlePage state))
                c1 rt1) as H2.
  destruct (mapLogo h _ (c1, rt1)) as [tlogo [c2 rt2]].
  pose proof (processAndMapAsset_frame h
                (EndPage.backgroundImageAssetKey (Project.endPage state))
                content.defaultBackgroundPath c2 rt2 (or_introl eq_refl)) as H3.
  destruct (processAndMapAsset h _ _ (c2, rt2)) as [ebg [c3 rt3]].
  pose proof (mapLogo_frame h (EndPage.logo (Project.endPage state))
                c3 rt3) as H4.
  destruct (mapLogo h _ (c3, rt3)) as [elogo [c4 rt4]].
  cbn [fst snd] in *.
  eauto using storeFrame_trans.
Qed.

Lemma placeholderOf_empty o :
  placeholderOf o = ∅ →
  match o with
  | Some k => Js.startsWith "default-" k = false
  | None => True
  end.
Proof.
  destruct o as [k|]; [|done]. unfold placeholderOf, isPlaceholder.
  destruct (Js.startsWith "default-" k); [|done].
  intros H. by apply non_empty_singleton_L in H.
Qed.

Lemma rewriteState_no_placeholder h state st :
  placeholders state = ∅ → rewriteState h state st = (state, st).
Proof.
  unfold placeholders. intros Hp.
  apply empty_union_L in Hp as [Hp H4]. apply empty_union_L in Hp as [Hp H3].
  apply empty_union_L in Hp as [H1 H2].
  apply placeholderOf_empty in H1, H2, H3, H4.
  unfold titleBgKey, titleLogoKey, endBgKey, endLogoKey in *.
  unfold rewriteState, mapLogo, processAndMapAsset.
  destruct state as [title [hd sh bg bk tl] panels [ebg ebk el tx sx mi] lk ld].
  cbn in *. destruct st as [cache rt]. rewrite H1.
  destruct tl as [[ts tk tp tz]|], el as [[es ek ep ez]|]; cbn in *;
    by rewrite ?H2, ?H3, ?H4.
Qed.

(** X17.  A save never removes an asset from the store and never changes
    the file under a key, except under the keys it generates: an identifier
    it draws, followed by [.png]; under each of those the store then has a
    file.  When every fetch resolves it draws one identifier per distinct
    default placeholder of the state.  A state without default placeholders
    is saved without any fetch or registration: the runtime is unchanged and
    the manifest is the document of the state. *)
Theorem save_store_frame (h : Host) (state : ProjectState) (rt : Runtime) :
  let saved := saveProject h state rt in
  let rt' := saved.2 in
  ((uuids rt ≤ uuids rt')%nat
   ∧ (∀ key,
        (∀ n, (uuids rt ≤ n < uuids rt')%nat → key ≠ uuidv4 h n +:+ ".png") →
        getAssetFile key (assetMap rt') = getAssetFile key (assetMap rt))
   ∧ (∀ n, (uuids rt ≤ n < uuids rt')%nat →
        is_Some (getAssetFile (uuidv4 h n +:+ ".png") (assetMap rt')))
   ∧ dom (assetMap rt) ⊆ dom (assetMap rt'))
  ∧ (allFetchesSucceed h →
     uuids rt' = (uuids rt + size (placeholders state))%nat)
  ∧ (placeholders state = ∅ →
     rt' = rt ∧ projectJson saved.1 = Some (toProjectJson state)).
Proof.
  cbv zeta. rewrite saveProject_unfold. cbv zeta. cbn [fst snd projectJson].
  split_and!.
  - apply (rewriteState_frame h state ∅ rt).
  - apply (rewriteState_frame h state ∅ rt).
  - apply (rewriteState_frame h state ∅ rt).
  - apply (rewriteState_frame h state ∅ rt).
  - intros Hs. destruct (rewriteState_spec h state rt) as (I & _).
    cbv zeta in I. destruct I as [Hdom Hu _ _ _ Hsucc _].
    destruct (Hsucc Hs) as [Hsub _]. rewrite Hu. f_equal.
    rewrite <-size_dom. f_equal. apply set_eq. set_solver.
  - intros Hp. by rewrite (rewriteState_no_placeholder h state _ Hp).
Qed.

Lemma updateFound_present id f panels :
  id ∈ Panel.id <$> panels →
  ∃ p, p ∈ panels ∧ Panel.id p = id ∧ f p ∈ updateFound id f panels.
Proof.
  induction panels as [|p ps IH]; [by intros ?%elem_of_nil|].
  cbn [updateFound fmap list_fmap]. rewrite eqb_decide.
  case_bool_decide as E.
  - intros _. exists p. split_and!; [by left|done|by left].
  - rewrite elem_of_cons. intros [?|Hin]; [done|].
    destruct (IH Hin) as (q & ? & ? & ?).
    exists q. split_and!; [by right|done|by right].
Qed.

Lemma rewriteState_panels h state st :
  Project.panels (rewriteState h state st).1 = Project.panels state.
Proof. unfold rewriteState. by repeat case_match. Qed.

(** X18.  A file chosen for a panel is registered under a fresh identifier
    followed by the extension of its name, and the first panel with the given
    identifier gets that key and an object URL of the file.  If the key is
    not empty, is no default placeholder and differs from every key a later
    save generates, the next save puts the bytes of the file under that key
    into the [assets] folder, and loading the package yields a file of that
    name with these bytes. *)
Theorem uploaded_image_archived (h : Host) (id : string) (file : File)
    (rt : Runtime) (urls : nat) (state : ProjectState) (app : App) :
  let key := uuidv4 h (uuids rt) +:+ getFileExtension (fileName file) in
  let up := uploadPanelImage h id file rt urls state in
  let saved := saveProject h up.2 up.1.1 in
  let app' := processProjectFile h saved.1 app in
  id ∈ panelIds state →
  realKey key →
  (∀ n, (uuids rt < n)%nat → key ≠ uuidv4 h n +:+ ".png") →
  (∃ p, p ∈ Project.panels up.2 ∧ Panel.id p = id
        ∧ Panel.imageAssetKey p = key
        ∧ Panel.image p = createObjectURL h urls file)
  ∧ getAssetFile key (assetMap up.1.1) = Some file
  ∧ assetsFolder saved.1 !! key = Some (fileBytes file)
  ∧ getAssetFile key (appAssets app')
    = Some (mkFile key (zipBlobType h) (fileBytes file)).
Proof.
  cbv zeta. intros Hid Hreal Hfresh.
  unfold uploadPanelImage, addAsset. cbn [fst snd].
  set (key := uuidv4 h (uuids rt) +:+ getFileExtension (fileName file)) in *.
  set (rt1 := mkRuntime (<[key := file]> (assetMap rt)) (S (uuids rt))
                (fetched rt)).
  set (s1 := setPanelImage id (createObjectURL h urls file) key state).
  destruct (updateFound_present id
              (λ panel, Panel.mk (Panel.id panel)
                          (createObjectURL h urls file) key (Panel.script panel))
              (Project.panels state) Hid) as (p & Hp & Hpid & Hin).
  assert (assetsFolder (saveProject h s1 rt1).1 !! key = Some (fileBytes file))
    as Hfolder.
  { rewrite saveProject_unfold. cbv zeta. cbn [fst assetsFolder].
    destruct (addReferenced_lookup
                (assetMap (rewriteState h s1 (∅, rt1)).2.2)
                (referencedAssets (rewriteState h s1 (∅, rt1)).1) key)
      as [H1 _].
    rewrite H1.
    - rewrite (frame_keep _ _ _ (rewriteState_frame h s1 ∅ rt1)).
      + cbn [rt1 assetMap]. by rewrite lookup_insert_eq.
      + cbn [rt1 uuids]. intros n Hn. apply Hfresh. lia.
    - split; [|apply Hreal]. apply elem_of_referencedAssets. split; [|done].
      do 4 right. rewrite rewriteState_panels.
      eexists. split; [exact Hin|done]. }
  split_and!.
  - eexists. split; [exact Hin|]. by cbn.
  - unfold getAssetFile. cbn. by rewrite lookup_insert_eq.
  - done.
  - unfold getAssetFile.
    erewrite processProjectFile_assets by (by rewrite saveProject_unfold).
    by rewrite loadAssets_lookup, Hfolder.
Qed.

Lemma save_store_frame_witness :
  (saveProject sampleHost untitledState emptyRuntime).2 = emptyRuntime.
Proof.
  by apply (save_store_frame sampleHost untitledState emptyRuntime).
Defined.

Lemma uploaded_image_archived_witness :
  assetsFolder
    (saveProject tallyHost
       (uploadPanelImage tallyHost "u" sampleFile emptyRuntime 0
          (initialState tallyHost)).2
       (uploadPanelImage tallyHost "u" sampleFile emptyRuntime 0
          (initialState tallyHost)).1.1).1 !! "u.png"
  = Some [Byte.x89].
Proof.
  apply (uploaded_image_archived tallyHost "u" sampleFile emptyRuntime 0
           (initialState tallyHost) sampleApp).
  - apply list_elem_of_here.
  - by split.
  - intros [|n] Hn; [lia|]. done.
Defined.

(** ** Saving a loaded project *)

Lemma placeholders_pageRefs (s : ProjectState) :
  placeholders s = ⋃ (placeholderOf <$> pageRefs s).
Proof.
  unfold placeholders, pageRefs, titleBgKey, titleLogoKey, endBgKey, endLogoKey.
  unfold union_list. cbn [fmap list_fmap foldr].
  by rewrite union_empty_r_L, !(assoc_L (∪)).
Qed.

Lemma stripLogo_key {D E} (a : option (Logo.t D)) (b : option (Logo.t E)) :
  stripLogo <$> a = stripLogo <$> b → Logo.assetKey <$> a = Logo.assetKey <$> b.
Proof.
  destruct a, b; cbn; try done. unfold stripLogo. by intros [= ->].
Qed.

Lemma toProjectJson_pageRefs {D L D' L'} (a : Project.t D L)
    (b : Project.t D' L') :
  toProjectJson a = toProjectJson b → pageRefs a = pageRefs b.
Proof.
  unfold toProjectJson, pageRefs. intros [= _ _ _ E1 E2 _ E3 E4 _ _ _ _].
  by rewrite E1, E3, (stripLogo_key _ _ E2), (stripLogo_key _ _ E4).
Qed.

Lemma rewritten_real h rt0 P f st k k' :
  (∀ n, isPlaceholder (uuidv4 h n +:+ ".png") = false) →
  SaveInv h rt0 P f st →
  rewritten st.1 k k' → placeholderOf (Some k') = ∅.
Proof.
  intros Hu I. unfold rewritten, placeholderOf.
  destruct (isPlaceholder k) eqn:E.
  - intros [->|Hc]; [done|].
    destruct (inv_keys _ _ _ _ _ I k k' Hc) as (_ & _ & M).
    destruct M as (n & _ & _ & _ & _ & -> & _). by rewrite Hu.
  - intros ->. by rewrite E.
Qed.

Lemma rewrittenOpt_real h rt0 P f st o o' :
  (∀ n, isPlaceholder (uuidv4 h n +:+ ".png") = false) →
  SaveInv h rt0 P f st →
  rewrittenOpt st.1 o o' → placeholderOf o' = ∅.
Proof.
  intros Hu I. destruct o, o'; cbn [rewrittenOpt]; try done.
  by apply (rewritten_real h rt0 P f).
Qed.

Lemma processProjectFile_pageRefs h zip app j :
  projectJson zip = Some j →
  pageRefs (appStore (processProjectFile h zip app)) = pageRefs j.
Proof.
  intros Hj. unfold processProjectFile. rewrite Hj.
  pose proof (hydrateState_toProjectJson h
    (loadAssets h (assetsFolder zip) (clearAssets (appAssets app)))
    j (appUrls app)) as HJ.
  destruct (hydrateState h _ j (appUrls app)) as [st urls].
  cbn [appStore fst] in *.
  apply toProjectJson_pageRefs in HJ. by rewrite <-HJ.
Qed.

(** X19.  No generated key having the form of a default placeholder, the
    state obtained by loading a saved package holds no default placeholder
    any more; saving it again makes no fetch and registers nothing: the
    runtime is unchanged and the manifest is the document of that state. *)
Theorem reloaded_project_self_contained (h : Host) (state : ProjectState)
    (rt : Runtime) (app : App) (rt2 : Runtime) :
  (∀ n, isPlaceholder (uuidv4 h n +:+ ".png") = false) →
  let app' := processProjectFile h (saveProject h state rt).1 app in
  placeholders (appStore app') = ∅
  ∧ (saveProject h (appStore app') rt2).2 = rt2
  ∧ projectJson (saveProject h (appStore app') rt2).1
    = Some (toProjectJson (appStore app')).
Proof.
  intros Hu. cbv zeta.
  assert (placeholders
            (appStore (processProjectFile h (saveProject h state rt).1 app))
          = ∅) as Hp.
  { rewrite placeholders_pageRefs.
    rewrite (processProjectFile_pageRefs h _ app
               (toProjectJson (rewriteState h state (∅, rt)).1))
      by (by rewrite saveProject_unfold).
    rewrite (toProjectJson_pageRefs _ _
               (toProjectJson_idemp (rewriteState h state (∅, rt)).1)).
    destruct (rewriteState_spec h state rt) as (I & R1 & R2 & R3 & R4 & _).
    cbv zeta in *. unfold titleBgKey, titleLogoKey, endBgKey, endLogoKey in *.
    unfold pageRefs, union_list. cbn [fmap list_fmap foldr].
    rewrite (rewritten_real _ _ _ _ _ _ _ Hu I R1).
    rewrite (rewrittenOpt_real _ _ _ _ _ _ _ Hu I R2).
    rewrite (rewritten_real _ _ _ _ _ _ _ Hu I R3).
    rewrite (rewrittenOpt_real _ _ _ _ _ _ _ Hu I R4).
    by rewrite !union_empty_r_L. }
  split_and!; [done|..]; rewrite saveProject_unfold; cbv zeta;
    by rewrite (rewriteState_no_placeholder _ _ _ Hp).
Qed.

Lemma reloaded_project_self_contained_witness :
  placeholders
    (appStore
       (processProjectFile tallyHost
          (saveProject tallyHost (initialState tallyHost) emptyRuntime).1
          sampleApp))
  = ∅.
Proof.
  apply (reloaded_project_self_contained tallyHost (initialState tallyHost)
           emptyRuntime sampleApp emptyRuntime).
  by intros [|n].
Defined.

(** ** Colours *)




Lemma hexToRgb_digits a b c d e f :
  hexDigit a ≠ None →
  hexToRgb (String a (String b (String c (String d (String e (String f ""))))))
  = match hexPair a b, hexPair c d, hexPair e f with
    | Some r, Some g, Some b => Some (r, g, b)
    | _, _, _ => None
    end.
Proof.
  intros Ha. unfold hexToRgb.
  destruct (Ascii.eqb_spec a "#") as [->|Hne]; [done|done].
Qed.



(** ** The image of a panel *)

Lemma containFit_box X Y W H r :
  (0 < W)%Q → (0 < H)%Q → (0 < r)%Q →
  let k := containFit X Y W H r in
  (X <= drawX k)%Q ∧ (drawX k + drawWidth k <= X + W)%Q
  ∧ (Y <= drawY k)%Q ∧ (drawY k + drawHeight k <= Y + H)%Q
  ∧ (0 < drawWidth k)%Q ∧ (0 < drawHeight k)%Q.
Proof.
  intros HW HH Hr. cbv zeta.
  destruct (containFit_inside X Y W H r HW HH Hr) as [Hw Hh].
  destruct (containFit_shape X Y W H r Hr) as (Hs & Hx & Hy & _).
  cbv zeta in Hs, Hx, Hy.
  assert (0 < drawWidth (containFit X Y W H r)
          ∧ 0 < drawHeight (containFit X Y W H r))%Q as [Hw0 Hh0].
  { unfold containFit. cbv zeta.
    destruct (Qgtb r (W / H)); cbn [drawWidth drawHeight]; split; try done.
    - by apply Qlt_shift_div_l; lra.
    - by apply Qmult_lt_0_compat. }
  pose proof (Qhalf (W - drawWidth (containFit X Y W H r))) as E1.
  pose proof (Qhalf (H - drawHeight (containFit X Y W H r))) as E2.
  revert Hx Hy E1 E2.
  generalize ((W - drawWidth (containFit X Y W H r)) / 2)%Q,
             ((H - drawHeight (containFit X Y W H r)) / 2)%Q.
  intros cx cy Hx Hy E1 E2. split_and!; lra.
Qed.

(** X21.  In a cell of a panel page no image is drawn for a panel without a
    display source or whose image does not load; an image that loads with
    positive natural sides is drawn with positive sides and its own aspect
    ratio inside the image container of the cell, which starts 10 right of
    and 35 below the corner of the cell and is 158.25 high. *)
Theorem cell_image_inside (pdf : Pdf) (k i : nat) (panel : Panel.t string) :
  let cell := drawCell pdf k i panel in
  (Panel.image panel = "" ∨ loadImage pdf (Panel.image panel) = None →
   panelImage cell = None)
  ∧ (∀ w h, loadImage pdf (Panel.image panel) = Some (w, h) →
       Panel.image panel ≠ "" → (0 < w)%Q → (0 < h)%Q →
       ∃ p, panelImage cell = Some p
            ∧ (cellX cell + 10 <= drawX p)%Q
            ∧ (drawX p + drawWidth p <= cellX cell + cellWidth cell - 10)%Q
            ∧ (cellY cell + 35 <= drawY p)%Q
            ∧ (drawY p + drawHeight p <= cellY cell + 35 + 633 / 4)%Q
            ∧ (0 < drawWidth p)%Q ∧ (0 < drawHeight p)%Q
            ∧ (drawWidth p * h == drawHeight p * w)%Q).
Proof.
  cbv zeta. unfold drawCell.
  set (x := (PAGE_MARGIN + Qnat (i mod cols) * (panelWidth + colGap))%Q).
  set (y := (PAGE_MARGIN + Qnat (i / cols) * (panelHeight + rowGap))%Q).
  unfold drawPanelTemplate.
  cbn [panelImage cellX cellY cellWidth cellHeight]. split.
  - intros [E|E]; rewrite E; [done|].
    by destruct (Js.falsy (Panel.image panel)).
  - intros w h Hload Hne Hw Hh. rewrite Hload.
    assert (Js.falsy (Panel.image panel) = false) as ->.
    { by destruct (Panel.image panel). }
    eexists. split; [reflexivity|].
    assert (0 < w / h)%Q as Hr by (by apply Qlt_shift_div_l; lra).
    assert (0 < panelWidth - 2 * 10)%Q as HW by (by vm_compute).
    assert (0 < (panelWidth - 2 * 10) * (9 / 16))%Q as HH by (by vm_compute).
    assert ((panelWidth - 2 * 10) * (9 / 16) == 633 / 4)%Q as EH
      by (by vm_compute).
    destruct (containFit_box (x + 10) (y + 10 + 25) (panelWidth - 2 * 10)
                ((panelWidth - 2 * 10) * (9 / 16)) (w / h) HW HH Hr)
      as (H1 & H2 & H3 & H4 & H5 & H6).
    destruct (containFit_shape (x + 10) (y + 10 + 25) (panelWidth - 2 * 10)
                ((panelWidth - 2 * 10) * (9 / 16)) (w / h) Hr)
      as (Hs & _).
    cbv zeta in *.
    set (p := containFit _ _ _ _ _) in *. clearbody p x y.
    rewrite EH in H4.
    split_and!; try done; try lra.
    rewrite Hs. field. lra.
Qed.

Lemma cell_image_inside_witness :
  ∃ p, panelImage (drawCell samplePdf 0 0 picturedPanel) = Some p
       ∧ (drawX p + drawWidth p
          <= cellX (drawCell samplePdf 0 0 picturedPanel)
             + cellWidth (drawCell samplePdf 0 0 picturedPanel) - 10)%Q.
Proof.
  destruct (cell_image_inside samplePdf 0 0 picturedPanel) as [_ H].
  destruct (H 1920%Q 1080%Q eq_refl) as (p & Hp & _ & Hx & _); [done..|].
  by exists p.
Defined.

(** ** Reordering by drag and drop *)

Lemma findIndex_lookup id panels i p :
  NoDup (Panel.id <$> panels) → panels !! i = Some p → Panel.id p = id →
  findIndex id panels = Some i.
Proof.
  intros Hnd Hi Hid. unfold findIndex.
  assert (list_find (λ p, Panel.id p = id) panels = Some (i, p)) as ->; [|done].
  apply list_find_Some. split_and!; [done..|].
  intros j q Hj Hlt Hq.
  assert (i = j); [|lia].
  apply (NoDup_lookup (Panel.id <$> panels) i j id Hnd).
  - by rewrite list_lookup_fmap, Hi, <-Hid.
  - by rewrite list_lookup_fmap, Hj, <-Hq.
Qed.

Lemma filter_delete_out {A} (P : A → Prop) `{∀ x, Decision (P x)}
    (l : list A) (i : nat) (x : A) :
  l !! i = Some x → ¬ P x → filter P (delete i l) = filter P l.
Proof.
  intros Hi Hx. rewrite delete_take_drop.
  rewrite <-(take_drop_middle l i x Hi) at 3.
  rewrite !filter_app, filter_cons. by rewrite decide_False.
Qed.

(** X22.  Panel identifiers being distinct, dropping a panel on another
    panel moves it to the position that the other panel had: the panels are
    the same as before in another order, the panels other than the moved one
    keep their order, nothing else of the state changes, and the identifiers
    stay distinct. *)
Theorem drag_moves_panel (i j : nat) (a b : Panel.t string)
    (s : ProjectState) :
  NoDup (panelIds s) →
  Project.panels s !! i = Some a →
  Project.panels s !! j = Some b →
  Panel.id a ≠ Panel.id b →
  ∃ s', handleDragEnd (Panel.id a) (Some (Panel.id b)) s = Some s'
        ∧ Project.panels s' !! j = Some a
        ∧ Project.panels s' ≡ₚ Project.panels s
        ∧ filter (λ p, Panel.id p ≠ Panel.id a) (Project.panels s')
          = filter (λ p, Panel.id p ≠ Panel.id a) (Project.panels s)
        ∧ s' = withPanels (Project.panels s') s
        ∧ NoDup (panelIds s').
Proof.
  intros Hnd Hi Hj Hab. unfold handleDragEnd.
  rewrite bool_decide_eq_true_2 by done. cbv zeta.
  rewrite (findIndex_lookup _ _ i a Hnd Hi eq_refl).
  rewrite (findIndex_lookup _ _ j b Hnd Hj eq_refl).
  pose proof (lookup_lt_Some _ _ _ Hi) as Hli.
  pose proof (lookup_lt_Some _ _ _ Hj) as Hlj.
  cbn [spliceStart]. rewrite (Nat.min_l i) by lia. rewrite Hi.
  set (panels := Project.panels s) in *.
  assert (length (delete i panels) = (length panels - 1)%nat) as Hlen.
  { rewrite length_delete; [done|by eexists]. }
  rewrite (Nat.min_l j) by lia.
  set (newPanels := (take j (delete i panels) ++ a :: drop j (delete i panels))%list).
  assert (newPanels ≡ₚ panels) as Hperm.
  { unfold newPanels. rewrite <-Permutation_middle, take_drop.
    symmetry. by apply delete_Permutation. }
  eexists. split; [reflexivity|]. unfold reorderPanels, withPanels.
  cbn [Project.panels]. fold newPanels. split_and!.
  - unfold newPanels. rewrite lookup_app_r by (rewrite length_take; lia).
    rewrite length_take. replace (j - j `min` length (delete i panels))%nat
      with 0%nat by lia. done.
  - done.
  - unfold newPanels. rewrite filter_app, filter_cons.
    rewrite decide_False by (by intros ?). rewrite <-filter_app, take_drop.
    apply (filter_delete_out _ _ _ a); [done|]. by intros ?.
  - done.
  - unfold panelIds in *. cbn [Project.panels]. by rewrite Hperm.
Qed.

Lemma drag_moves_panel_witness :
  ∃ s', handleDragEnd "u" (Some "iiu") (initialState tallyHost) = Some s'
        ∧ Project.panels s' !! 2%nat = Some (Panel.mk "u" "" "" "").
Proof.
  destruct (drag_moves_panel 0 2 (Panel.mk "u" "" "" "")
              (Panel.mk "iiu" "" "" "") (initialState tallyHost))
    as (s' & H1 & H2 & _); [|reflexivity|reflexivity|done|].
  - apply initialState_ids, tallyUuid_inj.
  - by exists s'.
Defined.

(** ** Shared uploads *)

Lemma saved_reference h s1 rt1 key file :
  reachableKey (rewriteState h s1 (∅, rt1)).1 key →
  realKey key →
  assetMap rt1 !! key = Some file →
  (∀ n, (uuids rt1 ≤ n)%nat → key ≠ uuidv4 h n +:+ ".png") →
  assetsFolder (saveProject h s1 rt1).1 !! key = Some (fileBytes file).
Proof.
  intros Hreach Hreal Hfile Hfresh.
  rewrite saveProject_unfold. cbv zeta. cbn [fst assetsFolder].
  destruct (addReferenced_lookup
              (assetMap (rewriteState h s1 (∅, rt1)).2.2)
              (referencedAssets (rewriteState h s1 (∅, rt1)).1) key)
    as [H1 _].
  rewrite H1.
  - rewrite (frame_keep _ _ _ (rewriteState_frame h s1 ∅ rt1)).
    + by rewrite Hfile.
    + intros n Hn. apply Hfresh. lia.
  - split; [|apply Hreal]. by apply elem_of_referencedAssets.
Qed.

Lemma rewritten_real_key cache k k' :
  realKey k → rewritten cache k k' → k' = k.
Proof. intros [_ Hp]. unfold rewritten, isPlaceholder. by rewrite Hp. Qed.

(** X23.  A background or a logo chosen in the title and end page editor is
    registered under one key that both pages then hold (the two logos with
    one size).  If the key is not empty, is no default placeholder and
    differs from every key a later save generates, the next save writes that
    key for both pages into the manifest and puts the bytes of the file under
    it into the [assets] folder. *)
Theorem shared_upload_archived (h : Host) (file : File) (rt : Runtime)
    (urls : nat) (state : ProjectState) :
  let key := uuidv4 h (uuids rt) +:+ getFileExtension (fileName file) in
  let bg := handleBgFileChange h file rt urls state in
  let logo := handleLogoFileChange h file rt urls state in
  let savedBg := saveProject h bg.2 bg.1.1 in
  let savedLogo := saveProject h logo.2 logo.1.1 in
  realKey key →
  (∀ n, (uuids rt < n)%nat → key ≠ uuidv4 h n +:+ ".png") →
  (assetsFolder savedBg.1 !! key = Some (fileBytes file)
   ∧ ∃ j, projectJson savedBg.1 = Some j
          ∧ TitlePage.backgroundImageAssetKey (Project.titlePage j) = key
          ∧ EndPage.backgroundImageAssetKey (Project.endPage j) = key)
  ∧ (assetsFolder savedLogo.1 !! key = Some (fileBytes file)
     ∧ ∃ j, projectJson savedLogo.1 = Some j
            ∧ Logo.assetKey <$> TitlePage.logo (Project.titlePage j) = Some key
            ∧ Logo.assetKey <$> EndPage.logo (Project.endPage j) = Some key
            ∧ Logo.size <$> TitlePage.logo (Project.titlePage j)
              = Logo.size <$> EndPage.logo (Project.endPage j)).
Proof.
  cbv zeta. intros Hreal Hfresh.
  unfold handleBgFileChange, handleLogoFileChange, addAsset. cbn [fst snd].
  set (key := uuidv4 h (uuids rt) +:+ getFileExtension (fileName file)) in *.
  set (rt1 := mkRuntime (<[key := file]> (assetMap rt)) (S (uuids rt))
                (fetched rt)).
  set (src := createObjectURL h urls file).
  assert (assetMap rt1 !! key = Some file) as Hfile
    by (cbn; apply lookup_insert_eq).
  assert (∀ n, (uuids rt1 ≤ n)%nat → key ≠ uuidv4 h n +:+ ".png") as Hfresh1.
  { intros n Hn. apply Hfresh. cbn in Hn. lia. }
  split.
  - set (s1 := setSharedBackgroundImage src key state).
    destruct (rewriteState_spec h s1 rt1) as (_ & R1 & _ & R3 & _ & _).
    cbv zeta in R1, R3.
    apply rewritten_real_key in R1; [|done].
    apply rewritten_real_key in R3; [|done].
    unfold titleBgKey, endBgKey in R1, R3.
    split.
    + apply saved_reference; try done. left. by rewrite R1.
    + rewrite saveProject_unfold. cbv zeta. cbn [fst projectJson].
      eexists. split; [reflexivity|]. cbn. by rewrite R1, R3.
  - set (s1 := setSharedLogo (Some (src, key)) state).
    destruct (rewriteState_spec h s1 rt1) as (_ & _ & R2 & _ & R4 & HB).
    cbv zeta in R2, R4, HB. unfold titleLogoKey, endLogoKey in R2, R4.
    apply (f_equal (λ s, (TitlePage.logo (Project.titlePage s),
                          EndPage.logo (Project.endPage s)))) in HB.
    unfold blankPageKeys in HB.
    cbn [Project.titlePage Project.endPage TitlePage.logo EndPage.logo] in HB.
    destruct (TitlePage.logo (Project.titlePage (rewriteState h s1 (∅, rt1)).1))
      as [tl|] eqn:Etl; [|done].
    destruct (EndPage.logo (Project.endPage (rewriteState h s1 (∅, rt1)).1))
      as [el|] eqn:Eel; [|done].
    cbn in R2, R4, HB.
    apply rewritten_real_key in R2; [|done].
    apply rewritten_real_key in R4; [|done].
    split.
    + apply saved_reference; try done. right. left. eauto.
    + rewrite saveProject_unfold. cbv zeta. cbn [fst projectJson].
      eexists. split; [reflexivity|]. unfold toProjectJson.
      cbn [Project.titlePage Project.endPage TitlePage.logo EndPage.logo].
      rewrite Etl, Eel. cbn. rewrite R2, R4. split_and!; [done..|].
      unfold s1, setSharedLogo, blankLogoKey in HB. cbn in HB.
      injection HB as _ _ HB1 _ _ HB2. by rewrite HB1, HB2.
Qed.

Lemma shared_upload_archived_witness :
  assetsFolder
    (saveProject tallyHost
       (handleBgFileChange tallyHost sampleFile emptyRuntime 0
          (initialState tallyHost)).2
       (handleBgFileChange tallyHost sampleFile emptyRuntime 0
          (initialState tallyHost)).1.1).1 !! "u.png"
  = Some [Byte.x89].
Proof.
  apply (shared_upload_archived tallyHost sampleFile emptyRuntime 0
           (initialState tallyHost)).
  - by split.
  - intros [|n] Hn; [lia|]. done.
Defined.

(** ** The archive and the display sources *)

Lemma rewriteState_doc h (a b : ProjectState) st :
  toProjectJson a = toProjectJson b →
  (rewriteState h a st).2 = (rewriteState h b st).2
  ∧ toProjectJson (rewriteState h a st).1
    = toProjectJson (rewriteState h b st).1.
Proof.
  destruct a as [t1 [h1 sh1 bg1 bk1 tl1] ps1 [ebg1 ebk1 el1 tx1 sx1 mi1] lk1 ld1].
  destruct b as [t2 [h2 sh2 bg2 bk2 tl2] ps2 [ebg2 ebk2 el2 tx2 sx2 mi2] lk2 ld2].
  unfold toProjectJson. cbn.
  intros [= -> -> -> -> Htl Hps -> Hel -> -> -> ->].
  unfold rewriteState. cbn.
  destruct (processAndMapAsset h bk2 content.defaultBackgroundPath st)
    as [tbg st1].
  assert ((mapLogo h tl1 st1).2 = (mapLogo h tl2 st1).2
          ∧ stripLogo <$> (mapLogo h tl1 st1).1
            = stripLogo <$> (mapLogo h tl2 st1).1) as [E1 E2].
  { destruct tl1 as [[]|], tl2 as [[]|]; cbn in Htl; try done.
    injection Htl as -> -> ->. cbn.
    by destruct (processAndMapAsset h _ content.defaultLogoPath st1). }
  destruct (mapLogo h tl1 st1) as [tlogo1 st2], (mapLogo h tl2 st1) as [tlogo2 st2'].
  cbn in E1, E2. subst st2'.
  destruct (processAndMapAsset h ebk2 content.defaultBackgroundPath st2)
    as [ebg st3].
  assert ((mapLogo h el1 st3).2 = (mapLogo h el2 st3).2
          ∧ stripLogo <$> (mapLogo h el1 st3).1
            = stripLogo <$> (mapLogo h el2 st3).1) as [E3 E4].
  { destruct el1 as [[]|], el2 as [[]|]; cbn in Hel; try done.
    injection Hel as -> -> ->. cbn.
    by destruct (processAndMapAsset h _ content.defaultLogoPath st3). }
  destruct (mapLogo h el1 st3) as [elogo1 st4], (mapLogo h el2 st3) as [elogo2 st4'].
  cbn in E3, E4. subst st4'. cbn. by rewrite E2, E4, Hps.
Qed.

Lemma referencedAssets_doc (a b : ProjectState) :
  toProjectJson a = toProjectJson b → referencedAssets a = referencedAssets b.
Proof.
  intros E. apply set_eq. intros k. rewrite !elem_of_referencedAssets.
  assert (reachableKey a k ↔ reachableKey b k) as ->; [|done].
  unfold reachableKey.
  injection E as _ _ _ Hbk Htl Hps Hek Hel _ _ _ _.
  apply stripLogo_key in Htl, Hel.
  assert (Panel.imageAssetKey <$> Project.panels a
          = Panel.imageAssetKey <$> Project.panels b) as Hk.
  { apply stripPanel_data in Hps.
    apply (f_equal (fmap (λ d : string * string * string, d.1.2))) in Hps.
    by rewrite <-!list_fmap_compose in Hps. }
  assert (∀ s : ProjectState,
            (∃ p, p ∈ Project.panels s ∧ k = Panel.imageAssetKey p)
            ↔ k ∈ Panel.imageAssetKey <$> Project.panels s) as Hp.
  { intros s. rewrite list_elem_of_fmap. naive_solver. }
  assert (∀ o : option (Logo.t string),
            (∃ l, o = Some l ∧ k = Logo.assetKey l)
            ↔ Logo.assetKey <$> o = Some k) as Hl.
  { intros [l|]; cbn; naive_solver. }
  rewrite !Hp, !Hl, Hbk, Hek, Htl, Hel, Hk. done.
Qed.

(** X24.  The package a save produces, and the runtime it leaves, depend on
    the state only through its document: two states that differ in display
    sources (object URLs, image paths) or in the loading flag only give the
    same manifest and the same [assets] folder. *)
Theorem archive_ignores_display_sources (h : Host) (a b : ProjectState)
    (rt : Runtime) :
  toProjectJson a = toProjectJson b →
  saveProject h a rt = saveProject h b rt.
Proof.
  intros E. rewrite !saveProject_unfold. cbv zeta.
  destruct (rewriteState_doc h a b (∅, rt) E) as [E1 E2].
  by rewrite E1, E2, (referencedAssets_doc _ _ E2).
Qed.

Lemma archive_ignores_display_sources_witness :
  saveProject sampleHost (initialState sampleHost) emptyRuntime
  = saveProject sampleHost (setLoading true (initialState sampleHost))
      emptyRuntime.
Proof.
  by apply (archive_ignores_display_sources sampleHost
              (initialState sampleHost)
              (setLoading true (initialState sampleHost)) emptyRuntime).
Defined.

(** ** The title and the end page *)

Lemma drawBackground_covers pdf assets src key img :
  (∀ w h, loadImage pdf src = Some (w, h) → (0 < w)%Q ∧ (0 < h)%Q) →
  drawBackground pdf assets src key = Some img →
  let p := imgPlace img in
  (drawX p <= 0)%Q ∧ (drawY p <= 0)%Q
  ∧ (PDF_WIDTH <= drawX p + drawWidth p)%Q
  ∧ (PDF_HEIGHT <= drawY p + drawHeight p)%Q.
Proof.
  intros Hpos. unfold drawBackground. destruct (Js.falsy src); [done|].
  destruct (loadImage pdf src) as [[w h]|] eqn:E; [|done].
  destruct (Hpos w h eq_refl) as [Hw Hh]. intros [= <-]. cbn [imgPlace].
  destruct (pageBackgroundFit_covers w h Hw Hh) as [H1 H2].
  assert (0 < w / h)%Q as Hr by (by apply Qlt_shift_div_l; lra).
  destruct (coverFit_shape PDF_WIDTH PDF_HEIGHT (w / h) Hr) as (_ & Hx & Hy & _).
  cbv zeta in Hx, Hy. fold (pageBackgroundFit w h) in Hx, Hy.
  pose proof (Qhalf (PDF_WIDTH - drawWidth (pageBackgroundFit w h))) as E1.
  pose proof (Qhalf (PDF_HEIGHT - drawHeight (pageBackgroundFit w h))) as E2.
  revert Hx Hy E1 E2.
  generalize ((PDF_WIDTH - drawWidth (pageBackgroundFit w h)) / 2)%Q,
             ((PDF_HEIGHT - drawHeight (pageBackgroundFit w h)) / 2)%Q.
  intros cx cy Hx Hy E1 E2. split_and!; lra.
Qed.

Lemma drawBackground_format pdf assets src key key' :
  drawBackground pdf assets src key
  = withFormat (backgroundFormat assets key)
      <$> drawBackground pdf assets src key'.
Proof.
  unfold drawBackground. destruct (Js.falsy src); [done|].
  by destruct (loadImage pdf src) as [[w h]|].
Qed.

(** X25.  On the end page of the export with [mirrorTitlePage] set, the
    background drawn is the image of the title page background in the same
    rectangle, under the format of the asset that the end page's own
    background key names: it is the very drawing of the title page when the
    two keys name assets of the same format, as they do when the keys are
    equal, which is what [setEndPageMirror(true)] and
    [setSharedBackgroundImage] leave behind.  The logo drawn is that of the
    title page, format included, when the title logo has the position of the
    end page logo.  A background that is drawn, on either page, for an image
    with positive natural sides covers the whole page. *)
Theorem end_page_drawing (pdf : Pdf) (assets : AssetMap)
    (state : ProjectState) :
  let d := drawEndPage pdf assets (endPageConfig state) in
  let t := titlePageImages pdf assets (Project.titlePage state) in
  let titleKey := TitlePage.backgroundImageAssetKey (Project.titlePage state) in
  let endKey := EndPage.backgroundImageAssetKey (Project.endPage state) in
  (EndPage.mirrorTitlePage (Project.endPage state) = true →
   pageBackground d
   = withFormat (backgroundFormat assets endKey) <$> pageBackground t
   ∧ (backgroundFormat assets endKey = backgroundFormat assets titleKey →
      pageBackground d = pageBackground t)
   ∧ (∀ tl, TitlePage.logo (Project.titlePage state) = Some tl →
        Logo.position tl
        = endLogoPosition (EndPage.logo (Project.endPage state)) →
        pageLogo d = pageLogo t))
  ∧ (∀ mirror src assetKey,
       let s1 := setEndPageMirror true state in
       let s2 := setSharedBackgroundImage src assetKey state in
       EndPage.backgroundImageAssetKey (Project.endPage s1)
       = TitlePage.backgroundImageAssetKey (Project.titlePage s1)
       ∧ EndPage.backgroundImageAssetKey (Project.endPage s2)
         = TitlePage.backgroundImageAssetKey (Project.titlePage s2)
       ∧ EndPage.mirrorTitlePage
           (Project.endPage (setEndPageMirror mirror state)) = mirror)
  ∧ (∀ img,
       (∀ src w h, loadImage pdf src = Some (w, h) → (0 < w)%Q ∧ (0 < h)%Q) →
       pageBackground d = Some img ∨ pageBackground t = Some img →
       let p := imgPlace img in
       (drawX p <= 0)%Q ∧ (drawY p <= 0)%Q
       ∧ (PDF_WIDTH <= drawX p + drawWidth p)%Q
       ∧ (PDF_HEIGHT <= drawY p + drawHeight p)%Q).
Proof.
  cbv zeta. split_and!.
  - intros Hm. unfold endPageConfig. rewrite Hm.
    cbn [drawEndPage titlePageImages pageBackground pageLogo
         EndPage.backgroundImage EndPage.backgroundImageAssetKey EndPage.logo].
    split_and!.
    + apply drawBackground_format.
    + intros E. rewrite (drawBackground_format _ _ _ _
        (TitlePage.backgroundImageAssetKey (Project.titlePage state))), E.
      unfold drawBackground. destruct (Js.falsy _); [done|].
      by destruct (loadImage pdf _) as [[w h]|].
    + intros tl Htl Hpos. rewrite Htl. rewrite <-Hpos. by destruct tl.
  - intros mirror src assetKey. split_and!; [done|done|].
    by destruct mirror.
  - intros img Hpos [H|H].
    + apply (drawBackground_covers pdf assets
               (EndPage.backgroundImage (endPageConfig state))
               (EndPage.backgroundImageAssetKey (endPageConfig state)) img);
        [intros w h; apply Hpos|exact H].
    + apply (drawBackground_covers pdf assets
               (TitlePage.backgroundImage (Project.titlePage state))
               (TitlePage.backgroundImageAssetKey (Project.titlePage state))
               img);
        [intros w h; apply Hpos|exact H].
Qed.

Lemma end_page_drawing_witness :
  pageLogo
    (drawEndPage samplePdf twoImages
       (endPageConfig
          (updateTitlePageLogo (Some defaultEndPageLogo)
             (initialState sampleHost))))
  = pageLogo
      (titlePageImages samplePdf twoImages
         (Project.titlePage
            (updateTitlePageLogo (Some defaultEndPageLogo)
               (initialState sampleHost)))).
Proof.
  destruct (end_page_drawing samplePdf twoImages
              (updateTitlePageLogo (Some defaultEndPageLogo)
                 (initialState sampleHost))) as (H & _).
  destruct (H eq_refl) as (_ & _ & H').
  by apply (H' defaultEndPageLogo).
Defined.

(** A mirrored end page whose own background key names a JPEG file draws
    the PNG background of the title page under the format JPEG. *)
Lemma mirrored_background_format :
  EndPage.mirrorTitlePage (Project.endPage mirroredState) = true
  ∧ imgFormat <$> pageBackground
                    (titlePageImages samplePdf twoImages
                       (Project.titlePage mirroredState)) = Some PNG
  ∧ imgFormat <$> pageBackground
                    (drawEndPage samplePdf twoImages
                       (endPageConfig mirroredState)) = Some JPEG
  ∧ imgSrc <$> pageBackground
                 (drawEndPage samplePdf twoImages
                    (endPageConfig mirroredState)) = Some "blob:t".
Proof. split_and!; by vm_compute. Qed.
